(** * ECS.hpp: entity / component / system registry

    A shallow embedding of [src/ECS.hpp] (namespace [ECS]) and the
    properties of its entity allocator, component containers, system
    manager and registry facade.

    Conventions of the embedding.
    - [Entity], [ComponentType] and [std::size_t] are 64-bit unsigned words
      (the [ECS64] configuration), modelled as [N] with the wrap-around of
      [++] and [--] written out.
    - [Signature] is [std::bitset<COMPONENT_MAX>], modelled as an [N] below
      [2 ^ COMPONENT_MAX]; bit [i] of the bitset is [N.testbit _ i].
    - A failed [assert] stops the operation; the state it leaves is the one
      reached at the failing check.  Operations live in a small state and
      error monad [M S A := S -> Outcome A * S].
    - [std::unordered_map] is a [gmap], [std::set] a [gset], [std::queue] a
      list whose head is the front, [std::array] a list of fixed length.
    - [typeid(T).name()] is the key of the per-type maps: a [string]. *)

From Stdlib Require Import NArith Lia.
From stdpp Require Import gmap strings list fin_maps.

Local Open Scope N_scope.

(** ** Configuration *)

(** [Entity], [ComponentType] and [Signature] all denote [N]; they are
    abbreviations, so that the maps and sets keyed by them are maps and sets
    over [N]. *)
Abbreviation Entity := N (only parsing).
Abbreviation ComponentType := N (only parsing).
Abbreviation Signature := N (only parsing).

(** Width of the machine word behind [Entity], [ComponentType], [size_t]. *)
Definition WORD : N := 2 ^ 64.

(** [ECS_COMPONENT_MAX] *)
Definition COMPONENT_MAX : ComponentType := 32.

(** [ECS_ENTITY_MAX] *)
Definition ENTITY_MAX : Entity := 5000.

(** [++x] and [--x] on an unsigned word. *)
Definition incr (x : N) : N := (x + 1) mod WORD.
Definition decr (x : N) : N := (x + WORD - 1) mod WORD.

(** ** Errors and the operation monad *)

(** One constructor per failing check of the source: the six assertion
    classes, [std::out_of_range] of [std::bitset::set], and access outside a
    [std::array] or to the front of an empty [std::queue]. *)
Inductive Error : Set :=
  | CapacityExceeded
  | InvalidEntity
  | DuplicateRegistration
  | NotRegistered
  | DuplicateComponent
  | MissingComponent
  | BitsetOutOfRange
  | UndefinedBehaviour.

Inductive Outcome (A : Type) : Type :=
  | Done (a : A)
  | Fail (e : Error).
Arguments Done {A} a.
Arguments Fail {A} e.

Definition M (S A : Type) : Type := S → Outcome A * S.

Definition ret {S A : Type} (a : A) : M S A := λ s, (Done a, s).

Definition bind {S A B : Type} (m : M S A) (k : A → M S B) : M S B :=
  λ s, match m s with
       | (Done a, s') => k a s'
       | (Fail e, s') => (Fail e, s')
       end.

Definition throw {S A : Type} (e : Error) : M S A := λ s, (Fail e, s).

(** [assert(cond && "message")], the message naming the error. *)
Definition assert {S : Type} (cond : bool) (e : Error) : M S unit :=
  λ s, if cond then (Done tt, s) else (Fail e, s).

Definition gets {S A : Type} (f : S → A) : M S A := λ s, (Done (f s), s).

Definition modify {S : Type} (f : S → S) : M S unit := λ s, (Done tt, f s).

(** Run an operation of a member object inside the object that owns it. *)
Definition zoom {S T A : Type} (proj : T → S) (upd : S → T → T)
    (m : M S A) : M T A :=
  λ t, match m (proj t) with (o, s') => (o, upd s' t) end.

Notation "'let*' x ':=' m 'in' k" := (bind m (λ x, k))
  (at level 10, x binder, m at level 100, k at level 200, only parsing).
Notation "m '>>' k" := (bind m (λ _, k))
  (at level 60, right associativity, only parsing).

(** [for (const auto& x : xs) body(x)] *)
Fixpoint for_each {S A : Type} (xs : list A) (body : A → M S unit)
    : M S unit :=
  match xs with
  | [] => ret tt
  | x :: rest => body x >> for_each rest body
  end.

(** [m.find(k) != m.end()] on a [std::unordered_map] *)
Definition found {K V : Type} `{Countable K} (m : gmap K V) (k : K) : bool :=
  match m !! k with Some _ => true | None => false end.

(** Reading and writing [a[i]] on a [std::array]; outside the array the
    behaviour is undefined. *)
Definition array_read {S T : Type} (a : list T) (i : N) : M S T :=
  match a !! N.to_nat i with
  | Some x => ret x
  | None => throw UndefinedBehaviour
  end.

Definition array_write {S T : Type} (a : list T) (i : N) (x : T)
    : M S (list T) :=
  if N.of_nat (length a) <=? i then throw UndefinedBehaviour
  else ret (<[N.to_nat i := x]> a).

(** The value a successful operation returns, and the state it leaves. *)
Definition result {S A : Type} (r : Outcome A * S) : option A :=
  match r.1 with Done a => Some a | Fail _ => None end.

Definition failure {S A : Type} (r : Outcome A * S) : option Error :=
  match r.1 with Done _ => None | Fail e => Some e end.

(** ** Signature: [std::bitset<COMPONENT_MAX>] *)

Module Bitset.

(** [bitset()] and [reset()] *)
Definition zero : Signature := 0.

(** [bitset(unsigned long long val)]: the low [COMPONENT_MAX] bits. *)
Definition of_ullong (val : N) : Signature := val mod 2 ^ COMPONENT_MAX.

(** [set(pos, val)], which throws [std::out_of_range] past the width. *)
Definition set {S : Type} (sig : Signature) (pos : N) (val : bool)
    : M S Signature :=
  if pos <? COMPONENT_MAX
  then ret (if val then N.setbit sig pos else N.clearbit sig pos)
  else throw BitsetOutOfRange.

(** [operator&] *)
Definition band (a b : Signature) : Signature := N.land a b.

(** [operator==] *)
Definition eqb (a b : Signature) : bool := a =? b.

(** [any()] *)
Definition any (a : Signature) : bool := negb (a =? 0).

(** [a && b] on two bit vectors: the built-in logical AND, which sees
    each operand only as a truth value (some bit set) and yields a
    [bool]. *)
Definition logical_and (a b : Signature) : bool := any a && any b.

(** A [bool] compared with a bitset is first made a bitset, through the
    integral promotion [false -> 0], [true -> 1] and [of_ullong]. *)
Definition of_bool (b : bool) : Signature :=
  of_ullong (if b then 1 else 0).

End Bitset.

(** ** EntityManager *)

Module EntityManager.

Record t : Type := mk {
  entitiesAvailable_ : list Entity;   (* std::queue, front first *)
  entitiesLiving_ : Entity;
  signatures_ : list Signature        (* std::array<_, ENTITY_MAX> *)
}.

(** Constructor: an empty queue filled with [0 .. ENTITY_MAX - 1] in
    increasing order, no living entity, every signature empty. *)
Definition new : t :=
  {| entitiesAvailable_ := N.of_nat <$> seq 0 (N.to_nat ENTITY_MAX);
     entitiesLiving_ := 0;
     signatures_ := replicate (N.to_nat ENTITY_MAX) Bitset.zero |}.

Definition create : M t Entity :=
  let* living := gets entitiesLiving_ in
  assert (living <? ENTITY_MAX) CapacityExceeded >>
  let* queue := gets entitiesAvailable_ in
  match queue with
  | [] => throw UndefinedBehaviour
  | entity :: rest =>
      modify (λ m, {| entitiesAvailable_ := rest;
                      entitiesLiving_ := incr (entitiesLiving_ m);
                      signatures_ := signatures_ m |}) >>
      ret entity
  end.

Definition destroy (entity : Entity) : M t unit :=
  assert (entity <? ENTITY_MAX) InvalidEntity >>
  modify (λ m, {| entitiesAvailable_ := entitiesAvailable_ m ++ [entity];
                  entitiesLiving_ := decr (entitiesLiving_ m);
                  signatures_ :=
                    <[N.to_nat entity := Bitset.zero]> (signatures_ m) |}).

(** [Signature signature(Entity)] *)
Definition signature (entity : Entity) : M t Signature :=
  assert (entity <? ENTITY_MAX) InvalidEntity >>
  let* sigs := gets signatures_ in
  match sigs !! N.to_nat entity with
  | Some sig => ret sig
  | None => throw UndefinedBehaviour
  end.

(** [void signature(Entity, Signature)] *)
Definition signature_set (entity : Entity) (sig : Signature) : M t unit :=
  assert (entity <? ENTITY_MAX) InvalidEntity >>
  modify (λ m, {| entitiesAvailable_ := entitiesAvailable_ m;
                  entitiesLiving_ := entitiesLiving_ m;
                  signatures_ := <[N.to_nat entity := sig]> (signatures_ m) |}).

End EntityManager.

(** ** ComponentContainer<T> *)

Module ComponentContainer.

Section Container.
Context {T : Type} `{Inhabited T}.

Record t : Type := mk {
  components_ : list T;                  (* std::array<T, ENTITY_MAX> *)
  mapEntityToIndex_ : gmap Entity N;
  mapIndexToEntity_ : gmap N Entity;
  size_ : N
}.

Definition set_components (cs : list T) (c : t) : t :=
  mk cs (mapEntityToIndex_ c) (mapIndexToEntity_ c) (size_ c).
Definition set_mapEntityToIndex (m : gmap Entity N) (c : t) : t :=
  mk (components_ c) m (mapIndexToEntity_ c) (size_ c).
Definition set_mapIndexToEntity (m : gmap N Entity) (c : t) : t :=
  mk (components_ c) (mapEntityToIndex_ c) m (size_ c).
Definition set_size (n : N) (c : t) : t :=
  mk (components_ c) (mapEntityToIndex_ c) (mapIndexToEntity_ c) n.

(** Constructor: value-initialised array, empty maps, size zero. *)
Definition new : t :=
  {| components_ := replicate (N.to_nat ENTITY_MAX) inhabitant;
     mapEntityToIndex_ := ∅;
     mapIndexToEntity_ := ∅;
     size_ := 0 |}.

Definition get (entity : Entity) : M t T :=
  let* e2i := gets mapEntityToIndex_ in
  assert (found e2i entity) MissingComponent >>
  let* cs := gets components_ in
  array_read cs (default 0 (e2i !! entity)).

Definition insert (entity : Entity) (component : T) : M t unit :=
  let* e2i := gets mapEntityToIndex_ in
  assert (negb (found e2i entity)) DuplicateComponent >>
  let* index := gets size_ in
  modify (set_mapEntityToIndex (<[entity := index]> e2i)) >>
  modify (λ c, set_mapIndexToEntity
                 (<[index := entity]> (mapIndexToEntity_ c)) c) >>
  let* cs := gets components_ in
  let* cs' := array_write cs index component in
  modify (set_components cs') >>
  modify (set_size (incr index)).

Definition remove (entity : Entity) : M t unit :=
  let* e2i := gets mapEntityToIndex_ in
  assert (found e2i entity) MissingComponent >>
  let indexRemoved := default 0 (e2i !! entity) in
  let* size := gets size_ in
  let indexLast := decr size in
  let* cs := gets components_ in
  let* last := array_read cs indexLast in
  let* cs' := array_write cs indexRemoved last in
  modify (set_components cs') >>
  let* i2e := gets mapIndexToEntity_ in
  let entityLast := default 0 (i2e !! indexLast) in
  modify (set_mapEntityToIndex (<[entityLast := indexRemoved]> e2i)) >>
  modify (set_mapIndexToEntity (<[indexRemoved := entityLast]> i2e)) >>
  modify (λ c, set_mapEntityToIndex
                 (delete entity (mapEntityToIndex_ c)) c) >>
  modify (λ c, set_mapIndexToEntity
                 (delete indexLast (mapIndexToEntity_ c)) c) >>
  modify (set_size (decr size)).

Definition destroyed (entity : Entity) : M t unit :=
  let* e2i := gets mapEntityToIndex_ in
  if negb (found e2i entity) then ret tt
  else remove entity.

End Container.
Arguments t T : clear implicits.

End ComponentContainer.

(** ** ComponentManager *)

(** Every component type [T] of a program is stored through the one value
    type [V] here; [typeid(T).name()] selects the container. *)
Module ComponentManager.

Section Manager.
Context {V : Type} `{Inhabited V}.

Record t : Type := mk {
  componentTypes_ : gmap string ComponentType;
  componentContainer_ : gmap string (ComponentContainer.t V);
  nextType_ : ComponentType
}.

(** [std::make_unique<ComponentManager>()] value-initialises. *)
Definition new : t :=
  {| componentTypes_ := ∅; componentContainer_ := ∅; nextType_ := 0 |}.

(** [getContainer_<T>()->op]: the operation runs on the container the
    map points to. *)
Definition getContainer_ {A : Type} (type : string)
    (op : M (ComponentContainer.t V) A) : M t A :=
  let* types := gets componentTypes_ in
  assert (found types type) NotRegistered >>
  let* containers := gets componentContainer_ in
  match containers !! type with
  | None => throw UndefinedBehaviour
  | Some container =>
      zoom (λ _, container)
           (λ c m, mk (componentTypes_ m)
                      (<[type := c]> (componentContainer_ m))
                      (nextType_ m))
           op
  end.

Definition add (type : string) (entity : Entity) (component : V)
    : M t unit :=
  getContainer_ type (ComponentContainer.insert entity component).

Definition destroyed (entity : Entity) : M t unit :=
  let* containers := gets componentContainer_ in
  for_each (map_to_list containers) (λ pair,
    zoom (λ _, pair.2)
         (λ c m, mk (componentTypes_ m)
                    (<[pair.1 := c]> (componentContainer_ m))
                    (nextType_ m))
         (ComponentContainer.destroyed entity)).

Definition get (type : string) (entity : Entity) : M t V :=
  getContainer_ type (ComponentContainer.get entity).

Definition getType (type : string) : M t ComponentType :=
  let* types := gets componentTypes_ in
  assert (found types type) NotRegistered >>
  ret (default 0 (types !! type)).

(** [std::unordered_map::insert] keeps an entry that is already there. *)
Definition install (type : string) : M t unit :=
  let* types := gets componentTypes_ in
  assert (negb (found types type)) DuplicateRegistration >>
  modify (λ m, mk (<[type := nextType_ m]> (componentTypes_ m))
                  (componentContainer_ m) (nextType_ m)) >>
  modify (λ m, mk (componentTypes_ m)
                  (match componentContainer_ m !! type with
                   | Some _ => componentContainer_ m
                   | None =>
                       <[type := ComponentContainer.new]>
                         (componentContainer_ m)
                   end)
                  (nextType_ m)) >>
  modify (λ m, mk (componentTypes_ m) (componentContainer_ m)
                  (incr (nextType_ m))).

Definition remove (type : string) (entity : Entity) : M t unit :=
  getContainer_ type (ComponentContainer.remove entity).

End Manager.
Arguments t V : clear implicits.

End ComponentManager.

(** ** System and SystemManager *)

Module System.

Record t : Type := mk { entities : gset Entity }.

Definition new : t := {| entities := ∅ |}.

(** [entities.insert(entity)] and [entities.erase(entity)] *)
Definition insert (entity : Entity) (s : t) : t :=
  {| entities := {[entity]} ∪ entities s |}.
Definition erase (entity : Entity) (s : t) : t :=
  {| entities := entities s ∖ {[entity]} |}.

End System.

Module SystemManager.

Record t : Type := mk {
  signatures_ : gmap string Signature;
  systems_ : gmap string System.t      (* the objects the pointers own *)
}.

Definition new : t := {| signatures_ := ∅; systems_ := ∅ |}.

(** [system->entities.op(entity)] through the pointer stored for [type]. *)
Definition on_system (type : string) (op : System.t → System.t) : M t unit :=
  modify (λ m, mk (signatures_ m) (alter op type (systems_ m))).

Definition entityDestroyed (entity : Entity) : M t unit :=
  let* systems := gets systems_ in
  for_each (map_to_list systems) (λ pair,
    on_system pair.1 (System.erase entity)).

(** Returns the pointer to the new system: its key in [systems_]. *)
Definition install (type : string) : M t string :=
  let* systems := gets systems_ in
  assert (negb (found systems type)) DuplicateRegistration >>
  modify (λ m, mk (signatures_ m) (<[type := System.new]> (systems_ m))) >>
  ret type.

(** [signatures_.insert(pair)]: [std::unordered_map::insert] stores the
    pair only when the key has no entry yet. *)
Definition signature (type : string) (sig : Signature) : M t unit :=
  let* systems := gets systems_ in
  assert (found systems type) NotRegistered >>
  modify (λ m, mk (match signatures_ m !! type with
                   | Some _ => signatures_ m
                   | None => <[type := sig]> (signatures_ m)
                   end)
                  (systems_ m)).

(** The test of the source, [(signatureEntity && signatureSystem) ==
    signatureSystem]. *)
Definition matches (signatureEntity signatureSystem : Signature) : bool :=
  Bitset.eqb
    (Bitset.of_bool (Bitset.logical_and signatureEntity signatureSystem))
    signatureSystem.

(** [signatures_[type]] value-initialises the entry when it is missing. *)
Definition signatureChanged (entity : Entity) (signatureEntity : Signature)
    : M t unit :=
  let* systems := gets systems_ in
  for_each (map_to_list systems) (λ pair,
    let type := pair.1 in
    let* sigs := gets signatures_ in
    let signatureSystem := default Bitset.zero (sigs !! type) in
    modify (λ m, mk (<[type := signatureSystem]> (signatures_ m))
                    (systems_ m)) >>
    if matches signatureEntity signatureSystem
    then on_system type (System.insert entity)
    else on_system type (System.erase entity)).

End SystemManager.

(** ** Registry *)

Module Registry.

Section Facade.
Context {V : Type} `{Inhabited V}.

Record t : Type := mk {
  componentManager_ : ComponentManager.t V;
  entityManager_ : EntityManager.t;
  systemManager_ : SystemManager.t
}.

Definition new : t :=
  {| componentManager_ := ComponentManager.new;
     entityManager_ := EntityManager.new;
     systemManager_ := SystemManager.new |}.

(** [componentManager_->], [entityManager_->], [systemManager_->] *)
Definition components {A : Type} : M (ComponentManager.t V) A → M t A :=
  zoom componentManager_
       (λ c r, mk c (entityManager_ r) (systemManager_ r)).
Definition entities {A : Type} : M EntityManager.t A → M t A :=
  zoom entityManager_
       (λ e r, mk (componentManager_ r) e (systemManager_ r)).
Definition systems {A : Type} : M SystemManager.t A → M t A :=
  zoom systemManager_
       (λ s r, mk (componentManager_ r) (entityManager_ r) s).

Definition entityCreate : M t Entity :=
  entities EntityManager.create.

Definition entityDestroy (entity : Entity) : M t unit :=
  entities (EntityManager.destroy entity) >>
  components (ComponentManager.destroyed entity) >>
  systems (SystemManager.entityDestroyed entity).

(** The [component] argument is not used by the body. *)
Definition componentAdd (type : string) (entity : Entity) (component : V)
    : M t unit :=
  components (ComponentManager.install type) >>
  let* signature := entities (EntityManager.signature entity) in
  let* bit := components (ComponentManager.getType type) in
  let* signature := Bitset.set signature bit true in
  entities (EntityManager.signature_set entity signature) >>
  systems (SystemManager.signatureChanged entity signature).

Definition componentGet (type : string) (entity : Entity) : M t V :=
  components (ComponentManager.get type entity).

Definition componentInstall (type : string) : M t unit :=
  components (ComponentManager.install type).

Definition componentRemove (type : string) (entity : Entity) : M t unit :=
  components (ComponentManager.remove type entity) >>
  let* signature := entities (EntityManager.signature entity) in
  let* bit := components (ComponentManager.getType type) in
  let* signature := Bitset.set signature bit false in
  entities (EntityManager.signature_set entity signature) >>
  systems (SystemManager.signatureChanged entity signature).

Definition componentType (type : string) : M t ComponentType :=
  components (ComponentManager.getType type).

Definition systemInstall (type : string) : M t string :=
  systems (SystemManager.install type).

Definition systemSignature (type : string) (signature : Signature)
    : M t unit :=
  systems (SystemManager.signature type signature).

End Facade.
Arguments t V : clear implicits.

End Registry.

(** ** Well-formed containers *)

Module Store.

Section Store.
Context {T : Type}.
Implicit Types c : ComponentContainer.t T.

(** The representation invariant of a container: the array has its
    fixed length, the two maps are inverse to each other, and the
    mapped slots are exactly the indices below [size_]. *)
Record wf c : Prop := {
  wf_array : length (ComponentContainer.components_ c)
             = N.to_nat ENTITY_MAX;
  wf_size : ComponentContainer.size_ c <= ENTITY_MAX;
  wf_inverse : ∀ e i,
    ComponentContainer.mapEntityToIndex_ c !! e = Some i
    ↔ ComponentContainer.mapIndexToEntity_ c !! i = Some e;
  wf_dense : ∀ i,
    is_Some (ComponentContainer.mapIndexToEntity_ c !! i)
    ↔ i < ComponentContainer.size_ c
}.

(** The slot and the component value an entity has in the container. *)
Definition slot_of c (e : Entity) : option N :=
  ComponentContainer.mapEntityToIndex_ c !! e.

Definition value_of c (e : Entity) : option T :=
  match slot_of c e with
  | Some i => ComponentContainer.components_ c !! N.to_nat i
  | None => None
  end.

End Store.

End Store.

(** ** Call sequences *)

(** A handle is live when it is in range and not waiting in the queue of
    available handles: [create] takes it out of the queue, [destroy] puts
    it back. *)
Definition live (m : EntityManager.t) (e : Entity) : bool :=
  (e <? ENTITY_MAX) && bool_decide (e ∉ EntityManager.entitiesAvailable_ m).

(** All handles, and those of them that are live. *)
Definition handles : list Entity := N.of_nat <$> seq 0 (N.to_nat ENTITY_MAX).

Definition living (m : EntityManager.t) : list Entity :=
  filter (λ e, live m e = true) handles.

Module Allocator.

Inductive Call : Type :=
  | Create
  | Destroy (e : Entity)
  | SetSignature (e : Entity) (sig : Signature).

Definition call (c : Call) : M EntityManager.t unit :=
  match c with
  | Create => EntityManager.create >> ret tt
  | Destroy e => EntityManager.destroy e
  | SetSignature e sig => EntityManager.signature_set e sig
  end.

(** The handle a call works on has to be live. *)
Definition admissible (c : Call) (m : EntityManager.t) : bool :=
  match c with
  | Create => true
  | Destroy e | SetSignature e _ => live m e
  end.

(** The state after a sequence of admissible calls, none of which fails. *)
Fixpoint run (cs : list Call) (m : EntityManager.t)
    : option EntityManager.t :=
  match cs with
  | [] => Some m
  | c :: rest =>
      if admissible c m then
        match call c m with
        | (Done _, m') => run rest m'
        | (Fail _, _) => None
        end
      else None
  end.

(** [k] calls of [create] in a row, with the handles they return. *)
Fixpoint create_n (k : nat) : M EntityManager.t (list Entity) :=
  match k with
  | O => ret []
  | S k' =>
      let* e := EntityManager.create in
      let* es := create_n k' in
      ret (e :: es)
  end.

(** The state after a sequence of calls, none of which fails, with no
    condition on the handles the calls work on. *)
Fixpoint exec (cs : list Call) (m : EntityManager.t)
    : option EntityManager.t :=
  match cs with
  | [] => Some m
  | c :: rest =>
      match call c m with
      | (Done _, m') => exec rest m'
      | (Fail _, _) => None
      end
  end.

(** The call writes a signature for handle [e]. *)
Definition writes (e : Entity) (c : Call) : bool :=
  match c with
  | SetSignature e' _ => e' =? e
  | _ => false
  end.

End Allocator.

Module Facade.

Section Calls.
Context {V : Type} `{Inhabited V}.

Inductive Call : Type :=
  | EntityCreate
  | EntityDestroy (e : Entity)
  | ComponentAdd (type : string) (e : Entity) (component : V)
  | ComponentRemove (type : string) (e : Entity)
  | ComponentInstall (type : string)
  | SystemInstall (type : string)
  | SystemSignature (type : string) (sig : Signature).

Definition call (c : Call) : M (Registry.t V) unit :=
  match c with
  | EntityCreate => Registry.entityCreate >> ret tt
  | EntityDestroy e => Registry.entityDestroy e
  | ComponentAdd type e component => Registry.componentAdd type e component
  | ComponentRemove type e => Registry.componentRemove type e
  | ComponentInstall type => Registry.componentInstall type
  | SystemInstall type => Registry.systemInstall type >> ret tt
  | SystemSignature type sig => Registry.systemSignature type sig
  end.

Definition admissible (c : Call) (r : Registry.t V) : bool :=
  match c with
  | EntityDestroy e | ComponentAdd _ e _ | ComponentRemove _ e =>
      live (Registry.entityManager_ r) e
  | _ => true
  end.

Fixpoint run (cs : list Call) (r : Registry.t V)
    : option (Registry.t V) :=
  match cs with
  | [] => Some r
  | c :: rest =>
      if admissible c r then
        match call c r with
        | (Done _, r') => run rest r'
        | (Fail _, _) => None
        end
      else None
  end.

(** The mask a system is tested against and the signature an entity
    carries. *)
Definition mask (r : Registry.t V) (type : string) : Signature :=
  default Bitset.zero
    (SystemManager.signatures_ (Registry.systemManager_ r) !! type).

Definition signature_of (r : Registry.t V) (e : Entity) : Signature :=
  default Bitset.zero
    (EntityManager.signatures_ (Registry.entityManager_ r) !! N.to_nat e).

(** The members of a system. *)
Definition members (r : Registry.t V) (type : string) : gset Entity :=
  match SystemManager.systems_ (Registry.systemManager_ r) !! type with
  | Some system => System.entities system
  | None => ∅
  end.

(** Query correctness as the specification words it. *)
Definition query_correct (r : Registry.t V) : Prop :=
  ∀ type e,
    found (SystemManager.systems_ (Registry.systemManager_ r)) type = true →
    (e ∈ members r type
     ↔ live (Registry.entityManager_ r) e = true
       ∧ Bitset.band (signature_of r e) (mask r type) = mask r type).

(** Every member of every system is a live handle. *)
Definition members_live (r : Registry.t V) : Prop :=
  ∀ t s x,
    SystemManager.systems_ (Registry.systemManager_ r) !! t = Some s →
    x ∈ System.entities s →
    live (Registry.entityManager_ r) x = true.

(** The entity a call works on. *)
Definition touches (c : Call) (x : Entity) : Prop :=
  match c with
  | EntityDestroy e | ComponentAdd _ e _ | ComponentRemove _ e => e = x
  | _ => False
  end.

(** Every registered type has its container, and every container is as the
    constructor left it. *)
Definition stores_untouched (r : Registry.t V) : Prop :=
  (∀ t,
     is_Some (ComponentManager.componentTypes_
                (Registry.componentManager_ r) !! t)
     ↔ is_Some (ComponentManager.componentContainer_
                  (Registry.componentManager_ r) !! t))
  ∧ ∀ t c,
      ComponentManager.componentContainer_
        (Registry.componentManager_ r) !! t = Some c →
      c = ComponentContainer.new.

End Calls.
Arguments Call V : clear implicits.

End Facade.


(** ** The allocator's invariant *)

Module AllocatorInv.

(** Every handle is either waiting in the queue, once and with an empty
    signature, or counted as living. *)
Record inv (m : EntityManager.t) : Prop := {
  inv_nodup : NoDup (EntityManager.entitiesAvailable_ m);
  inv_range : ∀ e, e ∈ EntityManager.entitiesAvailable_ m → e < ENTITY_MAX;
  inv_count : EntityManager.entitiesLiving_ m
              + N.of_nat (length (EntityManager.entitiesAvailable_ m))
              = ENTITY_MAX;
  inv_array : length (EntityManager.signatures_ m) = N.to_nat ENTITY_MAX;
  inv_reset : ∀ e, e ∈ EntityManager.entitiesAvailable_ m →
              EntityManager.signatures_ m !! N.to_nat e = Some Bitset.zero
}.

End AllocatorInv.

(** ** The component manager's invariant *)

Module Directory.

Section Directory.
Context {V : Type}.

(** A type is registered exactly when it has a container, and every
    container is well formed. *)
Record wf (m : ComponentManager.t V) : Prop := {
  wf_aligned : ∀ t,
    is_Some (ComponentManager.componentTypes_ m !! t)
    ↔ is_Some (ComponentManager.componentContainer_ m !! t);
  wf_stores : ∀ t c,
    ComponentManager.componentContainer_ m !! t = Some c → Store.wf c
}.

End Directory.

End Directory.

(** * Properties *)

Example run_facade :
  (λ r, elements (Facade.members r "S")) <$>
    Facade.run [Facade.SystemInstall "S"; Facade.SystemSignature "S" 1;
                Facade.EntityCreate; Facade.ComponentAdd "A" 0 7%nat]
               Registry.new
  = Some [0].
Proof. vm_compute. reflexivity. Qed.

(** ** Words *)

Lemma ENTITY_MAX_lt_WORD : ENTITY_MAX < WORD.
Proof. reflexivity. Qed.

Lemma WORD_pos : 0 < WORD.
Proof. reflexivity. Qed.

Lemma ENTITY_MAX_pos : 0 < ENTITY_MAX.
Proof. reflexivity. Qed.

(** The proofs below use the two constants only through these bounds. *)
#[local] Opaque ENTITY_MAX WORD.

Lemma incr_small x : x < ENTITY_MAX → incr x = x + 1.
Proof.
  intros Hx. unfold incr. apply N.mod_small.
  pose proof ENTITY_MAX_lt_WORD. lia.
Qed.

Lemma decr_pos x : 0 < x → x < WORD → decr x = x - 1.
Proof.
  intros H0 Hx. unfold decr.
  replace (x + WORD - 1) with (x - 1 + 1 * WORD) by lia.
  rewrite N.Div0.mod_add. apply N.mod_small. lia.
Qed.

Lemma decr_zero : decr 0 = WORD - 1.
Proof. reflexivity. Qed.

(** ** Lists of handles *)

Lemma handles_NoDup : NoDup handles.
Proof.
  unfold handles. apply NoDup_fmap_2; [apply _ | apply NoDup_seq].
Qed.

Lemma elem_of_handles e : e ∈ handles ↔ e < ENTITY_MAX.
Proof.
  unfold handles. rewrite list_elem_of_fmap. split.
  - intros (n & -> & Hn). apply elem_of_seq in Hn. lia.
  - intros He. exists (N.to_nat e). split; [lia |].
    apply elem_of_seq. lia.
Qed.

Lemma length_handles : length handles = N.to_nat ENTITY_MAX.
Proof. unfold handles. by rewrite length_fmap, length_seq. Qed.

Lemma length_filter_split {A : Type} (P : A → Prop)
    `{∀ x, Decision (P x)} (l : list A) :
  (length (filter P l) + length (filter (λ x, ¬ P x) l) = length l)%nat.
Proof.
  induction l as [| x l IH]; [done |].
  rewrite !filter_cons. destruct (decide (P x)), (decide (¬ P x));
    simpl; first [lia | contradiction].
Qed.

Lemma filter_agree {A : Type} (P Q : A → Prop)
    `{∀ x, Decision (P x)} `{∀ x, Decision (Q x)} (l : list A) :
  (∀ x, x ∈ l → (P x ↔ Q x)) → filter P l = filter Q l.
Proof.
  induction l as [| x l IH]; intros Hpq; [done |].
  rewrite !filter_cons, IH by (intros; apply Hpq; by right).
  pose proof (Hpq x ltac:(by left)).
  destruct (decide (P x)), (decide (Q x)); tauto || done.
Qed.

Lemma length_filter_outside {A : Type} `{EqDecision A} (q l : list A) :
  NoDup l → NoDup q → (∀ x, x ∈ q → x ∈ l) →
  (length (filter (λ x, x ∉ q) l) + length q = length l)%nat.
Proof.
  intros Hl Hq Hsub.
  pose proof (length_filter_split (λ x, x ∈ q) l) as Hsplit.
  assert (filter (λ x, x ∈ q) l ≡ₚ q) as Hperm.
  { apply NoDup_Permutation; [by apply NoDup_filter | done |].
    intros x. rewrite list_elem_of_filter. split; [by intros [? _] | auto]. }
  rewrite <- (Permutation_length Hperm). lia.
Qed.

(** ** EntityManager: what each operation computes *)

Lemma create_eq m :
  EntityManager.create m =
    if EntityManager.entitiesLiving_ m <? ENTITY_MAX then
      match EntityManager.entitiesAvailable_ m with
      | [] => (Fail UndefinedBehaviour, m)
      | entity :: rest =>
          (Done entity,
           EntityManager.mk rest (incr (EntityManager.entitiesLiving_ m))
                            (EntityManager.signatures_ m))
      end
    else (Fail CapacityExceeded, m).
Proof.
  unfold EntityManager.create, bind, gets, assert. simpl.
  destruct (_ <? _); [| done].
  by destruct (EntityManager.entitiesAvailable_ m).
Qed.

Lemma destroy_eq e m :
  EntityManager.destroy e m =
    if e <? ENTITY_MAX then
      (Done tt,
       EntityManager.mk (EntityManager.entitiesAvailable_ m ++ [e])
                        (decr (EntityManager.entitiesLiving_ m))
                        (<[N.to_nat e := Bitset.zero]>
                           (EntityManager.signatures_ m)))
    else (Fail InvalidEntity, m).
Proof.
  unfold EntityManager.destroy, bind, assert, modify.
  by destruct (_ <? _).
Qed.

Lemma signature_eq e m :
  EntityManager.signature e m =
    if e <? ENTITY_MAX then
      match EntityManager.signatures_ m !! N.to_nat e with
      | Some sig => (Done sig, m)
      | None => (Fail UndefinedBehaviour, m)
      end
    else (Fail InvalidEntity, m).
Proof.
  unfold EntityManager.signature, bind, assert, gets. simpl.
  destruct (_ <? _); [| done].
  by destruct (_ !! _).
Qed.

Lemma signature_set_eq e sig m :
  EntityManager.signature_set e sig m =
    if e <? ENTITY_MAX then
      (Done tt,
       EntityManager.mk (EntityManager.entitiesAvailable_ m)
                        (EntityManager.entitiesLiving_ m)
                        (<[N.to_nat e := sig]> (EntityManager.signatures_ m)))
    else (Fail InvalidEntity, m).
Proof.
  unfold EntityManager.signature_set, bind, assert, modify.
  by destruct (_ <? _).
Qed.

Lemma live_spec m e :
  live m e = true
  ↔ e < ENTITY_MAX ∧ e ∉ EntityManager.entitiesAvailable_ m.
Proof.
  unfold live. rewrite andb_true_iff, N.ltb_lt.
  by rewrite bool_decide_eq_true.
Qed.

Lemma live_false m e :
  live m e = false
  ↔ ENTITY_MAX <= e ∨ e ∈ EntityManager.entitiesAvailable_ m.
Proof.
  rewrite <- not_true_iff_false, live_spec. split.
  - intros Hn. destruct (decide (e < ENTITY_MAX)); [| lia].
    right. destruct (decide (e ∈ EntityManager.entitiesAvailable_ m));
      [done | naive_solver].
  - intros [? | ?] [? ?]; [lia | done].
Qed.

Lemma inv_new : AllocatorInv.inv EntityManager.new.
Proof.
  split; unfold EntityManager.new; cbn [EntityManager.entitiesAvailable_
    EntityManager.entitiesLiving_ EntityManager.signatures_];
    fold handles.
  - apply handles_NoDup.
  - intros e. apply elem_of_handles.
  - rewrite length_handles. lia.
  - apply length_replicate.
  - intros e He. apply elem_of_handles in He.
    apply lookup_replicate_2. lia.
Qed.

Lemma inv_create m e m' :
  AllocatorInv.inv m → EntityManager.create m = (Done e, m') →
  AllocatorInv.inv m'
  ∧ EntityManager.entitiesAvailable_ m = e :: EntityManager.entitiesAvailable_ m'
  ∧ EntityManager.entitiesLiving_ m' = EntityManager.entitiesLiving_ m + 1
  ∧ EntityManager.signatures_ m' = EntityManager.signatures_ m.
Proof.
  intros [Hnd Hrg Hct Har Hrs]. rewrite create_eq.
  destruct (_ <? _) eqn:Hlt; [| done]. apply N.ltb_lt in Hlt.
  destruct (EntityManager.entitiesAvailable_ m) as [| x rest] eqn:Hq; [done |].
  intros [= -> <-]. simpl. rewrite incr_small by done.
  split_and!; try done.
  apply NoDup_cons in Hnd as [Hx Hnd].
  split; simpl; try done.
  - intros y Hy. apply Hrg. by right.
  - simpl in Hct. lia.
  - intros y Hy. apply Hrs. by right.
Qed.

Lemma inv_destroy m e :
  AllocatorInv.inv m → live m e = true →
  AllocatorInv.inv (EntityManager.destroy e m).2
  ∧ (EntityManager.destroy e m).1 = Done tt.
Proof.
  intros [Hnd Hrg Hct Har Hrs] [He Hq]%live_spec. rewrite destroy_eq.
  apply N.ltb_lt in He as He'. rewrite He'. simpl. split; [| done].
  assert (0 < EntityManager.entitiesLiving_ m) as Hpos.
  { pose proof (length_filter_outside
      (EntityManager.entitiesAvailable_ m) handles handles_NoDup Hnd) as Hlen.
    rewrite length_handles in Hlen.
    assert (e ∈ filter (λ x, x ∉ EntityManager.entitiesAvailable_ m) handles)
      as Hin by (apply list_elem_of_filter; split;
                 [done | by apply elem_of_handles]).
    destruct (filter _ handles); [by apply elem_of_nil in Hin |].
    simpl in Hlen. specialize (Hlen ltac:(intros; by apply elem_of_handles, Hrg)).
    lia. }
  split; simpl.
  - apply NoDup_app. split_and!; [done | | apply NoDup_singleton].
    intros x Hx ->%list_elem_of_singleton. done.
  - intros x [Hx | ->%list_elem_of_singleton]%elem_of_app; auto.
  - rewrite length_app. simpl.
    rewrite decr_pos; [lia | done |].
    pose proof ENTITY_MAX_lt_WORD. lia.
  - by rewrite length_insert.
  - intros x Hx. destruct (decide (x = e)) as [-> | Hne].
    + apply list_lookup_insert_eq. lia.
    + rewrite list_lookup_insert_ne by lia.
      apply elem_of_app in Hx as [Hx | ->%list_elem_of_singleton]; auto.
      done.
Qed.

Lemma inv_signature_set m e sig :
  AllocatorInv.inv m → live m e = true →
  AllocatorInv.inv (EntityManager.signature_set e sig m).2
  ∧ (EntityManager.signature_set e sig m).1 = Done tt.
Proof.
  intros [Hnd Hrg Hct Har Hrs] [He Hq]%live_spec. rewrite signature_set_eq.
  apply N.ltb_lt in He as He'. rewrite He'. simpl. split; [| done].
  split; simpl; try done.
  - by rewrite length_insert.
  - intros x Hx. rewrite list_lookup_insert_ne; [by apply Hrs |].
    intros Heq. apply N2Nat.inj in Heq. by subst.
Qed.

Lemma run_inv cs m m' :
  AllocatorInv.inv m → Allocator.run cs m = Some m' → AllocatorInv.inv m'.
Proof.
  revert m. induction cs as [| c cs IH]; intros m Hinv; simpl.
  { by intros [= <-]. }
  destruct (Allocator.admissible c m) eqn:Hadm; [| done].
  destruct (Allocator.call c m) as [[[] | err] m1] eqn:Hcall; [| done].
  apply IH. destruct c as [| e | e sig]; simpl in *.
  - unfold bind, ret in Hcall.
    destruct (EntityManager.create m) as [[e |] m2] eqn:Hc; [| done].
    injection Hcall as <-. by eapply inv_create.
  - pose proof (inv_destroy m e Hinv Hadm) as [Hi _].
    by rewrite Hcall in Hi.
  - pose proof (inv_signature_set m e sig Hinv Hadm) as [Hi _].
    by rewrite Hcall in Hi.
Qed.

Lemma length_living m :
  AllocatorInv.inv m →
  N.of_nat (length (living m)) = EntityManager.entitiesLiving_ m.
Proof.
  intros [Hnd Hrg Hct Har Hrs].
  pose proof (length_filter_outside
    (EntityManager.entitiesAvailable_ m) handles handles_NoDup Hnd) as Hlen.
  rewrite length_handles in Hlen.
  assert (living m
          = filter (λ x, x ∉ EntityManager.entitiesAvailable_ m) handles)
    as ->.
  { unfold living. apply filter_agree. intros x Hx%elem_of_handles.
    rewrite live_spec. tauto. }
  specialize (Hlen ltac:(intros; by apply elem_of_handles, Hrg)). lia.
Qed.

Lemma create_n_prefix l rest m :
  EntityManager.entitiesAvailable_ m = l ++ rest →
  EntityManager.entitiesLiving_ m + N.of_nat (length l) <= ENTITY_MAX →
  Allocator.create_n (length l) m
  = (Done l,
     EntityManager.mk rest
       (EntityManager.entitiesLiving_ m + N.of_nat (length l))
       (EntityManager.signatures_ m)).
Proof.
  revert m. induction l as [| x l IH]; intros m Hq Hle.
  - destruct m as [q n sg]. simpl in *. subst.
    unfold ret. by rewrite N.add_0_r.
  - cbn [length Allocator.create_n]. unfold bind at 1.
    rewrite create_eq, Hq. cbn [app].
    assert ((EntityManager.entitiesLiving_ m <? ENTITY_MAX) = true) as ->.
    { apply N.ltb_lt. cbn [length] in Hle. lia. }
    rewrite incr_small by (cbn [length] in Hle; lia).
    unfold bind. rewrite IH; cbn [EntityManager.entitiesAvailable_
      EntityManager.entitiesLiving_ EntityManager.signatures_ length];
      [| done | cbn [length] in Hle; lia].
    unfold ret.
    by replace (EntityManager.entitiesLiving_ m + 1 + N.of_nat (length l))
      with (EntityManager.entitiesLiving_ m + N.of_nat (S (length l)))
      by lia.
Qed.

(** ** Claims on the entity allocator *)

(** C5, as the code has it: [destroy] checks the range of the handle and
    nothing else.  It fails with [InvalidEntity], leaving the allocator as
    it was, exactly when the handle is not below [ENTITY_MAX]; for every
    handle in range, live or not, it succeeds, resets the handle's
    signature, appends the handle to the queue of available handles and
    decrements the counter of living entities. *)
Theorem destroy_checks_range_only (e : Entity) (m : EntityManager.t) :
  failure (EntityManager.destroy e m)
  = (if e <? ENTITY_MAX then None else Some InvalidEntity)
  ∧ (EntityManager.destroy e m).2
    = (if e <? ENTITY_MAX then
         EntityManager.mk
           (EntityManager.entitiesAvailable_ m ++ [e])
           (decr (EntityManager.entitiesLiving_ m))
           (<[N.to_nat e := Bitset.zero]> (EntityManager.signatures_ m))
       else m).
Proof.
  rewrite destroy_eq. by destruct (e <? ENTITY_MAX).
Qed.

(** C5 fails as stated: after [create] returned handle 0 and [destroy 0]
    released it, handle 0 is not live, yet a second [destroy 0] succeeds and
    changes the allocator: 0 is queued twice and the counter of living
    entities wraps around to [2^64 - 1]. *)
Lemma destroy_twice_is_not_an_error :
  ∃ m m',
    Allocator.run [Allocator.Create; Allocator.Destroy 0] EntityManager.new
    = Some m
    ∧ live m 0 = false
    ∧ EntityManager.destroy 0 m = (Done tt, m')
    ∧ EntityManager.entitiesLiving_ m = 0
    ∧ EntityManager.entitiesLiving_ m' = 2 ^ 64 - 1
    ∧ filter (λ e, e = 0) (EntityManager.entitiesAvailable_ m') = [0; 0]
    ∧ m' ≠ m.
Proof.
  eexists. eexists.
  split; [vm_compute; reflexivity |].
  split; [vm_compute; reflexivity |].
  split; [vm_compute; reflexivity |].
  split; [vm_compute; reflexivity |].
  split; [vm_compute; reflexivity |].
  split; [vm_compute; reflexivity |].
  intros Heq. apply (f_equal EntityManager.entitiesLiving_) in Heq.
  vm_compute in Heq. discriminate.
Qed.

(** C8: after any sequence of admissible [create] / [destroy] /
    signature-write calls on a fresh allocator, the number of live handles is
    the counter of living entities and is at most [ENTITY_MAX]; [create]
    fails with [CapacityExceeded] exactly when the counter equals
    [ENTITY_MAX]; and destroying any live handle, whatever signature it
    carries, and then creating yields a handle whose signature is empty. *)
Theorem recycling (cs : list Allocator.Call) (m : EntityManager.t) :
  Allocator.run cs EntityManager.new = Some m →
  N.of_nat (length (living m)) = EntityManager.entitiesLiving_ m
  ∧ EntityManager.entitiesLiving_ m <= ENTITY_MAX
  ∧ failure (EntityManager.create m)
    = (if EntityManager.entitiesLiving_ m =? ENTITY_MAX
       then Some CapacityExceeded else None)
  ∧ ∀ e, live m e = true →
      ∃ e' m2,
        EntityManager.create (EntityManager.destroy e m).2 = (Done e', m2)
        ∧ EntityManager.signature e' m2 = (Done Bitset.zero, m2).
Proof.
  intros Hrun. pose proof (run_inv _ _ _ inv_new Hrun) as Hinv.
  split; [by apply length_living |].
  pose proof Hinv as [Hnd Hrg Hct Har Hrs].
  split; [lia |]. split.
  - rewrite create_eq. unfold failure.
    destruct (N.eqb_spec (EntityManager.entitiesLiving_ m) ENTITY_MAX)
      as [Heq | Hne].
    + rewrite Heq, N.ltb_irrefl. done.
    + assert ((EntityManager.entitiesLiving_ m <? ENTITY_MAX) = true) as ->
        by (apply N.ltb_lt; lia).
      destruct (EntityManager.entitiesAvailable_ m); [simpl in Hct; lia | done].
  - intros e He.
    pose proof (inv_destroy m e Hinv He) as [Hinv1 _].
    destruct (EntityManager.destroy e m) as [o m1] eqn:Hd. simpl in *.
    assert (EntityManager.entitiesAvailable_ m1
            = EntityManager.entitiesAvailable_ m ++ [e]
            ∧ EntityManager.entitiesLiving_ m1
              = decr (EntityManager.entitiesLiving_ m)) as [Hq1 Hl1].
    { rewrite destroy_eq in Hd. apply live_spec in He as [He _].
      apply N.ltb_lt in He. rewrite He in Hd. by injection Hd as <- <-. }
    pose proof Hinv1 as [Hnd1 Hrg1 Hct1 Har1 Hrs1].
    destruct (EntityManager.create m1) as [[e' | err] m2] eqn:Hc.
    + exists e', m2. split; [done |].
      pose proof (inv_create _ _ _ Hinv1 Hc) as (_ & Hq & _ & Hsg).
      rewrite signature_eq, Hsg.
      assert (e' ∈ EntityManager.entitiesAvailable_ m1) as Hin
        by (rewrite Hq; by left).
      apply Hrg1 in Hin as Hlt. apply N.ltb_lt in Hlt. rewrite Hlt.
      by rewrite (Hrs1 _ Hin).
    + exfalso. rewrite create_eq in Hc.
      rewrite Hq1, length_app in Hct1. simpl in Hct1.
      assert ((EntityManager.entitiesLiving_ m1 <? ENTITY_MAX) = true) as Hlt
        by (apply N.ltb_lt; lia).
      rewrite Hlt, Hq1 in Hc.
      by destruct (EntityManager.entitiesAvailable_ m).
Qed.

(** C9: handles are issued first in, first out.  The first [k] calls of
    [create] on a fresh allocator return [0, 1, ..., k-1] in this order;
    [destroy] appends the handle to the back of the queue of available
    handles, and the following calls of [create] first return, in their
    order, the handles that were available when it was destroyed, and only
    then the destroyed handle. *)
Theorem fifo_issuance (k : nat) (cs : list Allocator.Call)
    (m : EntityManager.t) (e : Entity) :
  (k ≤ N.to_nat ENTITY_MAX)%nat →
  Allocator.run cs EntityManager.new = Some m →
  live m e = true →
  result (Allocator.create_n k EntityManager.new)
  = Some (N.of_nat <$> seq 0 k)
  ∧ EntityManager.entitiesAvailable_ (EntityManager.destroy e m).2
    = EntityManager.entitiesAvailable_ m ++ [e]
  ∧ result (Allocator.create_n
              (S (length (EntityManager.entitiesAvailable_ m)))
              (EntityManager.destroy e m).2)
    = Some (EntityManager.entitiesAvailable_ m ++ [e]).
Proof.
  intros Hk Hrun He. split; [| split].
  - pose proof (create_n_prefix (N.of_nat <$> seq 0 k)
      (N.of_nat <$> seq k (N.to_nat ENTITY_MAX - k)) EntityManager.new)
      as Hpre.
    rewrite length_fmap, length_seq in Hpre. rewrite Hpre; [done | |].
    + unfold EntityManager.new.
      cbn [EntityManager.entitiesAvailable_].
      rewrite <- fmap_app, <- seq_app. do 2 f_equal. lia.
    + unfold EntityManager.new. cbn [EntityManager.entitiesLiving_]. lia.
  - rewrite destroy_eq. apply live_spec in He as [He _].
    apply N.ltb_lt in He. by rewrite He.
  - pose proof (run_inv _ _ _ inv_new Hrun) as Hinv.
    pose proof (inv_destroy m e Hinv He) as [[_ _ Hct1 _ _] _].
    assert (EntityManager.entitiesAvailable_ (EntityManager.destroy e m).2
            = EntityManager.entitiesAvailable_ m ++ [e]) as Hq1.
    { rewrite destroy_eq. apply live_spec in He as [He _].
      apply N.ltb_lt in He. by rewrite He. }
    pose proof (create_n_prefix (EntityManager.entitiesAvailable_ m ++ [e])
      [] (EntityManager.destroy e m).2) as Hpre.
    rewrite length_app in Hpre. cbn [length] in Hpre.
    replace (length (EntityManager.entitiesAvailable_ m) + 1)%nat
      with (S (length (EntityManager.entitiesAvailable_ m))) in Hpre by lia.
    rewrite Hpre; [done | by rewrite app_nil_r |].
    rewrite Hq1, length_app in Hct1. cbn [length] in Hct1. lia.
Qed.

(** *** The signatures under arbitrary calls *)

Lemma exec_app cs1 cs2 m :
  Allocator.exec (cs1 ++ cs2) m
  = match Allocator.exec cs1 m with
    | Some m1 => Allocator.exec cs2 m1
    | None => None
    end.
Proof.
  revert m. induction cs1 as [| c cs1 IH]; intros m; [done |].
  cbn [app Allocator.exec].
  destruct (Allocator.call c m) as [[[] | err] m1]; [apply IH | done].
Qed.

(** A call that succeeds keeps the length of the signature array, and keeps
    an empty signature empty unless it writes to that handle. *)
Lemma call_signatures c m m' :
  Allocator.call c m = (Done tt, m') →
  length (EntityManager.signatures_ m')
  = length (EntityManager.signatures_ m)
  ∧ ∀ e, Allocator.writes e c = false →
      EntityManager.signatures_ m !! N.to_nat e = Some Bitset.zero →
      EntityManager.signatures_ m' !! N.to_nat e = Some Bitset.zero.
Proof.
  destruct c as [| e' | e' sg]; cbn [Allocator.call Allocator.writes].
  - unfold bind, ret. rewrite create_eq.
    destruct (_ <? ENTITY_MAX); [| done].
    destruct (EntityManager.entitiesAvailable_ m); [done |].
    by intros [= <-].
  - rewrite destroy_eq. destruct (e' <? ENTITY_MAX); [| done].
    intros [= <-]. cbn [EntityManager.signatures_].
    split; [apply length_insert |]. intros e _ Hzero.
    destruct (decide (e' = e)) as [-> | Hne].
    + apply list_lookup_insert_eq. by eapply lookup_lt_Some.
    + rewrite list_lookup_insert_ne; [done |].
      intros Heq. apply Hne. by apply N2Nat.inj.
  - rewrite signature_set_eq. destruct (e' <? ENTITY_MAX); [| done].
    intros [= <-]. cbn [EntityManager.signatures_].
    split; [apply length_insert |]. intros e Hw%N.eqb_neq Hzero.
    rewrite list_lookup_insert_ne; [done |].
    intros Heq. apply Hw. by apply N2Nat.inj.
Qed.

Lemma exec_signatures cs m m' :
  Allocator.exec cs m = Some m' →
  length (EntityManager.signatures_ m')
  = length (EntityManager.signatures_ m)
  ∧ ∀ e, Forall (λ c, Allocator.writes e c = false) cs →
      EntityManager.signatures_ m !! N.to_nat e = Some Bitset.zero →
      EntityManager.signatures_ m' !! N.to_nat e = Some Bitset.zero.
Proof.
  revert m. induction cs as [| c cs IH]; intros m; cbn [Allocator.exec].
  { by intros [= <-]. }
  destruct (Allocator.call c m) as [[[] | err] m1] eqn:Hcall; [| done].
  intros Hrest. destruct (call_signatures _ _ _ Hcall) as [Hlen1 Hzero1].
  destruct (IH _ Hrest) as [Hlen Hzero].
  split; [by rewrite Hlen |].
  intros e [Hc Hcs]%Forall_cons Hz. apply Hzero; [done |]. by apply Hzero1.
Qed.

(** C10, as the code has it: both signature accessors check the range of
    the handle and nothing else.  After any sequence of calls that succeed,
    with no condition on the liveness of their handles, the signature read
    fails with [InvalidEntity] exactly for the handles out of range and
    never changes the allocator; and for a handle that has been destroyed,
    or that no call has destroyed or written at all, and to which no
    signature has been written since, it returns the empty signature.  The
    handle may be live or not, and a write is accepted for a handle that is
    not live. *)
Theorem signature_checks_range_only (cs1 cs2 : list Allocator.Call)
    (m : EntityManager.t) (e : Entity) :
  Allocator.exec (cs1 ++ cs2) EntityManager.new = Some m →
  cs1 = [] ∨ last cs1 = Some (Allocator.Destroy e) →
  Forall (λ c, Allocator.writes e c = false) cs2 →
  EntityManager.signature e m
  = (if e <? ENTITY_MAX then (Done Bitset.zero, m)
     else (Fail InvalidEntity, m))
  ∧ ∀ x,
      failure (EntityManager.signature x m)
      = (if x <? ENTITY_MAX then None else Some InvalidEntity)
      ∧ (EntityManager.signature x m).2 = m.
Proof.
  intros Hexec Hcs1 Hquiet.
  destruct (exec_signatures _ _ _ Hexec) as [Hlen _].
  change (length (EntityManager.signatures_ EntityManager.new))
    with (length (replicate (N.to_nat ENTITY_MAX) Bitset.zero)) in Hlen.
  rewrite length_replicate in Hlen.
  split.
  - rewrite signature_eq.
    destruct (e <? ENTITY_MAX) eqn:He; [| done]. apply N.ltb_lt in He.
    rewrite exec_app in Hexec.
    destruct (Allocator.exec cs1 EntityManager.new) as [m1 |] eqn:H1;
      [| done].
    destruct (exec_signatures _ _ _ Hexec) as [_ Hzero].
    rewrite (Hzero e Hquiet); [done |].
    destruct Hcs1 as [-> | [cs0 ->]%last_Some].
    + injection H1 as <-.
      change (EntityManager.signatures_ EntityManager.new)
        with (replicate (N.to_nat ENTITY_MAX) Bitset.zero).
      apply lookup_replicate_2. lia.
    + rewrite exec_app in H1.
      destruct (Allocator.exec cs0 EntityManager.new) as [m0 |] eqn:H0;
        [| done].
      destruct (exec_signatures _ _ _ H0) as [Hlen0 _].
      change (length (EntityManager.signatures_ EntityManager.new))
        with (length (replicate (N.to_nat ENTITY_MAX) Bitset.zero)) in Hlen0.
      rewrite length_replicate in Hlen0.
      cbn [Allocator.exec Allocator.call] in H1. rewrite destroy_eq in H1.
      apply N.ltb_lt in He as He'. rewrite He' in H1. injection H1 as <-.
      cbn [EntityManager.signatures_].
      apply list_lookup_insert_eq. lia.
  - intros x. rewrite signature_eq.
    destruct (x <? ENTITY_MAX) eqn:Hx; [| done]. apply N.ltb_lt in Hx.
    destruct (lookup_lt_is_Some_2 (EntityManager.signatures_ m)
                (N.to_nat x) ltac:(lia)) as [sg ->].
    done.
Qed.

(** C10 fails as stated: the signature write accepts a handle that is not
    live.  After [create], [destroy 0] and a write of signature 5 for handle
    0, handle 0 is in range, destroyed and not created again, and reads 5;
    on a fresh allocator a write for handle 3, which was never created,
    succeeds and handle 3 reads 5. *)
Lemma dead_handle_reads_written_signature :
  ∃ m m3,
    Allocator.exec [Allocator.Create; Allocator.Destroy 0;
                    Allocator.SetSignature 0 5] EntityManager.new = Some m
    ∧ 0 < ENTITY_MAX
    ∧ live m 0 = false
    ∧ EntityManager.signature 0 m = (Done 5, m)
    ∧ Allocator.exec [Allocator.SetSignature 3 5] EntityManager.new
      = Some m3
    ∧ live m3 3 = false
    ∧ EntityManager.signature 3 m3 = (Done 5, m3)
    ∧ 5 ≠ Bitset.zero.
Proof.
  exists (default EntityManager.new
            (Allocator.exec [Allocator.Create; Allocator.Destroy 0;
                             Allocator.SetSignature 0 5] EntityManager.new)).
  exists (default EntityManager.new
            (Allocator.exec [Allocator.SetSignature 3 5] EntityManager.new)).
  split; [vm_compute; reflexivity |].
  split; [reflexivity |].
  split; [vm_compute; reflexivity |].
  split; [vm_compute; reflexivity |].
  split; [vm_compute; reflexivity |].
  split; [vm_compute; reflexivity |].
  split; [vm_compute; reflexivity |].
  vm_compute. discriminate.
Qed.

Lemma recycling_witness :
  ∃ m,
    Allocator.run [Allocator.Create; Allocator.Create;
                   Allocator.SetSignature 0 5; Allocator.Destroy 0]
                  EntityManager.new = Some m
    ∧ N.of_nat (length (living m)) = EntityManager.entitiesLiving_ m
    ∧ EntityManager.entitiesLiving_ m <= ENTITY_MAX
    ∧ failure (EntityManager.create m)
      = (if EntityManager.entitiesLiving_ m =? ENTITY_MAX
         then Some CapacityExceeded else None)
    ∧ ∀ e, live m e = true →
        ∃ e' m2,
          EntityManager.create (EntityManager.destroy e m).2 = (Done e', m2)
          ∧ EntityManager.signature e' m2 = (Done Bitset.zero, m2).
Proof.
  eexists. split; [vm_compute; reflexivity |].
  apply (recycling [Allocator.Create; Allocator.Create;
                    Allocator.SetSignature 0 5; Allocator.Destroy 0]).
  vm_compute. reflexivity.
Defined.

Lemma fifo_issuance_witness :
  ∃ m,
    (3 ≤ N.to_nat ENTITY_MAX)%nat
    ∧ Allocator.run [Allocator.Create; Allocator.Create] EntityManager.new
      = Some m
    ∧ live m 1 = true
    ∧ result (Allocator.create_n 3 EntityManager.new)
      = Some (N.of_nat <$> seq 0 3)
    ∧ EntityManager.entitiesAvailable_ (EntityManager.destroy 1 m).2
      = EntityManager.entitiesAvailable_ m ++ [1]
    ∧ result (Allocator.create_n
                (S (length (EntityManager.entitiesAvailable_ m)))
                (EntityManager.destroy 1 m).2)
      = Some (EntityManager.entitiesAvailable_ m ++ [1]).
Proof.
  eexists. split; [vm_compute; lia |].
  split; [vm_compute; reflexivity |].
  split; [vm_compute; reflexivity |].
  apply (fifo_issuance 3 [Allocator.Create; Allocator.Create]).
  - vm_compute. lia.
  - vm_compute. reflexivity.
  - vm_compute. reflexivity.
Defined.

Lemma signature_checks_range_only_witness :
  ∃ m,
    Allocator.exec ([Allocator.Create; Allocator.SetSignature 0 5;
                     Allocator.Destroy 0]
                    ++ [Allocator.Create; Allocator.SetSignature 1 7;
                        Allocator.Destroy 2])
                   EntityManager.new = Some m
    ∧ ([Allocator.Create; Allocator.SetSignature 0 5; Allocator.Destroy 0]
       = []
       ∨ last [Allocator.Create; Allocator.SetSignature 0 5;
               Allocator.Destroy 0] = Some (Allocator.Destroy 0))
    ∧ Forall (λ c, Allocator.writes 0 c = false)
             [Allocator.Create; Allocator.SetSignature 1 7;
              Allocator.Destroy 2]
    ∧ EntityManager.signature 0 m
      = (if 0 <? ENTITY_MAX then (Done Bitset.zero, m)
         else (Fail InvalidEntity, m))
    ∧ ∀ x,
        failure (EntityManager.signature x m)
        = (if x <? ENTITY_MAX then None else Some InvalidEntity)
        ∧ (EntityManager.signature x m).2 = m.
Proof.
  exists (default EntityManager.new
            (Allocator.exec
               ([Allocator.Create; Allocator.SetSignature 0 5;
                 Allocator.Destroy 0]
                ++ [Allocator.Create; Allocator.SetSignature 1 7;
                    Allocator.Destroy 2]) EntityManager.new)).
  assert (Forall (λ c, Allocator.writes 0 c = false)
            [Allocator.Create; Allocator.SetSignature 1 7;
             Allocator.Destroy 2]) as Hquiet
    by (repeat (apply Forall_cons; split; [reflexivity |]);
        apply Forall_nil_2).
  split; [vm_compute; reflexivity |].
  split; [right; reflexivity |].
  split; [exact Hquiet |].
  apply (signature_checks_range_only
           [Allocator.Create; Allocator.SetSignature 0 5; Allocator.Destroy 0]
           [Allocator.Create; Allocator.SetSignature 1 7; Allocator.Destroy 2]).
  - vm_compute. reflexivity.
  - right. reflexivity.
  - exact Hquiet.
Defined.

(** ** ComponentContainer: what each operation computes *)

Section ContainerFacts.
Context {T : Type}.
Implicit Types c : ComponentContainer.t T.

Lemma found_true {K V : Type} `{Countable K} (m : gmap K V) (k : K) :
  found m k = true ↔ is_Some (m !! k).
Proof.
  unfold found. destruct (m !! k); split; intros Hx;
    first [done | by eexists | by destruct Hx].
Qed.

Lemma found_false {K V : Type} `{Countable K} (m : gmap K V) (k : K) :
  found m k = false ↔ m !! k = None.
Proof. unfold found. by destruct (m !! k). Qed.

Lemma get_eq e c :
  ComponentContainer.get e c =
    match ComponentContainer.mapEntityToIndex_ c !! e with
    | None => (Fail MissingComponent, c)
    | Some i =>
        match ComponentContainer.components_ c !! N.to_nat i with
        | Some v => (Done v, c)
        | None => (Fail UndefinedBehaviour, c)
        end
    end.
Proof.
  unfold ComponentContainer.get, bind, gets, assert, array_read, found.
  cbn [fst snd].
  destruct (ComponentContainer.mapEntityToIndex_ c !! e) as [i |]; [| done].
  cbn [from_option id]. by destruct (_ !! N.to_nat i).
Qed.

Lemma get_value_of e c :
  result (ComponentContainer.get e c) = Store.value_of c e.
Proof.
  rewrite get_eq. unfold Store.value_of, Store.slot_of, result.
  destruct (_ !! e) as [i |]; [| done].
  by destruct (_ !! N.to_nat i).
Qed.

Lemma insert_eq e v c :
  ComponentContainer.insert e v c =
    let index := ComponentContainer.size_ c in
    let e2i := <[e := index]> (ComponentContainer.mapEntityToIndex_ c) in
    let i2e := <[index := e]> (ComponentContainer.mapIndexToEntity_ c) in
    match ComponentContainer.mapEntityToIndex_ c !! e with
    | Some _ => (Fail DuplicateComponent, c)
    | None =>
        if N.of_nat (length (ComponentContainer.components_ c)) <=? index
        then (Fail UndefinedBehaviour,
              ComponentContainer.mk (ComponentContainer.components_ c)
                                    e2i i2e index)
        else (Done tt,
              ComponentContainer.mk
                (<[N.to_nat index := v]> (ComponentContainer.components_ c))
                e2i i2e (incr index))
    end.
Proof.
  unfold ComponentContainer.insert, bind, gets, assert, modify, array_write,
    found, ret, throw.
  cbn [fst snd].
  destruct (ComponentContainer.mapEntityToIndex_ c !! e); [done |].
  cbn [negb ComponentContainer.set_mapEntityToIndex
       ComponentContainer.set_mapIndexToEntity ComponentContainer.set_size
       ComponentContainer.set_components ComponentContainer.components_
       ComponentContainer.mapEntityToIndex_
       ComponentContainer.mapIndexToEntity_ ComponentContainer.size_].
  by destruct (_ <=? _).
Qed.

Lemma remove_eq e c :
  ComponentContainer.remove e c =
    match ComponentContainer.mapEntityToIndex_ c !! e with
    | None => (Fail MissingComponent, c)
    | Some indexRemoved =>
        let indexLast := decr (ComponentContainer.size_ c) in
        let entityLast :=
          default 0 (ComponentContainer.mapIndexToEntity_ c !! indexLast) in
        match ComponentContainer.components_ c !! N.to_nat indexLast with
        | None => (Fail UndefinedBehaviour, c)
        | Some last =>
            if N.of_nat (length (ComponentContainer.components_ c))
               <=? indexRemoved
            then (Fail UndefinedBehaviour, c)
            else
              (Done tt,
               ComponentContainer.mk
                 (<[N.to_nat indexRemoved := last]>
                    (ComponentContainer.components_ c))
                 (delete e (<[entityLast := indexRemoved]>
                              (ComponentContainer.mapEntityToIndex_ c)))
                 (delete indexLast
                    (<[indexRemoved := entityLast]>
                       (ComponentContainer.mapIndexToEntity_ c)))
                 (decr (ComponentContainer.size_ c)))
        end
    end.
Proof.
  unfold ComponentContainer.remove, bind, gets, assert, modify, array_write,
    array_read, found, ret, throw.
  cbn [fst snd].
  destruct (ComponentContainer.mapEntityToIndex_ c !! e) as [i |]; [| done].
  cbn [from_option id].
  destruct (ComponentContainer.components_ c !! _); [| done].
  by destruct (_ <=? _).
Qed.

Lemma destroyed_eq e c :
  ComponentContainer.destroyed e c =
    match ComponentContainer.mapEntityToIndex_ c !! e with
    | None => (Done tt, c)
    | Some _ => ComponentContainer.remove e c
    end.
Proof.
  unfold ComponentContainer.destroyed, bind, gets, found. cbn [fst snd].
  by destruct (ComponentContainer.mapEntityToIndex_ c !! e).
Qed.

End ContainerFacts.

(** ** ComponentContainer: the invariant is established and kept *)

Section StoreInvariant.
Context {T : Type} `{Inhabited T}.
Implicit Types c : ComponentContainer.t T.

Lemma wf_new : Store.wf (ComponentContainer.new : ComponentContainer.t T).
Proof.
  split; unfold ComponentContainer.new;
    cbn [ComponentContainer.components_ ComponentContainer.size_
         ComponentContainer.mapEntityToIndex_
         ComponentContainer.mapIndexToEntity_].
  - apply length_replicate.
  - lia.
  - intros e i. by rewrite !lookup_empty.
  - intros i. rewrite lookup_empty. split; [by intros [? ?] | lia].
Qed.

Lemma wf_insert c e v :
  Store.wf c →
  ComponentContainer.mapEntityToIndex_ c !! e = None →
  ComponentContainer.size_ c < ENTITY_MAX →
  (ComponentContainer.insert e v c).1 = Done tt
  ∧ Store.wf (ComponentContainer.insert e v c).2.
Proof.
  intros [Har Hsz Hinv Hdn] Hfresh Hroom.
  rewrite insert_eq. cbn zeta. rewrite Hfresh.
  assert ((N.of_nat (length (ComponentContainer.components_ c))
           <=? ComponentContainer.size_ c) = false) as ->
    by (apply N.leb_gt; lia).
  cbn [fst snd]. split; [done |].
  assert (ComponentContainer.mapIndexToEntity_ c
            !! ComponentContainer.size_ c = None) as Hfree.
  { apply eq_None_not_Some. rewrite Hdn. lia. }
  rewrite incr_small by done.
  split; cbn [ComponentContainer.components_ ComponentContainer.size_
              ComponentContainer.mapEntityToIndex_
              ComponentContainer.mapIndexToEntity_].
  - by rewrite length_insert.
  - lia.
  - intros e' i. rewrite !lookup_insert_Some, Hinv. split.
    + intros [[<- <-] | [Hne Hi]]; [by left |].
      right. split; [| done]. intros <-. by rewrite Hfree in Hi.
    + intros [[<- <-] | [Hne Hi]]; [by left |].
      right. split; [| done]. intros <-.
      apply Hinv in Hi. by rewrite Hfresh in Hi.
  - intros i. rewrite lookup_insert_is_Some, Hdn. lia.
Qed.

End StoreInvariant.

(** ** ComponentContainer: swap-remove *)

Section SwapRemove.
Context {T : Type}.
Implicit Types c : ComponentContainer.t T.

(** On a well-formed container [remove] of a mapped entity runs to its end:
    the last slot is occupied, by [eL] say, and its value is copied over the
    slot of the removed entity. *)
Lemma remove_mapped c e i :
  Store.wf c →
  ComponentContainer.mapEntityToIndex_ c !! e = Some i →
  ∃ eL last,
    i < ComponentContainer.size_ c
    ∧ ComponentContainer.mapIndexToEntity_ c
        !! (ComponentContainer.size_ c - 1) = Some eL
    ∧ ComponentContainer.components_ c
        !! N.to_nat (ComponentContainer.size_ c - 1) = Some last
    ∧ ComponentContainer.remove e c
      = (Done tt,
         ComponentContainer.mk
           (<[N.to_nat i := last]> (ComponentContainer.components_ c))
           (delete e (<[eL := i]> (ComponentContainer.mapEntityToIndex_ c)))
           (delete (ComponentContainer.size_ c - 1)
              (<[i := eL]> (ComponentContainer.mapIndexToEntity_ c)))
           (ComponentContainer.size_ c - 1)).
Proof.
  intros [Har Hsz Hinv Hdn] He.
  pose proof ENTITY_MAX_lt_WORD as HW.
  assert (i < ComponentContainer.size_ c) as Hi
    by (apply Hdn; exists e; by apply Hinv).
  assert (decr (ComponentContainer.size_ c) = ComponentContainer.size_ c - 1)
    as Hdecr by (apply decr_pos; lia).
  destruct (proj2 (Hdn (ComponentContainer.size_ c - 1)) ltac:(lia))
    as [eL HeL].
  destruct (lookup_lt_is_Some_2 (ComponentContainer.components_ c)
              (N.to_nat (ComponentContainer.size_ c - 1)) ltac:(lia))
    as [last Hlast].
  exists eL, last. split_and!; try done.
  rewrite remove_eq, He. cbn zeta.
  rewrite Hdecr, Hlast, HeL. cbn [from_option id].
  assert ((N.of_nat (length (ComponentContainer.components_ c)) <=? i)
          = false) as -> by (apply N.leb_gt; lia).
  reflexivity.
Qed.

Lemma wf_injective c e1 e2 j :
  Store.wf c →
  ComponentContainer.mapEntityToIndex_ c !! e1 = Some j →
  ComponentContainer.mapEntityToIndex_ c !! e2 = Some j →
  e1 = e2.
Proof. intros [_ _ Hinv _] H1%Hinv H2%Hinv. congruence. Qed.

(** The container [remove] leaves is well formed again. *)
Lemma wf_swap c e i eL last :
  Store.wf c →
  ComponentContainer.mapEntityToIndex_ c !! e = Some i →
  ComponentContainer.mapIndexToEntity_ c
    !! (ComponentContainer.size_ c - 1) = Some eL →
  Store.wf
    (ComponentContainer.mk
       (<[N.to_nat i := last]> (ComponentContainer.components_ c))
       (delete e (<[eL := i]> (ComponentContainer.mapEntityToIndex_ c)))
       (delete (ComponentContainer.size_ c - 1)
          (<[i := eL]> (ComponentContainer.mapIndexToEntity_ c)))
       (ComponentContainer.size_ c - 1)).
Proof.
  intros Hwf He HeL. pose proof (wf_injective c) as Hinj.
  destruct Hwf as [Har Hsz Hinv Hdn].
  set (n := ComponentContainer.size_ c) in *.
  set (e2i := ComponentContainer.mapEntityToIndex_ c) in *.
  set (i2e := ComponentContainer.mapIndexToEntity_ c) in *.
  assert (Store.wf c) as Hwf by done.
  assert (i < n) as Hi by (apply Hdn; exists e; by apply Hinv).
  apply Hinv in HeL as HeL'.
  split; cbn [ComponentContainer.components_ ComponentContainer.size_
              ComponentContainer.mapEntityToIndex_
              ComponentContainer.mapIndexToEntity_].
  - by rewrite length_insert.
  - lia.
  - intros e' j.
    rewrite !lookup_delete_Some, !lookup_insert_Some. split.
    + intros [Hne [[<- <-] | [HneL Hj]]].
      * split; [| by left]. intros Heq. apply Hne.
        rewrite Heq in HeL'. exact (Hinj _ _ _ Hwf He HeL').
      * split.
        { intros Heq. apply HneL. rewrite Heq in HeL'.
          exact (Hinj _ _ _ Hwf HeL' Hj). }
        right. split; [| by apply Hinv].
        intros Heq. apply Hne. rewrite <- Heq in Hj.
        exact (Hinj _ _ _ Hwf He Hj).
    + intros [Hjn [[<- <-] | [Hji Hj]]].
      * split; [| by left]. intros Heq. apply Hjn.
        rewrite <- Heq in HeL'. congruence.
      * apply Hinv in Hj. split.
        { intros Heq. apply Hji. rewrite <- Heq in Hj. congruence. }
        right. split; [| done].
        intros Heq. apply Hjn. rewrite <- Heq in Hj. congruence.
  - intros j. rewrite lookup_delete_is_Some, lookup_insert_is_Some, Hdn.
    split; [intros [Hjn [-> | [_ Hj]]]; lia |].
    intros Hj. split; [lia |].
    destruct (decide (i = j)); [by left | right; split; [done | lia]].
Qed.

(** Every operation that succeeds keeps the invariant. *)
Lemma wf_remove_done c e c' :
  Store.wf c → ComponentContainer.remove e c = (Done tt, c') → Store.wf c'.
Proof.
  intros Hwf Hrun.
  destruct (ComponentContainer.mapEntityToIndex_ c !! e) as [i |] eqn:He.
  - destruct (remove_mapped c e i Hwf He) as (eL & last & _ & HeL & _ & Heq).
    rewrite Heq in Hrun. injection Hrun as <-. by apply wf_swap.
  - by rewrite remove_eq, He in Hrun.
Qed.

Lemma wf_destroyed_done c e c' :
  Store.wf c → ComponentContainer.destroyed e c = (Done tt, c') → Store.wf c'.
Proof.
  intros Hwf. rewrite destroyed_eq.
  destruct (_ !! e); [by apply wf_remove_done | by intros [= <-]].
Qed.

End SwapRemove.

Lemma wf_insert_done {T : Type} `{Inhabited T}
    (c c' : ComponentContainer.t T) e v :
  Store.wf c → ComponentContainer.insert e v c = (Done tt, c') → Store.wf c'.
Proof.
  intros Hwf Hrun. pose proof Hrun as Hrun'.
  rewrite insert_eq in Hrun'. cbn zeta in Hrun'.
  destruct (ComponentContainer.mapEntityToIndex_ c !! e) eqn:Hfresh; [done |].
  destruct (_ <=? _) eqn:Hroom; [done |]. apply N.leb_gt in Hroom.
  destruct Hwf as [Har Hsz Hinv Hdn].
  assert (Store.wf c) as Hwf by done.
  destruct (wf_insert c e v Hwf Hfresh ltac:(lia)) as [_ Hwf'].
  by rewrite Hrun in Hwf'.
Qed.

(** C6: removing a mapped entity from a well-formed container succeeds and
    leaves a well-formed container (the mapped slots are exactly the indices
    below the new count, the two maps are inverse to each other) with one
    slot less; the removed entity is no longer mapped, every other mapped
    entity still reads the value it had, the entity of the former last slot
    now occupies the vacated slot, and all others keep their slot.  The
    removed entity may itself be the one in the last slot. *)
Theorem swap_remove_keeps_store_dense {T : Type}
    (c : ComponentContainer.t T) (e : Entity) (i : N) :
  Store.wf c →
  ComponentContainer.mapEntityToIndex_ c !! e = Some i →
  ∃ c',
    ComponentContainer.remove e c = (Done tt, c')
    ∧ Store.wf c'
    ∧ ComponentContainer.size_ c' + 1 = ComponentContainer.size_ c
    ∧ ComponentContainer.mapEntityToIndex_ c' !! e = None
    ∧ (∀ e' j, e' ≠ e →
         ComponentContainer.mapEntityToIndex_ c !! e' = Some j →
         ∃ v, result (ComponentContainer.get e' c) = Some v
              ∧ result (ComponentContainer.get e' c') = Some v)
    ∧ (∀ e' j, e' ≠ e →
         ComponentContainer.mapEntityToIndex_ c !! e' = Some j →
         ComponentContainer.mapEntityToIndex_ c' !! e'
         = Some (if j =? ComponentContainer.size_ c - 1 then i else j)).
Proof.
  intros Hwf He.
  destruct (remove_mapped c e i Hwf He) as (eL & last & Hi & HeL & Hlast & Heq).
  pose proof (wf_swap c e i eL last Hwf He HeL) as Hwf'.
  pose proof (wf_injective c) as Hinj.
  destruct Hwf as [Har Hsz Hinv Hdn].
  assert (Store.wf c) as Hwf by done.
  apply Hinv in HeL as HeL'.
  eexists. split; [exact Heq |]. split; [exact Hwf' |].
  cbn [ComponentContainer.components_ ComponentContainer.size_
       ComponentContainer.mapEntityToIndex_
       ComponentContainer.mapIndexToEntity_].
  assert (∀ e' j, e' ≠ e →
            ComponentContainer.mapEntityToIndex_ c !! e' = Some j →
            delete e (<[eL := i]> (ComponentContainer.mapEntityToIndex_ c))
              !! e'
            = Some (if j =? ComponentContainer.size_ c - 1 then i else j))
    as Hslot.
  { intros e' j Hne Hj. rewrite lookup_delete_ne by done.
    destruct (N.eqb_spec j (ComponentContainer.size_ c - 1)) as [Hjn | Hjn].
    - rewrite Hjn in Hj. rewrite (Hinj _ _ _ Hwf Hj HeL').
      apply lookup_insert_eq.
    - rewrite lookup_insert_ne; [done |]. intros <-. congruence. }
  split; [lia |]. split; [apply lookup_delete_eq |].
  split; [| exact Hslot].
  intros e' j Hne Hj.
  specialize (Hslot e' j Hne Hj).
  rewrite !get_value_of. unfold Store.value_of, Store.slot_of.
  cbn [ComponentContainer.components_ ComponentContainer.mapEntityToIndex_].
  rewrite Hj, Hslot.
  assert (j < ComponentContainer.size_ c) as Hjn
    by (apply Hdn; exists e'; by apply Hinv).
  destruct (lookup_lt_is_Some_2 (ComponentContainer.components_ c)
              (N.to_nat j) ltac:(lia)) as [v Hv].
  exists v. split; [done |].
  destruct (N.eqb_spec j (ComponentContainer.size_ c - 1)) as [Heqj | Hjl].
  - rewrite list_lookup_insert_eq by lia. rewrite Heqj in Hv. congruence.
  - rewrite list_lookup_insert_ne; [done |].
    intros Heqj%N2Nat.inj. rewrite Heqj in He.
    apply Hne. exact (Hinj _ _ _ Hwf Hj He).
Qed.

Lemma swap_remove_keeps_store_dense_witness :
  ∃ c : ComponentContainer.t nat,
    c = (ComponentContainer.insert 9 30%nat
           (ComponentContainer.insert 4 20%nat
              (ComponentContainer.insert 7 10%nat
                 ComponentContainer.new).2).2).2
    ∧ Store.wf c
    ∧ ComponentContainer.mapEntityToIndex_ c !! 7 = Some 0
    ∧ ∃ c',
        ComponentContainer.remove 7 c = (Done tt, c')
        ∧ Store.wf c'
        ∧ ComponentContainer.size_ c' + 1 = ComponentContainer.size_ c
        ∧ ComponentContainer.mapEntityToIndex_ c' !! 7 = None
        ∧ (∀ e' j, e' ≠ 7 →
             ComponentContainer.mapEntityToIndex_ c !! e' = Some j →
             ∃ v, result (ComponentContainer.get e' c) = Some v
                  ∧ result (ComponentContainer.get e' c') = Some v)
        ∧ (∀ e' j, e' ≠ 7 →
             ComponentContainer.mapEntityToIndex_ c !! e' = Some j →
             ComponentContainer.mapEntityToIndex_ c' !! e'
             = Some (if j =? ComponentContainer.size_ c - 1 then 0 else j)).
Proof.
  eexists. split; [reflexivity |].
  assert (Store.wf
            (ComponentContainer.insert 9 30%nat
               (ComponentContainer.insert 4 20%nat
                  (ComponentContainer.insert 7 10%nat
                     ComponentContainer.new).2).2).2) as Hwf.
  { apply wf_insert; [| vm_compute; reflexivity | vm_compute; reflexivity].
    apply wf_insert; [| vm_compute; reflexivity | vm_compute; reflexivity].
    apply wf_insert; [| vm_compute; reflexivity | vm_compute; reflexivity].
    apply wf_new. }
  split; [exact Hwf |].
  split; [vm_compute; reflexivity |].
  apply (swap_remove_keeps_store_dense _ 7 0 Hwf).
  vm_compute. reflexivity.
Defined.

Example swap_remove_relocates_last :
  let c := (ComponentContainer.insert 9 30%nat
              (ComponentContainer.insert 4 20%nat
                 (ComponentContainer.insert 7 10%nat
                    ComponentContainer.new).2).2).2 in
  let c' := (ComponentContainer.remove 7 c).2 in
  ComponentContainer.size_ c' = 2
  ∧ result (ComponentContainer.get 9 c') = Some 30%nat
  ∧ result (ComponentContainer.get 4 c') = Some 20%nat
  ∧ ComponentContainer.mapEntityToIndex_ c' !! 9 = Some 0
  ∧ failure (ComponentContainer.get 7 c') = Some MissingComponent.
Proof. vm_compute. repeat split; reflexivity. Qed.

(** ** Sequencing *)

Lemma bind_done {S A B : Type} (m : M S A) (k : A → M S B) s a s' :
  m s = (Done a, s') → bind m k s = k a s'.
Proof. unfold bind. by intros ->. Qed.

Lemma bind_fail {S A B : Type} (m : M S A) (k : A → M S B) s e s' :
  m s = (Fail e, s') → bind m k s = (Fail e, s').
Proof. unfold bind. by intros ->. Qed.

Lemma zoom_eq {S U A : Type} (proj : U → S) (upd : S → U → U)
    (m : M S A) (u : U) :
  zoom proj upd m u = ((m (proj u)).1, upd (m (proj u)).2 u).
Proof. unfold zoom. by destruct (m (proj u)). Qed.

(** ** SystemManager: what each operation computes *)

Lemma elem_of_keys {V : Type} (m : gmap string V) (t : string) :
  t ∈ (map_to_list m).*1 ↔ is_Some (m !! t).
Proof.
  rewrite list_elem_of_fmap. split.
  - intros ([k v] & -> & Hin). apply elem_of_map_to_list in Hin. by eexists.
  - intros [v Hv]. exists (t, v). split; [done |].
    by apply elem_of_map_to_list.
Qed.

Lemma signatureChanged_loop (e : Entity) (sg : Signature)
    (l : list (string * System.t)) (m : SystemManager.t) :
  NoDup l.*1 →
  ∃ m',
    for_each l (λ pair,
      let type := pair.1 in
      let* sigs := gets SystemManager.signatures_ in
      let signatureSystem := default Bitset.zero (sigs !! type) in
      modify (λ m, SystemManager.mk
                     (<[type := signatureSystem]> (SystemManager.signatures_ m))
                     (SystemManager.systems_ m)) >>
      if SystemManager.matches sg signatureSystem
      then SystemManager.on_system type (System.insert e)
      else SystemManager.on_system type (System.erase e)) m
    = (Done tt, m')
    ∧ (∀ t, SystemManager.systems_ m' !! t =
            if decide (t ∈ l.*1) then
              (λ s, if SystemManager.matches sg
                         (default Bitset.zero
                            (SystemManager.signatures_ m !! t))
                    then System.insert e s else System.erase e s)
              <$> SystemManager.systems_ m !! t
            else SystemManager.systems_ m !! t)
    ∧ (∀ t, SystemManager.signatures_ m' !! t =
            if decide (t ∈ l.*1) then
              Some (default Bitset.zero (SystemManager.signatures_ m !! t))
            else SystemManager.signatures_ m !! t).
Proof.
  revert m. induction l as [| [type s] l IH]; intros m Hnd.
  { exists m. split; [done |]. split; intros t; by rewrite decide_False
      by (cbn; apply not_elem_of_nil). }
  cbn [fmap list_fmap fst] in Hnd. apply NoDup_cons in Hnd as [Hfresh Hnd].
  set (d := default Bitset.zero (SystemManager.signatures_ m !! type)).
  set (op := if SystemManager.matches sg d
             then System.insert e else System.erase e).
  set (m1 := SystemManager.mk
               (<[type := d]> (SystemManager.signatures_ m))
               (alter op type (SystemManager.systems_ m))).
  cbn [for_each]. rewrite (bind_done _ _ m tt m1).
  2:{ unfold bind, gets, modify, SystemManager.on_system. cbn [fst snd].
      fold d. subst m1 op. by destruct (SystemManager.matches sg d). }
  destruct (IH m1 Hnd) as (m' & Hrun & Hsys & Hsig).
  exists m'. split; [exact Hrun |]. split; intros t.
  - rewrite Hsys. cbn [fmap list_fmap fst]. subst m1.
    cbn [SystemManager.systems_ SystemManager.signatures_].
    destruct (decide (t = type)) as [-> | Hne].
    + rewrite decide_False by done. rewrite decide_True by (by left).
      rewrite lookup_alter_eq. unfold op, d.
      by destruct (SystemManager.matches _ _).
    + rewrite lookup_alter_ne by done. rewrite lookup_insert_ne by done.
      destruct (decide (t ∈ l.*1)).
      * rewrite decide_True by (by right). done.
      * rewrite decide_False; [done |].
        by intros [? | ?]%elem_of_cons.
  - rewrite Hsig. cbn [fmap list_fmap fst]. subst m1.
    cbn [SystemManager.systems_ SystemManager.signatures_].
    destruct (decide (t = type)) as [-> | Hne].
    + rewrite decide_False by done. rewrite decide_True by (by left).
      by rewrite lookup_insert_eq.
    + rewrite lookup_insert_ne by done.
      destruct (decide (t ∈ l.*1)).
      * rewrite decide_True by (by right). done.
      * rewrite decide_False; [done |].
        by intros [? | ?]%elem_of_cons.
Qed.

Lemma signatureChanged_spec (e : Entity) (sg : Signature)
    (m : SystemManager.t) :
  ∃ m',
    SystemManager.signatureChanged e sg m = (Done tt, m')
    ∧ (∀ t, SystemManager.systems_ m' !! t =
            (λ s, if SystemManager.matches sg
                       (default Bitset.zero
                          (SystemManager.signatures_ m !! t))
                  then System.insert e s else System.erase e s)
            <$> SystemManager.systems_ m !! t)
    ∧ (∀ t, SystemManager.signatures_ m' !! t =
            if found (SystemManager.systems_ m) t then
              Some (default Bitset.zero (SystemManager.signatures_ m !! t))
            else SystemManager.signatures_ m !! t).
Proof.
  destruct (signatureChanged_loop e sg
              (map_to_list (SystemManager.systems_ m)) m
              (NoDup_fst_map_to_list _)) as (m' & Hrun & Hsys & Hsig).
  exists m'. split; [exact Hrun |]. split; intros t.
  - rewrite Hsys. destruct (decide _) as [| Hout]; [done |].
    rewrite elem_of_keys in Hout.
    destruct (SystemManager.systems_ m !! t); [| done].
    exfalso. apply Hout. by eexists.
  - rewrite Hsig. destruct (decide _) as [Hin | Hout].
    + apply elem_of_keys, found_true in Hin. by rewrite Hin.
    + rewrite elem_of_keys, <- found_true in Hout.
      by destruct (found (SystemManager.systems_ m) t).
Qed.

Lemma entityDestroyed_loop (e : Entity) (l : list (string * System.t))
    (m : SystemManager.t) :
  NoDup l.*1 →
  ∃ m',
    for_each l (λ pair,
      SystemManager.on_system pair.1 (System.erase e)) m = (Done tt, m')
    ∧ SystemManager.signatures_ m' = SystemManager.signatures_ m
    ∧ (∀ t, SystemManager.systems_ m' !! t =
            if decide (t ∈ l.*1)
            then System.erase e <$> SystemManager.systems_ m !! t
            else SystemManager.systems_ m !! t).
Proof.
  revert m. induction l as [| [type s] l IH]; intros m Hnd.
  { exists m. split; [done |]. split; [done |]. intros t.
    by rewrite decide_False by (cbn; apply not_elem_of_nil). }
  cbn [fmap list_fmap fst] in Hnd. apply NoDup_cons in Hnd as [Hfresh Hnd].
  set (m1 := SystemManager.mk (SystemManager.signatures_ m)
               (alter (System.erase e) type (SystemManager.systems_ m))).
  cbn [for_each]. rewrite (bind_done _ _ m tt m1) by done.
  destruct (IH m1 Hnd) as (m' & Hrun & Hsig & Hsys).
  exists m'. split; [exact Hrun |]. split; [exact Hsig |]. intros t.
  rewrite Hsys. subst m1. cbn [fmap list_fmap fst SystemManager.systems_].
  destruct (decide (t = type)) as [-> | Hne].
  - rewrite decide_False by done. rewrite decide_True by (by left).
    by rewrite lookup_alter_eq.
  - rewrite lookup_alter_ne by done.
    destruct (decide (t ∈ l.*1)).
    + by rewrite decide_True by (by right).
    + rewrite decide_False; [done |]. by intros [? | ?]%elem_of_cons.
Qed.

Lemma entityDestroyed_spec (e : Entity) (m : SystemManager.t) :
  ∃ m',
    SystemManager.entityDestroyed e m = (Done tt, m')
    ∧ SystemManager.signatures_ m' = SystemManager.signatures_ m
    ∧ (∀ t, SystemManager.systems_ m' !! t
            = System.erase e <$> SystemManager.systems_ m !! t).
Proof.
  destruct (entityDestroyed_loop e
              (map_to_list (SystemManager.systems_ m)) m
              (NoDup_fst_map_to_list _)) as (m' & Hrun & Hsig & Hsys).
  exists m'. split; [exact Hrun |]. split; [exact Hsig |]. intros t.
  rewrite Hsys. destruct (decide _) as [| Hout]; [done |].
  rewrite elem_of_keys in Hout.
  destruct (SystemManager.systems_ m !! t); [| done].
  exfalso. apply Hout. by eexists.
Qed.

Lemma system_install_eq type m :
  SystemManager.install type m =
    if found (SystemManager.systems_ m) type
    then (Fail DuplicateRegistration, m)
    else (Done type,
          SystemManager.mk (SystemManager.signatures_ m)
            (<[type := System.new]> (SystemManager.systems_ m))).
Proof.
  unfold SystemManager.install, bind, gets, assert, modify, ret.
  cbn [fst snd]. by destruct (found _ _).
Qed.

Lemma system_signature_eq type sg m :
  SystemManager.signature type sg m =
    if found (SystemManager.systems_ m) type
    then (Done tt,
          SystemManager.mk
            (match SystemManager.signatures_ m !! type with
             | Some _ => SystemManager.signatures_ m
             | None => <[type := sg]> (SystemManager.signatures_ m)
             end)
            (SystemManager.systems_ m))
    else (Fail NotRegistered, m).
Proof.
  unfold SystemManager.signature, bind, gets, assert, modify.
  cbn [fst snd]. by destruct (found _ _).
Qed.

(** A mask that is stored is never replaced: setting the mask of a system
    that already has one leaves the system manager as it is. *)
Lemma system_signature_keeps_mask type old sg m :
  found (SystemManager.systems_ m) type = true →
  SystemManager.signatures_ m !! type = Some old →
  SystemManager.signature type sg m = (Done tt, m).
Proof.
  intros Hf Hold. rewrite system_signature_eq, Hf, Hold. by destruct m.
Qed.

(** The test of the source, in terms of the two bit vectors: it holds when
    the mask is empty, or when the mask is exactly bit 0 and the signature is
    not empty. *)
Lemma matches_spec (sg mask : Signature) :
  SystemManager.matches sg mask = true ↔ mask = 0 ∨ (mask = 1 ∧ sg ≠ 0).
Proof.
  unfold SystemManager.matches, Bitset.eqb, Bitset.of_bool,
    Bitset.logical_and, Bitset.any, Bitset.of_ullong.
  rewrite N.eqb_eq.
  destruct (N.eqb_spec sg 0) as [-> | Hsg]; cbn [negb andb].
  - change (0 mod 2 ^ COMPONENT_MAX) with 0. split; [auto |].
    intros [-> | [_ ?]]; done.
  - destruct (N.eqb_spec mask 0) as [-> | Hm]; cbn [negb andb].
    + change (0 mod 2 ^ COMPONENT_MAX) with 0. split; auto.
    + change (1 mod 2 ^ COMPONENT_MAX) with 1. split.
      * intros <-. by right.
      * intros [-> | [-> _]]; done.
Qed.

(** After the notification for entity [e] with signature [sg], [e] is a
    member of an installed system exactly when the test of the source holds
    of [sg] and the mask stored for the system. *)
Lemma signatureChanged_membership (e : Entity) (sg : Signature)
    (m : SystemManager.t) (t : string) (s : System.t) :
  SystemManager.systems_ m !! t = Some s →
  ∃ s',
    SystemManager.systems_ (SystemManager.signatureChanged e sg m).2 !! t
    = Some s'
    ∧ (e ∈ System.entities s'
       ↔ SystemManager.matches sg
           (default Bitset.zero (SystemManager.signatures_ m !! t)) = true).
Proof.
  intros Hs.
  destruct (signatureChanged_spec e sg m) as (m' & -> & Hsys & _).
  cbn [snd]. rewrite Hsys, Hs. cbn [fmap option_fmap option_map].
  eexists. split; [done |].
  destruct (SystemManager.matches _ _);
    cbn [System.insert System.erase System.entities].
  - rewrite elem_of_union, elem_of_singleton. split; auto.
  - rewrite elem_of_difference, elem_of_singleton. split; [| done].
    by intros [_ ?].
Qed.

(** ** Claims on the system manager *)

(** C1 does not hold of the code: the notification applies the logical
    [&&] to the two bit vectors and compares the truth value with the mask.
    With mask [{bit 1}] an entity whose new signature is [{bit 1}] has every
    required bit, and is not inserted; with mask [{bit 0}] an entity whose
    new signature is [{bit 1}] lacks the required bit, and is inserted. *)
Theorem signatureChanged_uses_logical_and :
  let m1 := (SystemManager.signature "S" 2
               (SystemManager.install "S" SystemManager.new).2).2 in
  let m0 := (SystemManager.signature "S" 1
               (SystemManager.install "S" SystemManager.new).2).2 in
  (Bitset.eqb (Bitset.band 2 2) 2 = true
   ∧ SystemManager.matches 2 2 = false
   ∧ System.entities <$>
       SystemManager.systems_ (SystemManager.signatureChanged 7 2 m1).2 !! "S"
     = Some ∅)
  ∧ (Bitset.eqb (Bitset.band 2 1) 1 = false
     ∧ SystemManager.matches 2 1 = true
     ∧ System.entities <$>
         SystemManager.systems_ (SystemManager.signatureChanged 7 2 m0).2 !! "S"
       = Some {[7]}).
Proof. vm_compute. repeat split; reflexivity. Qed.

(** ** Registry: how the facade threads its three managers *)

Lemma bind_inv {S A B : Type} (m : M S A) (k : A → M S B) s b s2 :
  bind m k s = (Done b, s2) →
  ∃ a s1, m s = (Done a, s1) ∧ k a s1 = (Done b, s2).
Proof.
  unfold bind. destruct (m s) as [[a | err] s1]; [| done]. eauto.
Qed.

Lemma zoom_inv {S U A : Type} (proj : U → S) (upd : S → U → U)
    (m : M S A) (u u' : U) (o : Outcome A) :
  zoom proj upd m u = (o, u') →
  ∃ s', m (proj u) = (o, s') ∧ u' = upd s' u.
Proof.
  unfold zoom. destruct (m (proj u)) as [o' s']. intros [= <- <-]. eauto.
Qed.

Section RegistryFacts.
Context {V : Type} `{Inhabited V}.
Implicit Types r : Registry.t V.

Lemma component_install_eq type (m : ComponentManager.t V) :
  ComponentManager.install type m =
    if found (ComponentManager.componentTypes_ m) type
    then (Fail DuplicateRegistration, m)
    else (Done tt,
          ComponentManager.mk
            (<[type := ComponentManager.nextType_ m]>
               (ComponentManager.componentTypes_ m))
            (match ComponentManager.componentContainer_ m !! type with
             | Some _ => ComponentManager.componentContainer_ m
             | None => <[type := ComponentContainer.new]>
                         (ComponentManager.componentContainer_ m)
             end)
            (incr (ComponentManager.nextType_ m))).
Proof.
  unfold ComponentManager.install, bind, gets, assert, modify.
  cbn [fst snd]. by destruct (found _ _).
Qed.

Lemma getType_eq type (m : ComponentManager.t V) :
  ComponentManager.getType type m =
    match ComponentManager.componentTypes_ m !! type with
    | Some bit => (Done bit, m)
    | None => (Fail NotRegistered, m)
    end.
Proof.
  unfold ComponentManager.getType, bind, gets, assert, ret, found.
  cbn [fst snd]. by destruct (_ !! type).
Qed.

(** What a successful [componentAdd] has done: the type was not registered
    and is now, with the next free bit; the bit is set in the entity's
    signature; the systems have been notified.  No container is written. *)
Lemma componentAdd_done type e v r r' :
  Registry.componentAdd type e v r = (Done tt, r') →
  ∃ sig,
    found (ComponentManager.componentTypes_ (Registry.componentManager_ r))
          type = false
    ∧ ComponentManager.nextType_ (Registry.componentManager_ r)
      < COMPONENT_MAX
    ∧ e < ENTITY_MAX
    ∧ EntityManager.signatures_ (Registry.entityManager_ r) !! N.to_nat e
      = Some sig
    ∧ Registry.componentManager_ r'
      = (ComponentManager.install type (Registry.componentManager_ r)).2
    ∧ Registry.entityManager_ r'
      = EntityManager.mk
          (EntityManager.entitiesAvailable_ (Registry.entityManager_ r))
          (EntityManager.entitiesLiving_ (Registry.entityManager_ r))
          (<[N.to_nat e :=
               N.setbit sig
                 (ComponentManager.nextType_ (Registry.componentManager_ r))]>
             (EntityManager.signatures_ (Registry.entityManager_ r)))
    ∧ SystemManager.signatureChanged e
        (N.setbit sig
           (ComponentManager.nextType_ (Registry.componentManager_ r)))
        (Registry.systemManager_ r)
      = (Done tt, Registry.systemManager_ r').
Proof.
  unfold Registry.componentAdd, Registry.components, Registry.entities,
    Registry.systems.
  intros Hrun.
  apply bind_inv in Hrun as ([] & r1 & Hinstall & Hrun).
  apply zoom_inv in Hinstall as (cm1 & Hinstall & ->).
  rewrite component_install_eq in Hinstall.
  destruct (found _ type) eqn:Hfound; [done |].
  injection Hinstall as <-.
  apply bind_inv in Hrun as (sig & r2 & Hread & Hrun).
  apply zoom_inv in Hread as (em2 & Hread & ->).
  cbn [Registry.entityManager_] in Hread. rewrite signature_eq in Hread.
  destruct (e <? ENTITY_MAX) eqn:He; [| done]. apply N.ltb_lt in He.
  destruct (_ !! N.to_nat e) as [sig0 |] eqn:Hsig; [| done].
  injection Hread as -> <-.
  apply bind_inv in Hrun as (bit & r3 & Htype & Hrun).
  apply zoom_inv in Htype as (cm3 & Htype & ->).
  cbn [Registry.componentManager_ Registry.entityManager_
       Registry.systemManager_] in Htype.
  rewrite getType_eq in Htype.
  cbn [ComponentManager.componentTypes_] in Htype.
  rewrite lookup_insert_eq in Htype. injection Htype as <- <-.
  apply bind_inv in Hrun as (sig' & r4 & Hset & Hrun).
  unfold Bitset.set in Hset.
  destruct (_ <? COMPONENT_MAX) eqn:Hbit; [| done]. apply N.ltb_lt in Hbit.
  injection Hset as <- <-.
  apply bind_inv in Hrun as ([] & r5 & Hwrite & Hrun).
  apply zoom_inv in Hwrite as (em5 & Hwrite & ->).
  cbn [Registry.componentManager_ Registry.entityManager_
       Registry.systemManager_] in Hwrite.
  rewrite signature_set_eq in Hwrite.
  apply N.ltb_lt in He as He'. rewrite He' in Hwrite.
  injection Hwrite as <-.
  apply zoom_inv in Hrun as (sm6 & Hrun & ->).
  cbn [Registry.componentManager_ Registry.entityManager_
       Registry.systemManager_] in *.
  exists sig. rewrite component_install_eq, Hfound.
  cbn [snd Registry.componentManager_ Registry.entityManager_
       Registry.systemManager_].
  split_and!; try done.
Qed.

Lemma componentAdd_registered type e v r :
  found (ComponentManager.componentTypes_ (Registry.componentManager_ r))
        type = true →
  Registry.componentAdd type e v r = (Fail DuplicateRegistration, r).
Proof.
  intros Hfound. unfold Registry.componentAdd, Registry.components.
  apply bind_fail. rewrite zoom_eq, component_install_eq, Hfound.
  by destruct r.
Qed.

End RegistryFacts.

(** ** Claims on the facade's [componentAdd] *)

(** C3 does not hold of the code: [componentAdd] calls [install] without
    asking whether the type is registered.  Once a call of [componentAdd]
    for a type has succeeded, every further call for that type, on the same
    entity or on another one, fails with [DuplicateRegistration] before it
    reaches the entity, and leaves the registry as it was. *)
Theorem componentAdd_installs_unconditionally {V : Type} `{Inhabited V}
    (type : string) (e e' : Entity) (v v' : V) (r r' : Registry.t V) :
  Registry.componentAdd type e v r = (Done tt, r') →
  Registry.componentAdd type e' v' r' = (Fail DuplicateRegistration, r').
Proof.
  intros (sig & Hfresh & _ & _ & _ & Hcm & _)%componentAdd_done.
  apply componentAdd_registered. rewrite Hcm, component_install_eq, Hfresh.
  cbn [snd ComponentManager.componentTypes_].
  apply found_true. rewrite lookup_insert_eq. by eexists.
Qed.

Lemma componentAdd_installs_unconditionally_witness :
  ∃ r r' : Registry.t nat,
    Facade.run [Facade.EntityCreate; Facade.EntityCreate] Registry.new
    = Some r
    ∧ Registry.componentAdd "Position" 0 7%nat r = (Done tt, r')
    ∧ Registry.componentAdd "Position" 0 8%nat r'
      = (Fail DuplicateRegistration, r')
    ∧ Registry.componentAdd "Position" 1 8%nat r'
      = (Fail DuplicateRegistration, r').
Proof.
  eexists. eexists.
  split; [vm_compute; reflexivity |].
  lazymatch goal with
  | |- ?call = ?res ∧ _ =>
      assert (call = res) as Hadd by (vm_compute; reflexivity)
  end.
  split; [exact Hadd |].
  split;
    exact (componentAdd_installs_unconditionally _ _ _ _ _ _ _ Hadd).
Defined.

(** C7 does not hold of the code: [componentAdd] sets the bit of the type in
    the entity's signature and never inserts the component into the
    container ([ComponentManager::add] is not called).  After one
    [componentAdd] of "Position" on entity 0, bit 0 (the bit of "Position")
    is set in the signature of 0, the container of "Position" maps no
    entity, and reading or removing the component fails with
    [MissingComponent]. *)
Theorem componentAdd_does_not_store :
  ∃ r : Registry.t nat,
    Facade.run [Facade.EntityCreate; Facade.ComponentAdd "Position" 0 7%nat]
               Registry.new = Some r
    ∧ result (Registry.componentType "Position" r) = Some 0
    ∧ N.testbit (Facade.signature_of r 0) 0 = true
    ∧ ComponentContainer.mapEntityToIndex_ <$>
        (ComponentManager.componentContainer_ (Registry.componentManager_ r)
           !! "Position")
      = Some ∅
    ∧ failure (Registry.componentGet "Position" 0 r) = Some MissingComponent
    ∧ failure (Registry.componentRemove "Position" 0 r)
      = Some MissingComponent.
Proof.
  eexists. split; [vm_compute; reflexivity |].
  vm_compute. repeat split; reflexivity.
Qed.

(** C4 does not hold of the code: [signature<T>] stores the mask with
    [std::unordered_map::insert], which keeps the entry that is already
    there.  After the mask of "S" is set to [{bit 0}] and then to [{bit 1}],
    the stored mask is still [{bit 0}], and the notification for an entity
    with signature [{bit 0}] makes it a member, although the signature does
    not satisfy the mask set last, under the bitwise test and under the
    test of the source alike.  Setting the mask of a system that is not
    installed fails with [NotRegistered]. *)
Theorem systemSignature_keeps_first_mask :
  ∃ r : Registry.t nat,
    Facade.run [Facade.SystemInstall "S"; Facade.SystemSignature "S" 1;
                Facade.SystemSignature "S" 2; Facade.EntityCreate;
                Facade.ComponentAdd "A" 0 7%nat] Registry.new = Some r
    ∧ Facade.mask r "S" = 1
    ∧ Facade.signature_of r 0 = 1
    ∧ Bitset.eqb (Bitset.band 1 2) 2 = false
    ∧ SystemManager.matches 1 2 = false
    ∧ elements (Facade.members r "S") = [0]
    ∧ failure (Registry.systemSignature "T" 2 r) = Some NotRegistered.
Proof.
  eexists. split; [vm_compute; reflexivity |].
  vm_compute. repeat split; reflexivity.
Qed.

(** ** Members of a system are live *)

Section MembersLive.
Context {V : Type} `{Inhabited V}.
Implicit Types r : Registry.t V.

Lemma componentRemove_done type e r r' :
  Registry.componentRemove type e r = (Done tt, r') →
  ∃ sg,
    EntityManager.entitiesAvailable_ (Registry.entityManager_ r')
    = EntityManager.entitiesAvailable_ (Registry.entityManager_ r)
    ∧ SystemManager.signatureChanged e sg (Registry.systemManager_ r)
      = (Done tt, Registry.systemManager_ r').
Proof.
  unfold Registry.componentRemove, Registry.components, Registry.entities,
    Registry.systems.
  intros Hrun.
  apply bind_inv in Hrun as ([] & r1 & Hremove & Hrun).
  apply zoom_inv in Hremove as (cm1 & _ & ->).
  apply bind_inv in Hrun as (sig & r2 & Hread & Hrun).
  apply zoom_inv in Hread as (em2 & Hread & ->).
  cbn [Registry.entityManager_] in Hread. rewrite signature_eq in Hread.
  destruct (e <? ENTITY_MAX) eqn:He; [| done].
  destruct (_ !! N.to_nat e) as [sig0 |] eqn:Hsig; [| done].
  injection Hread as -> <-.
  apply bind_inv in Hrun as (bit & r3 & Htype & Hrun).
  apply zoom_inv in Htype as (cm3 & _ & ->).
  apply bind_inv in Hrun as (sig' & r4 & Hset & Hrun).
  unfold Bitset.set in Hset.
  destruct (_ <? COMPONENT_MAX); [| done]. injection Hset as <- <-.
  apply bind_inv in Hrun as ([] & r5 & Hwrite & Hrun).
  apply zoom_inv in Hwrite as (em5 & Hwrite & ->).
  cbn [Registry.componentManager_ Registry.entityManager_
       Registry.systemManager_] in Hwrite.
  rewrite signature_set_eq, He in Hwrite. injection Hwrite as <-.
  apply zoom_inv in Hrun as (sm6 & Hrun & ->).
  cbn [Registry.componentManager_ Registry.entityManager_
       Registry.systemManager_] in *.
  eexists. split; [done | exact Hrun].
Qed.

Lemma entityDestroy_done e r r' :
  Registry.entityDestroy e r = (Done tt, r') →
  e < ENTITY_MAX
  ∧ EntityManager.entitiesAvailable_ (Registry.entityManager_ r')
    = EntityManager.entitiesAvailable_ (Registry.entityManager_ r) ++ [e]
  ∧ SystemManager.entityDestroyed e (Registry.systemManager_ r)
    = (Done tt, Registry.systemManager_ r').
Proof.
  unfold Registry.entityDestroy, Registry.components, Registry.entities,
    Registry.systems.
  intros Hrun.
  apply bind_inv in Hrun as ([] & r1 & Hdestroy & Hrun).
  apply zoom_inv in Hdestroy as (em1 & Hdestroy & ->).
  rewrite destroy_eq in Hdestroy.
  destruct (e <? ENTITY_MAX) eqn:He; [| done]. apply N.ltb_lt in He.
  injection Hdestroy as <-.
  apply bind_inv in Hrun as ([] & r2 & Hstores & Hrun).
  apply zoom_inv in Hstores as (cm2 & _ & ->).
  apply zoom_inv in Hrun as (sm3 & Hrun & ->).
  cbn [Registry.componentManager_ Registry.entityManager_
       Registry.systemManager_ EntityManager.entitiesAvailable_] in *.
  done.
Qed.

Lemma entityCreate_done e r r' :
  Registry.entityCreate r = (Done e, r') →
  EntityManager.entitiesAvailable_ (Registry.entityManager_ r)
  = e :: EntityManager.entitiesAvailable_ (Registry.entityManager_ r')
  ∧ Registry.systemManager_ r' = Registry.systemManager_ r.
Proof.
  unfold Registry.entityCreate, Registry.entities. intros Hrun.
  apply zoom_inv in Hrun as (em1 & Hcreate & ->).
  rewrite create_eq in Hcreate.
  destruct (_ <? ENTITY_MAX); [| done].
  destruct (EntityManager.entitiesAvailable_ _) as [| x rest]; [done |].
  by injection Hcreate as -> <-.
Qed.

Lemma members_live_new :
  Facade.members_live (Registry.new : Registry.t V).
Proof.
  intros t s x Hs. unfold Registry.new, SystemManager.new in Hs.
  cbn [Registry.systemManager_ SystemManager.systems_] in Hs.
  by rewrite lookup_empty in Hs.
Qed.

Lemma live_same_queue m m' x :
  EntityManager.entitiesAvailable_ m' = EntityManager.entitiesAvailable_ m →
  live m' x = live m x.
Proof. unfold live. by intros ->. Qed.

Lemma members_live_notified e sg r r' :
  Facade.members_live r →
  live (Registry.entityManager_ r) e = true →
  EntityManager.entitiesAvailable_ (Registry.entityManager_ r')
  = EntityManager.entitiesAvailable_ (Registry.entityManager_ r) →
  SystemManager.signatureChanged e sg (Registry.systemManager_ r)
  = (Done tt, Registry.systemManager_ r') →
  Facade.members_live r'.
Proof.
  intros Hinv He Hq Hsc t s' x Hs' Hx.
  rewrite (live_same_queue _ _ _ Hq).
  destruct (signatureChanged_spec e sg (Registry.systemManager_ r))
    as (m' & Hrun & Hsys & _).
  rewrite Hsc in Hrun. injection Hrun as <-.
  rewrite Hsys in Hs'.
  destruct (SystemManager.systems_ (Registry.systemManager_ r) !! t)
    as [s |] eqn:Hs; [| done].
  injection Hs' as <-.
  destruct (SystemManager.matches _ _); cbn [System.insert System.erase
    System.entities] in Hx.
  - apply elem_of_union in Hx as [->%elem_of_singleton | Hx]; [done |].
    by eapply Hinv.
  - apply elem_of_difference in Hx as [Hx _]. by eapply Hinv.
Qed.

Lemma members_live_step (c : Facade.Call V) r r' :
  Facade.members_live r →
  Facade.admissible c r = true →
  Facade.call c r = (Done tt, r') →
  Facade.members_live r'.
Proof.
  intros Hinv Hadm Hcall.
  destruct c as [| e | type e v | type e | type | type | type sg];
    cbn [Facade.call Facade.admissible] in *.
  - apply bind_inv in Hcall as (e & r1 & Hcreate & [= <-]).
    apply entityCreate_done in Hcreate as [Hq Hsm].
    intros t s x Hs Hx. rewrite Hsm in Hs.
    pose proof (Hinv t s x Hs Hx) as [Hrange Hout]%live_spec.
    apply live_spec. split; [done |].
    rewrite Hq in Hout. by apply not_elem_of_cons in Hout as [_ ?].
  - apply entityDestroy_done in Hcall as (He & Hq & Hsm).
    intros t s' x Hs' Hx.
    destruct (entityDestroyed_spec e (Registry.systemManager_ r))
      as (m' & Hrun & _ & Hsys).
    rewrite Hsm in Hrun. injection Hrun as <-.
    rewrite Hsys in Hs'.
    destruct (SystemManager.systems_ (Registry.systemManager_ r) !! t)
      as [s |] eqn:Hs; [| done].
    injection Hs' as <-. cbn [System.erase System.entities] in Hx.
    apply elem_of_difference in Hx as [Hx Hne].
    rewrite elem_of_singleton in Hne.
    pose proof (Hinv t s x Hs Hx) as [Hrange Hout]%live_spec.
    apply live_spec. split; [done |]. rewrite Hq.
    apply not_elem_of_app. split; [done |].
    by rewrite list_elem_of_singleton.
  - apply componentAdd_done in Hcall
      as (sig & _ & _ & _ & _ & _ & Hem & Hsc).
    eapply members_live_notified; [done | done | | exact Hsc].
    by rewrite Hem.
  - apply componentRemove_done in Hcall as (sg & Hq & Hsc).
    by eapply members_live_notified.
  - unfold Registry.componentInstall, Registry.components in Hcall.
    apply zoom_inv in Hcall as (cm1 & _ & ->). exact Hinv.
  - apply bind_inv in Hcall as (k & r1 & Hinstall & [= <-]).
    unfold Registry.systemInstall, Registry.systems in Hinstall.
    apply zoom_inv in Hinstall as (sm1 & Hinstall & ->).
    rewrite system_install_eq in Hinstall.
    destruct (found _ type); [done |]. injection Hinstall as _ <-.
    intros t s x Hs Hx.
    cbn [Registry.systemManager_ Registry.entityManager_
         SystemManager.systems_] in *.
    apply lookup_insert_Some in Hs as [[_ <-] | [_ Hs]].
    + by apply elem_of_empty in Hx.
    + by eapply Hinv.
  - unfold Registry.systemSignature, Registry.systems in Hcall.
    apply zoom_inv in Hcall as (sm1 & Hsig & ->).
    rewrite system_signature_eq in Hsig.
    destruct (found _ type); [| done]. injection Hsig as <-.
    exact Hinv.
Qed.

Lemma members_live_run (cs : list (Facade.Call V)) r r' :
  Facade.members_live r → Facade.run cs r = Some r' → Facade.members_live r'.
Proof.
  revert r. induction cs as [| c cs IH]; intros r Hinv; cbn [Facade.run].
  { by intros [= <-]. }
  destruct (Facade.admissible c r) eqn:Hadm; [| done].
  destruct (Facade.call c r) as [[[] | err] r1] eqn:Hcall; [| done].
  apply IH. by eapply members_live_step.
Qed.

End MembersLive.

Section MembersFrame.
Context {V : Type} `{Inhabited V}.
Implicit Types r : Registry.t V.

Lemma members_notified e sg r r' t x :
  SystemManager.signatureChanged e sg (Registry.systemManager_ r)
  = (Done tt, Registry.systemManager_ r') →
  e ≠ x →
  x ∈ Facade.members r' t ↔ x ∈ Facade.members r t.
Proof.
  intros Hsc Hne.
  destruct (signatureChanged_spec e sg (Registry.systemManager_ r))
    as (m' & Hrun & Hsys & _).
  rewrite Hsc in Hrun. injection Hrun as <-.
  unfold Facade.members. rewrite Hsys.
  destruct (SystemManager.systems_ (Registry.systemManager_ r) !! t)
    as [s |]; cbn [fmap option_fmap option_map]; [| done].
  destruct (SystemManager.matches _ _);
    cbn [System.insert System.erase System.entities].
  - rewrite elem_of_union, elem_of_singleton. split; [| auto].
    by intros [<- | ?].
  - rewrite elem_of_difference, elem_of_singleton. split; [by intros [? _] |].
    intros Hx. split; [done |]. by intros <-.
Qed.

Lemma members_destroyed e r r' t x :
  SystemManager.entityDestroyed e (Registry.systemManager_ r)
  = (Done tt, Registry.systemManager_ r') →
  x ∈ Facade.members r' t ↔ x ∈ Facade.members r t ∧ x ≠ e.
Proof.
  intros Hed.
  destruct (entityDestroyed_spec e (Registry.systemManager_ r))
    as (m' & Hrun & _ & Hsys).
  rewrite Hed in Hrun. injection Hrun as <-.
  unfold Facade.members. rewrite Hsys.
  destruct (SystemManager.systems_ (Registry.systemManager_ r) !! t)
    as [s |]; cbn [fmap option_fmap option_map System.erase System.entities].
  - by rewrite elem_of_difference, elem_of_singleton.
  - split; [by intros ?%elem_of_empty | by intros [?%elem_of_empty _]].
Qed.

Lemma members_frame (c : Facade.Call V) r r' t x :
  Facade.call c r = (Done tt, r') →
  ¬ Facade.touches c x →
  x ∈ Facade.members r' t ↔ x ∈ Facade.members r t.
Proof.
  intros Hcall Hother.
  destruct c as [| e | type e v | type e | type | type | type sg];
    cbn [Facade.call Facade.touches] in *.
  - apply bind_inv in Hcall as (e & r1 & Hcreate & [= <-]).
    apply entityCreate_done in Hcreate as [_ Hsm].
    unfold Facade.members. by rewrite Hsm.
  - apply entityDestroy_done in Hcall as (_ & _ & Hsm).
    rewrite (members_destroyed _ _ _ _ _ Hsm). split; [by intros [? _] |].
    intros Hx. split; [done |]. by intros <-.
  - apply componentAdd_done in Hcall as (sig & _ & _ & _ & _ & _ & _ & Hsc).
    by eapply members_notified.
  - apply componentRemove_done in Hcall as (sg & _ & Hsc).
    by eapply members_notified.
  - unfold Registry.componentInstall, Registry.components in Hcall.
    by apply zoom_inv in Hcall as (cm1 & _ & ->).
  - apply bind_inv in Hcall as (k & r1 & Hinstall & [= <-]).
    unfold Registry.systemInstall, Registry.systems in Hinstall.
    apply zoom_inv in Hinstall as (sm1 & Hinstall & ->).
    rewrite system_install_eq in Hinstall.
    destruct (found _ type) eqn:Hfound; [done |].
    injection Hinstall as _ <-.
    unfold Facade.members.
    cbn [Registry.systemManager_ SystemManager.systems_].
    apply found_false in Hfound.
    destruct (decide (type = t)) as [-> | Hne].
    + rewrite lookup_insert_eq, Hfound. done.
    + by rewrite lookup_insert_ne.
  - unfold Registry.systemSignature, Registry.systems in Hcall.
    apply zoom_inv in Hcall as (sm1 & Hsig & ->).
    rewrite system_signature_eq in Hsig.
    destruct (found _ type); [| done]. by injection Hsig as <-.
Qed.

End MembersFrame.

(** ** Claim on the membership of systems *)

(** C2, as the code has it.  After any sequence of admissible facade calls
    on a fresh registry: every member of a system is a live handle; a
    successful [entityDestroy] leaves the destroyed entity in no system; and
    a call changes the membership of no entity other than the one it works
    on, so that whether an entity is a member of a system is decided only at
    the notifications of its own signature changes and at its destruction. *)
Theorem membership_follows_notifications {V : Type} `{Inhabited V}
    (cs : list (Facade.Call V)) (r : Registry.t V) :
  Facade.run cs Registry.new = Some r →
  (∀ t x, x ∈ Facade.members r t →
          live (Registry.entityManager_ r) x = true)
  ∧ (∀ e r' t, Registry.entityDestroy e r = (Done tt, r') →
               e ∉ Facade.members r' t)
  ∧ (∀ c r' t x, Facade.call c r = (Done tt, r') →
                 ¬ Facade.touches c x →
                 x ∈ Facade.members r' t ↔ x ∈ Facade.members r t).
Proof.
  intros Hrun.
  pose proof (members_live_run cs _ _ members_live_new Hrun) as Hinv.
  split; [| split].
  - intros t x. unfold Facade.members.
    destruct (SystemManager.systems_ _ !! t) as [s |] eqn:Hs.
    + intros Hx. by eapply Hinv.
    + by intros ?%elem_of_empty.
  - intros e r' t (_ & _ & Hsm)%entityDestroy_done.
    rewrite (members_destroyed _ _ _ _ _ Hsm). by intros [_ ?].
  - intros c r' t x. apply members_frame.
Qed.

Lemma membership_follows_notifications_witness :
  ∃ r : Registry.t nat,
    Facade.run [Facade.SystemInstall "S"; Facade.SystemSignature "S" 1;
                Facade.EntityCreate; Facade.ComponentAdd "A" 0 7%nat]
               Registry.new = Some r
    ∧ (∀ t x, x ∈ Facade.members r t →
              live (Registry.entityManager_ r) x = true)
    ∧ (∀ e r' t, Registry.entityDestroy e r = (Done tt, r') →
                 e ∉ Facade.members r' t)
    ∧ (∀ c r' t x, Facade.call c r = (Done tt, r') →
                   ¬ Facade.touches c x →
                   x ∈ Facade.members r' t ↔ x ∈ Facade.members r t).
Proof.
  eexists. split; [vm_compute; reflexivity |].
  apply (membership_follows_notifications
           [Facade.SystemInstall "S"; Facade.SystemSignature "S" 1;
            Facade.EntityCreate; Facade.ComponentAdd "A" 0 7%nat]).
  vm_compute. reflexivity.
Defined.

(** C2 fails as stated.  Entity 0 receives its component before system "S"
    is installed with the mask [{bit 0}]; after the later destruction of
    entity 1, entity 0 is live and its signature [{bit 0}] satisfies the
    mask, but it is not a member of "S": no call has notified a change of
    its signature since "S" exists. *)
Lemma membership_is_not_rederived :
  ∃ r : Registry.t nat,
    Facade.run [Facade.EntityCreate; Facade.ComponentAdd "A" 0 7%nat;
                Facade.SystemInstall "S"; Facade.SystemSignature "S" 1;
                Facade.EntityCreate; Facade.EntityDestroy 1]
               Registry.new = Some r
    ∧ live (Registry.entityManager_ r) 0 = true
    ∧ Facade.signature_of r 0 = 1
    ∧ Facade.mask r "S" = 1
    ∧ Bitset.band (Facade.signature_of r 0) (Facade.mask r "S")
      = Facade.mask r "S"
    ∧ elements (Facade.members r "S") = []
    ∧ ¬ Facade.query_correct r.
Proof.
  eexists. split; [vm_compute; reflexivity |].
  split; [vm_compute; reflexivity |].
  split; [vm_compute; reflexivity |].
  split; [vm_compute; reflexivity |].
  split; [vm_compute; reflexivity |].
  lazymatch goal with
  | |- ?elts = [] ∧ _ =>
      assert (elts = []) as Hnone by (vm_compute; reflexivity)
  end.
  split; [exact Hnone |].
  intros Hq.
  destruct (Hq "S" 0) as [_ Hin]; [vm_compute; reflexivity |].
  apply elem_of_elements in Hin.
  - rewrite Hnone in Hin. by apply elem_of_nil in Hin.
  - split; vm_compute; reflexivity.
Qed.

(** * Further properties *)

(** ** EntityManager: handles and their liveness *)

(** X1: [create] never issues a handle that is already live.  After any
    sequence of admissible calls, the handle a successful [create] returns
    was not live, is in range, is live afterwards and carries the empty
    signature; the liveness of every other handle is unchanged. *)
Theorem create_issues_fresh_handle (cs : list Allocator.Call)
    (m m' : EntityManager.t) (e : Entity) :
  Allocator.run cs EntityManager.new = Some m →
  EntityManager.create m = (Done e, m') →
  live m e = false
  ∧ live m' e = true
  ∧ e < ENTITY_MAX
  ∧ EntityManager.signature e m' = (Done Bitset.zero, m')
  ∧ ∀ x, x ≠ e → live m' x = live m x.
Proof.
  intros Hrun Hcreate.
  pose proof (run_inv _ _ _ inv_new Hrun) as Hinv.
  destruct (inv_create _ _ _ Hinv Hcreate) as (Hinv' & Hq & _ & Hsg).
  destruct Hinv as [Hnd Hrg _ _ Hrs].
  assert (e ∈ EntityManager.entitiesAvailable_ m) as Hin
    by (rewrite Hq; by left).
  rewrite Hq in Hnd. apply NoDup_cons in Hnd as [Hout _].
  pose proof (Hrg e Hin) as He.
  split_and!.
  - apply live_false. by right.
  - by apply live_spec.
  - done.
  - rewrite signature_eq, Hsg. apply N.ltb_lt in He. rewrite He.
    by rewrite (Hrs e Hin).
  - intros x Hx. unfold live. rewrite Hq. f_equal.
    apply bool_decide_ext. rewrite not_elem_of_cons.
    split; [intros ?; by split | by intros [_ ?]].
Qed.

Lemma create_issues_fresh_handle_witness :
  ∃ m m' e,
    Allocator.run [Allocator.Create; Allocator.Create; Allocator.Destroy 0]
                  EntityManager.new = Some m
    ∧ EntityManager.create m = (Done e, m')
    ∧ live m e = false
    ∧ live m' e = true
    ∧ e < ENTITY_MAX
    ∧ EntityManager.signature e m' = (Done Bitset.zero, m')
    ∧ ∀ x, x ≠ e → live m' x = live m x.
Proof.
  eexists. eexists. eexists.
  split; [vm_compute; reflexivity |].
  lazymatch goal with
  | |- ?call = ?res ∧ _ =>
      assert (call = res) as Hcreate by (vm_compute; reflexivity)
  end.
  split; [exact Hcreate |].
  refine (create_issues_fresh_handle
            [Allocator.Create; Allocator.Create; Allocator.Destroy 0]
            _ _ _ _ Hcreate).
  vm_compute. reflexivity.
Defined.



(** X3: the signature write and the signature read are a round trip.  On
    an allocator whose signature array has its [ENTITY_MAX] slots, writing a
    signature for a handle in range succeeds, a following read of that
    handle returns it, every other handle reads what it read before, and
    the queue and the counter are untouched; for a handle out of range both
    accessors fail with [InvalidEntity] and change nothing. *)
Theorem signature_write_then_read (m : EntityManager.t) (e : Entity)
    (sg : Signature) :
  length (EntityManager.signatures_ m) = N.to_nat ENTITY_MAX →
  (e < ENTITY_MAX →
     failure (EntityManager.signature_set e sg m) = None
     ∧ EntityManager.signature e (EntityManager.signature_set e sg m).2
       = (Done sg, (EntityManager.signature_set e sg m).2)
     ∧ (∀ x, x ≠ e →
          result (EntityManager.signature x
                    (EntityManager.signature_set e sg m).2)
          = result (EntityManager.signature x m))
     ∧ EntityManager.entitiesAvailable_ (EntityManager.signature_set e sg m).2
       = EntityManager.entitiesAvailable_ m
     ∧ EntityManager.entitiesLiving_ (EntityManager.signature_set e sg m).2
       = EntityManager.entitiesLiving_ m)
  ∧ (ENTITY_MAX <= e →
       EntityManager.signature_set e sg m = (Fail InvalidEntity, m)
       ∧ EntityManager.signature e m = (Fail InvalidEntity, m)).
Proof.
  intros Hlen. split.
  - intros He. apply N.ltb_lt in He as He'.
    rewrite signature_set_eq, He'. cbn [fst snd]. split_and!; try done.
    + rewrite signature_eq, He'. cbn [EntityManager.signatures_].
      rewrite list_lookup_insert_eq by lia. done.
    + intros x Hx. rewrite !signature_eq. cbn [EntityManager.signatures_].
      rewrite list_lookup_insert_ne by lia.
      destruct (x <? ENTITY_MAX); [| done].
      by destruct (_ !! N.to_nat x).
  - intros He. apply N.ltb_ge in He.
    by rewrite signature_set_eq, signature_eq, He.
Qed.

Lemma signature_write_then_read_witness :
  length (EntityManager.signatures_ EntityManager.new) = N.to_nat ENTITY_MAX
  ∧ 3 < ENTITY_MAX
  ∧ ENTITY_MAX <= 5000
  ∧ (failure (EntityManager.signature_set 3 5 EntityManager.new) = None
     ∧ EntityManager.signature 3
         (EntityManager.signature_set 3 5 EntityManager.new).2
       = (Done 5, (EntityManager.signature_set 3 5 EntityManager.new).2)
     ∧ (∀ x, x ≠ 3 →
          result (EntityManager.signature x
                    (EntityManager.signature_set 3 5 EntityManager.new).2)
          = result (EntityManager.signature x EntityManager.new))
     ∧ EntityManager.entitiesAvailable_
         (EntityManager.signature_set 3 5 EntityManager.new).2
       = EntityManager.entitiesAvailable_ EntityManager.new
     ∧ EntityManager.entitiesLiving_
         (EntityManager.signature_set 3 5 EntityManager.new).2
       = EntityManager.entitiesLiving_ EntityManager.new)
  ∧ (EntityManager.signature_set 5000 5 EntityManager.new
     = (Fail InvalidEntity, EntityManager.new)
     ∧ EntityManager.signature 5000 EntityManager.new
       = (Fail InvalidEntity, EntityManager.new)).
Proof.
  assert (length (EntityManager.signatures_ EntityManager.new)
          = N.to_nat ENTITY_MAX) as Hlen by (vm_compute; reflexivity).
  assert (3 < ENTITY_MAX) as Hin by reflexivity.
  assert (ENTITY_MAX <= 5000) as Hout by (vm_compute; discriminate).
  split; [exact Hlen |]. split; [exact Hin |]. split; [exact Hout |].
  split.
  - exact (proj1 (signature_write_then_read EntityManager.new 3 5 Hlen) Hin).
  - exact (proj2 (signature_write_then_read EntityManager.new 5000 5 Hlen)
             Hout).
Defined.

(** X4: exhausting and recycling.  [ENTITY_MAX] calls of [create] on a
    fresh allocator succeed and return every handle once, in increasing
    order; the next [create] fails with [CapacityExceeded] and changes
    nothing; after one handle is destroyed, [create] succeeds again and
    returns exactly that handle. *)
Theorem exhaust_then_recycle (e : Entity) :
  e < ENTITY_MAX →
  ∃ m,
    Allocator.create_n (N.to_nat ENTITY_MAX) EntityManager.new
    = (Done handles, m)
    ∧ EntityManager.entitiesLiving_ m = ENTITY_MAX
    ∧ EntityManager.create m = (Fail CapacityExceeded, m)
    ∧ result (EntityManager.create (EntityManager.destroy e m).2) = Some e.
Proof.
  intros He.
  pose proof (create_n_prefix handles [] EntityManager.new) as Hpre.
  rewrite length_handles in Hpre.
  unfold EntityManager.new in Hpre at 1 2.
  cbn [EntityManager.entitiesAvailable_ EntityManager.entitiesLiving_]
    in Hpre.
  fold handles in Hpre. rewrite app_nil_r, N2Nat.id in Hpre.
  specialize (Hpre eq_refl). rewrite N.add_0_l in Hpre.
  specialize (Hpre (N.le_refl _)).
  change (EntityManager.entitiesLiving_ EntityManager.new) with 0 in Hpre.
  eexists. split; [exact Hpre |].
  cbn [EntityManager.entitiesLiving_]. split; [lia |]. split.
  - rewrite create_eq. cbn [EntityManager.entitiesLiving_].
    rewrite N.add_0_l, N.ltb_irrefl. done.
  - rewrite destroy_eq. apply N.ltb_lt in He. rewrite He. cbn [snd].
    rewrite create_eq.
    cbn [EntityManager.entitiesLiving_ EntityManager.entitiesAvailable_ app].
    rewrite N.add_0_l.
    pose proof ENTITY_MAX_lt_WORD. pose proof ENTITY_MAX_pos.
    rewrite decr_pos by lia.
    assert ((ENTITY_MAX - 1 <? ENTITY_MAX) = true) as ->
      by (apply N.ltb_lt; lia).
    done.
Qed.

Lemma exhaust_then_recycle_witness :
  42 < ENTITY_MAX
  ∧ ∃ m,
      Allocator.create_n (N.to_nat ENTITY_MAX) EntityManager.new
      = (Done handles, m)
      ∧ EntityManager.entitiesLiving_ m = ENTITY_MAX
      ∧ EntityManager.create m = (Fail CapacityExceeded, m)
      ∧ result (EntityManager.create (EntityManager.destroy 42 m).2)
        = Some 42.
Proof.
  split; [reflexivity |].
  apply (exhaust_then_recycle 42). reflexivity.
Defined.

(** ** ComponentContainer: insertion, lookup and removal together *)

Section ContainerRoundTrips.
Context {T : Type} `{Inhabited T}.
Implicit Types c : ComponentContainer.t T.

(** X5: [insert] and [get] are a round trip.  Inserting a component for an
    unmapped entity into a well-formed container that is not full succeeds
    and keeps the container well formed; the entity takes the slot at the
    former count, [get] returns the inserted value, and every other entity
    keeps its slot and reads what it read before. *)
Theorem insert_then_get c (e : Entity) (v : T) :
  Store.wf c →
  ComponentContainer.mapEntityToIndex_ c !! e = None →
  ComponentContainer.size_ c < ENTITY_MAX →
  ∃ c',
    ComponentContainer.insert e v c = (Done tt, c')
    ∧ Store.wf c'
    ∧ ComponentContainer.size_ c' = ComponentContainer.size_ c + 1
    ∧ ComponentContainer.mapEntityToIndex_ c' !! e
      = Some (ComponentContainer.size_ c)
    ∧ ComponentContainer.get e c' = (Done v, c')
    ∧ ∀ e', e' ≠ e →
        ComponentContainer.mapEntityToIndex_ c' !! e'
        = ComponentContainer.mapEntityToIndex_ c !! e'
        ∧ result (ComponentContainer.get e' c')
          = result (ComponentContainer.get e' c).
Proof.
  intros Hwf Hfresh Hroom.
  destruct (wf_insert c e v Hwf Hfresh Hroom) as [Hdone Hwf'].
  destruct Hwf as [Har Hsz Hinv Hdn].
  revert Hdone Hwf'. rewrite insert_eq. cbn zeta. rewrite Hfresh.
  assert ((N.of_nat (length (ComponentContainer.components_ c))
           <=? ComponentContainer.size_ c) = false) as ->
    by (apply N.leb_gt; lia).
  cbn [fst snd]. intros _ Hwf'. rewrite incr_small in * by done.
  eexists. split; [reflexivity |]. split; [exact Hwf' |].
  cbn [ComponentContainer.size_ ComponentContainer.mapEntityToIndex_].
  split; [done |]. split; [apply lookup_insert_eq |]. split.
  - rewrite get_eq.
    cbn [ComponentContainer.mapEntityToIndex_ ComponentContainer.components_].
    rewrite lookup_insert_eq, list_lookup_insert_eq by lia. done.
  - intros e' Hne. split; [by apply lookup_insert_ne |].
    rewrite !get_value_of. unfold Store.value_of, Store.slot_of.
    cbn [ComponentContainer.mapEntityToIndex_ ComponentContainer.components_].
    rewrite lookup_insert_ne by done.
    destruct (ComponentContainer.mapEntityToIndex_ c !! e') as [j |] eqn:Hj;
      [| done].
    apply list_lookup_insert_ne.
    assert (j < ComponentContainer.size_ c)
      by (apply Hdn; exists e'; by apply Hinv).
    lia.
Qed.

(** X6: which container operations fail, and with what.  On a well-formed
    container [get] succeeds exactly for the mapped entities and never
    changes the container; for an unmapped entity [get] and [remove] fail
    with [MissingComponent], for a mapped one [insert] fails with
    [DuplicateComponent], and a failing operation changes nothing. *)
Theorem container_errors c (e : Entity) (v : T) :
  Store.wf c →
  (ComponentContainer.get e c).2 = c
  ∧ (is_Some (result (ComponentContainer.get e c))
     ↔ is_Some (ComponentContainer.mapEntityToIndex_ c !! e))
  ∧ (ComponentContainer.mapEntityToIndex_ c !! e = None →
       ComponentContainer.get e c = (Fail MissingComponent, c)
       ∧ ComponentContainer.remove e c = (Fail MissingComponent, c))
  ∧ (is_Some (ComponentContainer.mapEntityToIndex_ c !! e) →
       ComponentContainer.insert e v c = (Fail DuplicateComponent, c)).
Proof.
  intros [Har Hsz Hinv Hdn]. rewrite get_eq, remove_eq, insert_eq. cbn zeta.
  destruct (ComponentContainer.mapEntityToIndex_ c !! e) as [i |] eqn:He.
  - assert (i < ComponentContainer.size_ c)
      by (apply Hdn; exists e; by apply Hinv).
    destruct (lookup_lt_is_Some_2 (ComponentContainer.components_ c)
                (N.to_nat i) ltac:(lia)) as [x Hx].
    rewrite Hx. split_and!; try done; split; intros _; by eexists.
  - split_and!; try done; split; by intros [? ?].
Qed.

(** X7: [insert] followed by [remove] of the same entity is a round trip.
    On a well-formed container that is not full and does not map the
    entity, both calls succeed and the two maps and the count are as they
    were before; every entity reads what it read before. *)
Theorem insert_then_remove c (e : Entity) (v : T) :
  Store.wf c →
  ComponentContainer.mapEntityToIndex_ c !! e = None →
  ComponentContainer.size_ c < ENTITY_MAX →
  ∃ c1 c2,
    ComponentContainer.insert e v c = (Done tt, c1)
    ∧ ComponentContainer.remove e c1 = (Done tt, c2)
    ∧ ComponentContainer.mapEntityToIndex_ c2
      = ComponentContainer.mapEntityToIndex_ c
    ∧ ComponentContainer.mapIndexToEntity_ c2
      = ComponentContainer.mapIndexToEntity_ c
    ∧ ComponentContainer.size_ c2 = ComponentContainer.size_ c
    ∧ ∀ e', result (ComponentContainer.get e' c2)
            = result (ComponentContainer.get e' c).
Proof.
  intros Hwf Hfresh Hroom.
  destruct (wf_insert c e v Hwf Hfresh Hroom) as [Hdone Hwf1].
  destruct Hwf as [Har Hsz Hinv Hdn].
  assert (ComponentContainer.mapIndexToEntity_ c
            !! ComponentContainer.size_ c = None) as Hfree.
  { apply eq_None_not_Some. rewrite Hdn. lia. }
  pose proof ENTITY_MAX_lt_WORD as HW.
  revert Hdone Hwf1. rewrite insert_eq. cbn zeta. rewrite Hfresh.
  assert ((N.of_nat (length (ComponentContainer.components_ c))
           <=? ComponentContainer.size_ c) = false) as Hin
    by (apply N.leb_gt; lia).
  rewrite Hin. cbn [fst snd]. intros _ Hwf1.
  rewrite incr_small in * by done.
  eexists. eexists. split; [reflexivity |].
  rewrite remove_eq.
  cbn [ComponentContainer.mapEntityToIndex_ ComponentContainer.components_
       ComponentContainer.mapIndexToEntity_ ComponentContainer.size_].
  rewrite lookup_insert_eq. cbn zeta.
  rewrite decr_pos by lia.
  replace (ComponentContainer.size_ c + 1 - 1)
    with (ComponentContainer.size_ c) by lia.
  rewrite list_lookup_insert_eq by lia.
  rewrite length_insert, Hin, lookup_insert_eq. cbn [from_option id].
  split; [reflexivity |].
  cbn [ComponentContainer.mapEntityToIndex_ ComponentContainer.components_
       ComponentContainer.mapIndexToEntity_ ComponentContainer.size_].
  rewrite !insert_insert_eq, !delete_insert_eq.
  rewrite (delete_id _ _ Hfresh), (delete_id _ _ Hfree).
  split_and!; try done.
  intros e'. rewrite !get_value_of. unfold Store.value_of, Store.slot_of.
  cbn [ComponentContainer.mapEntityToIndex_ ComponentContainer.components_].
  destruct (ComponentContainer.mapEntityToIndex_ c !! e') as [j |] eqn:Hj;
    [| done].
  assert (j < ComponentContainer.size_ c)
    by (apply Hdn; exists e'; by apply Hinv).
  rewrite !list_lookup_insert_ne by lia. done.
Qed.

Lemma remove_keeps_others c e i eL last e' :
  Store.wf c →
  ComponentContainer.mapEntityToIndex_ c !! e = Some i →
  ComponentContainer.mapIndexToEntity_ c
    !! (ComponentContainer.size_ c - 1) = Some eL →
  ComponentContainer.components_ c
    !! N.to_nat (ComponentContainer.size_ c - 1) = Some last →
  e' ≠ e →
  Store.value_of
    (ComponentContainer.mk
       (<[N.to_nat i := last]> (ComponentContainer.components_ c))
       (delete e (<[eL := i]> (ComponentContainer.mapEntityToIndex_ c)))
       (delete (ComponentContainer.size_ c - 1)
          (<[i := eL]> (ComponentContainer.mapIndexToEntity_ c)))
       (ComponentContainer.size_ c - 1)) e'
  = Store.value_of c e'.
Proof.
  intros Hwf He HeL Hlast Hne. pose proof (wf_injective c) as Hinj.
  destruct Hwf as [Har Hsz Hinv Hdn].
  assert (Store.wf c) as Hwf by done.
  apply Hinv in HeL as HeL'.
  assert (i < ComponentContainer.size_ c) as Hi
    by (apply Hdn; exists e; by apply Hinv).
  unfold Store.value_of, Store.slot_of.
  cbn [ComponentContainer.mapEntityToIndex_ ComponentContainer.components_].
  rewrite lookup_delete_ne by done.
  destruct (decide (e' = eL)) as [-> | HneL].
  - rewrite lookup_insert_eq, HeL', Hlast.
    apply list_lookup_insert_eq. lia.
  - rewrite lookup_insert_ne by done.
    destruct (ComponentContainer.mapEntityToIndex_ c !! e') as [j |] eqn:Hj;
      [| done].
    apply list_lookup_insert_ne. intros Heq%N2Nat.inj.
    rewrite Heq in He. apply Hne. exact (Hinj _ _ _ Hwf Hj He).
Qed.

(** What [destroyed] does to a well-formed container, for use in the
    component manager. *)
Lemma destroyed_wf c e :
  Store.wf c →
  (ComponentContainer.destroyed e c).1 = Done tt
  ∧ Store.wf (ComponentContainer.destroyed e c).2
  ∧ ComponentContainer.mapEntityToIndex_
      (ComponentContainer.destroyed e c).2 !! e = None
  ∧ (ComponentContainer.mapEntityToIndex_ c !! e = None →
       (ComponentContainer.destroyed e c).2 = c)
  ∧ ∀ e', e' ≠ e →
      result (ComponentContainer.get e'
                (ComponentContainer.destroyed e c).2)
      = result (ComponentContainer.get e' c).
Proof.
  intros Hwf. rewrite destroyed_eq.
  destruct (ComponentContainer.mapEntityToIndex_ c !! e) as [i |] eqn:He.
  - destruct (remove_mapped c e i Hwf He)
      as (eL & last & Hi & HeL & Hlast & ->).
    cbn [fst snd]. split; [done |].
    split; [by apply wf_swap |].
    cbn [ComponentContainer.mapEntityToIndex_].
    split; [apply lookup_delete_eq |]. split; [done |].
    intros e' Hne. rewrite !get_value_of. by apply remove_keeps_others.
  - cbn [fst snd]. by split_and!.
Qed.

(** X8: [destroyed] drops the entity and never fails.  On a well-formed
    container it succeeds whether or not the entity has a component; the
    container stays well formed, the entity is unmapped afterwards, every
    other entity reads what it read before, and a container that did not
    map the entity is left exactly as it was. *)
Theorem destroyed_drops_entity c (e : Entity) :
  Store.wf c →
  ∃ c',
    ComponentContainer.destroyed e c = (Done tt, c')
    ∧ Store.wf c'
    ∧ ComponentContainer.get e c' = (Fail MissingComponent, c')
    ∧ (ComponentContainer.mapEntityToIndex_ c !! e = None → c' = c)
    ∧ ∀ e', e' ≠ e →
        result (ComponentContainer.get e' c')
        = result (ComponentContainer.get e' c).
Proof.
  intros Hwf.
  destruct (destroyed_wf c e Hwf) as (Hdone & Hwf' & Hgone & Hsame & Hkeep).
  destruct (ComponentContainer.destroyed e c) as [o c'] eqn:Hrun.
  cbn [fst snd] in *. subst o. exists c'. split_and!; try done.
  by rewrite get_eq, Hgone.
Qed.

End ContainerRoundTrips.

Lemma insert_then_get_witness :
  Store.wf (ComponentContainer.new : ComponentContainer.t nat)
  ∧ ComponentContainer.mapEntityToIndex_
      (ComponentContainer.new : ComponentContainer.t nat) !! 7 = None
  ∧ ComponentContainer.size_
      (ComponentContainer.new : ComponentContainer.t nat) < ENTITY_MAX
  ∧ ∃ c' : ComponentContainer.t nat,
      ComponentContainer.insert 7 10%nat ComponentContainer.new
      = (Done tt, c')
      ∧ Store.wf c'
      ∧ ComponentContainer.size_ c'
        = ComponentContainer.size_
            (ComponentContainer.new : ComponentContainer.t nat) + 1
      ∧ ComponentContainer.mapEntityToIndex_ c' !! 7
        = Some (ComponentContainer.size_
                  (ComponentContainer.new : ComponentContainer.t nat))
      ∧ ComponentContainer.get 7 c' = (Done 10%nat, c')
      ∧ ∀ e', e' ≠ 7 →
          ComponentContainer.mapEntityToIndex_ c' !! e'
          = ComponentContainer.mapEntityToIndex_
              (ComponentContainer.new : ComponentContainer.t nat) !! e'
          ∧ result (ComponentContainer.get e' c')
            = result (ComponentContainer.get e'
                        (ComponentContainer.new : ComponentContainer.t nat)).
Proof.
  split; [apply wf_new |].
  split; [reflexivity |].
  split; [reflexivity |].
  apply (insert_then_get ComponentContainer.new 7 10%nat);
    [apply wf_new | reflexivity | reflexivity].
Defined.

Lemma container_errors_witness :
  Store.wf (ComponentContainer.insert 7 10%nat ComponentContainer.new).2
  ∧ is_Some (ComponentContainer.mapEntityToIndex_
               (ComponentContainer.insert 7 10%nat
                  ComponentContainer.new).2 !! 7)
  ∧ ComponentContainer.mapEntityToIndex_
      (ComponentContainer.insert 7 10%nat ComponentContainer.new).2 !! 9
    = None
  ∧ (ComponentContainer.get 7
       (ComponentContainer.insert 7 10%nat ComponentContainer.new).2).2
    = (ComponentContainer.insert 7 10%nat ComponentContainer.new).2
  ∧ is_Some (result (ComponentContainer.get 7
                       (ComponentContainer.insert 7 10%nat
                          ComponentContainer.new).2))
  ∧ ComponentContainer.insert 7 11%nat
      (ComponentContainer.insert 7 10%nat ComponentContainer.new).2
    = (Fail DuplicateComponent,
       (ComponentContainer.insert 7 10%nat ComponentContainer.new).2)
  ∧ ComponentContainer.get 9
      (ComponentContainer.insert 7 10%nat ComponentContainer.new).2
    = (Fail MissingComponent,
       (ComponentContainer.insert 7 10%nat ComponentContainer.new).2)
  ∧ ComponentContainer.remove 9
      (ComponentContainer.insert 7 10%nat ComponentContainer.new).2
    = (Fail MissingComponent,
       (ComponentContainer.insert 7 10%nat ComponentContainer.new).2).
Proof.
  assert (Store.wf
            (ComponentContainer.insert 7 10%nat ComponentContainer.new).2)
    as Hwf by (apply wf_insert; [apply wf_new | reflexivity | reflexivity]).
  assert (is_Some (ComponentContainer.mapEntityToIndex_
                     (ComponentContainer.insert 7 10%nat
                        ComponentContainer.new).2 !! 7)) as Hmapped
    by (exists 0; vm_compute; reflexivity).
  assert (ComponentContainer.mapEntityToIndex_
            (ComponentContainer.insert 7 10%nat ComponentContainer.new).2
            !! 9 = None) as Hunmapped by (vm_compute; reflexivity).
  destruct (container_errors _ 7 11%nat Hwf) as (Hsame & Hiff & _ & Hdup).
  destruct (container_errors _ 9 11%nat Hwf) as (_ & _ & Hmiss & _).
  split; [exact Hwf |]. split; [exact Hmapped |].
  split; [exact Hunmapped |]. split; [exact Hsame |].
  split; [exact (proj2 Hiff Hmapped) |].
  split; [exact (Hdup Hmapped) |].
  exact (Hmiss Hunmapped).
Defined.

Lemma insert_then_remove_witness :
  Store.wf (ComponentContainer.insert 7 10%nat ComponentContainer.new).2
  ∧ ComponentContainer.mapEntityToIndex_
      (ComponentContainer.insert 7 10%nat ComponentContainer.new).2 !! 4
    = None
  ∧ ComponentContainer.size_
      (ComponentContainer.insert 7 10%nat ComponentContainer.new).2
    < ENTITY_MAX
  ∧ ∃ c1 c2,
      ComponentContainer.insert 4 20%nat
        (ComponentContainer.insert 7 10%nat ComponentContainer.new).2
      = (Done tt, c1)
      ∧ ComponentContainer.remove 4 c1 = (Done tt, c2)
      ∧ ComponentContainer.mapEntityToIndex_ c2
        = ComponentContainer.mapEntityToIndex_
            (ComponentContainer.insert 7 10%nat ComponentContainer.new).2
      ∧ ComponentContainer.mapIndexToEntity_ c2
        = ComponentContainer.mapIndexToEntity_
            (ComponentContainer.insert 7 10%nat ComponentContainer.new).2
      ∧ ComponentContainer.size_ c2
        = ComponentContainer.size_
            (ComponentContainer.insert 7 10%nat ComponentContainer.new).2
      ∧ ∀ e', result (ComponentContainer.get e' c2)
              = result (ComponentContainer.get e'
                          (ComponentContainer.insert 7 10%nat
                             ComponentContainer.new).2).
Proof.
  assert (Store.wf
            (ComponentContainer.insert 7 10%nat ComponentContainer.new).2)
    as Hwf by (apply wf_insert; [apply wf_new | reflexivity | reflexivity]).
  split; [exact Hwf |].
  split; [vm_compute; reflexivity |].
  split; [vm_compute; reflexivity |].
  apply (insert_then_remove _ 4 20%nat Hwf); vm_compute; reflexivity.
Defined.

Lemma destroyed_drops_entity_witness :
  Store.wf (ComponentContainer.insert 4 20%nat
              (ComponentContainer.insert 7 10%nat ComponentContainer.new).2).2
  ∧ ∃ c',
      ComponentContainer.destroyed 7
        (ComponentContainer.insert 4 20%nat
           (ComponentContainer.insert 7 10%nat ComponentContainer.new).2).2
      = (Done tt, c')
      ∧ Store.wf c'
      ∧ ComponentContainer.get 7 c' = (Fail MissingComponent, c')
      ∧ (ComponentContainer.mapEntityToIndex_
           (ComponentContainer.insert 4 20%nat
              (ComponentContainer.insert 7 10%nat
                 ComponentContainer.new).2).2 !! 7 = None →
         c' = (ComponentContainer.insert 4 20%nat
                 (ComponentContainer.insert 7 10%nat
                    ComponentContainer.new).2).2)
      ∧ ∀ e', e' ≠ 7 →
          result (ComponentContainer.get e' c')
          = result (ComponentContainer.get e'
                      (ComponentContainer.insert 4 20%nat
                         (ComponentContainer.insert 7 10%nat
                            ComponentContainer.new).2).2).
Proof.
  assert (Store.wf
            (ComponentContainer.insert 4 20%nat
               (ComponentContainer.insert 7 10%nat
                  ComponentContainer.new).2).2) as Hwf.
  { apply wf_insert; [| vm_compute; reflexivity | vm_compute; reflexivity].
    apply wf_insert; [apply wf_new | reflexivity | reflexivity]. }
  split; [exact Hwf |].
  exact (destroyed_drops_entity _ 7 Hwf).
Defined.

(** ** ComponentManager: what each operation computes *)

Section ManagerFacts.
Context {V : Type} `{Inhabited V}.
Implicit Types m : ComponentManager.t V.

Lemma getContainer_eq {A : Type} type
    (op : M (ComponentContainer.t V) A) m :
  ComponentManager.getContainer_ type op m =
    if found (ComponentManager.componentTypes_ m) type then
      match ComponentManager.componentContainer_ m !! type with
      | None => (Fail UndefinedBehaviour, m)
      | Some c =>
          ((op c).1,
           ComponentManager.mk
             (ComponentManager.componentTypes_ m)
             (<[type := (op c).2]> (ComponentManager.componentContainer_ m))
             (ComponentManager.nextType_ m))
      end
    else (Fail NotRegistered, m).
Proof.
  unfold ComponentManager.getContainer_, bind, gets, assert.
  cbn [fst snd]. destruct (found _ type); [| done].
  destruct (_ !! type) as [c |]; [| done]. by rewrite zoom_eq.
Qed.

Lemma manager_get_result type e m :
  result (ComponentManager.get type e m) =
    if found (ComponentManager.componentTypes_ m) type then
      match ComponentManager.componentContainer_ m !! type with
      | Some c => result (ComponentContainer.get e c)
      | None => None
      end
    else None.
Proof.
  unfold ComponentManager.get. rewrite getContainer_eq.
  destruct (found _ type); [| done]. by destruct (_ !! type).
Qed.

Lemma directory_wf_new :
  Directory.wf (ComponentManager.new : ComponentManager.t V).
Proof.
  split; unfold ComponentManager.new;
    cbn [ComponentManager.componentTypes_
         ComponentManager.componentContainer_].
  - intros t. by rewrite !lookup_empty.
  - intros t c. by rewrite lookup_empty.
Qed.

Lemma directory_wf_install type m :
  Directory.wf m →
  ComponentManager.componentTypes_ m !! type = None →
  ComponentManager.install type m
  = (Done tt,
     ComponentManager.mk
       (<[type := ComponentManager.nextType_ m]>
          (ComponentManager.componentTypes_ m))
       (<[type := ComponentContainer.new]>
          (ComponentManager.componentContainer_ m))
       (incr (ComponentManager.nextType_ m)))
  ∧ Directory.wf (ComponentManager.install type m).2.
Proof.
  intros [Hal Hst] Hfresh.
  assert (ComponentManager.componentContainer_ m !! type = None) as Hnone.
  { apply eq_None_not_Some. rewrite <- Hal, Hfresh. by intros [? ?]. }
  rewrite component_install_eq.
  rewrite (proj2 (found_false _ _) Hfresh), Hnone. split; [done |].
  cbn [snd]. split; cbn [ComponentManager.componentTypes_
                         ComponentManager.componentContainer_].
  - intros t. rewrite !lookup_insert_is_Some. by rewrite Hal.
  - intros t c [[_ <-] | [_ Hc]]%lookup_insert_Some;
      [apply wf_new | by eapply Hst].
Qed.

Lemma directory_wf_update type (c c' : ComponentContainer.t V) m :
  Directory.wf m →
  ComponentManager.componentContainer_ m !! type = Some c →
  Store.wf c' →
  Directory.wf
    (ComponentManager.mk
       (ComponentManager.componentTypes_ m)
       (<[type := c']> (ComponentManager.componentContainer_ m))
       (ComponentManager.nextType_ m)).
Proof.
  intros [Hal Hst] Hc Hwf'.
  split; cbn [ComponentManager.componentTypes_
              ComponentManager.componentContainer_].
  - intros t. rewrite lookup_insert_is_Some, Hal. split.
    + intros Ht. destruct (decide (type = t)); [by left | by right].
    + intros [<- | [_ ?]]; [by eexists | done].
  - intros t c0 [[_ <-] | [_ Hc0]]%lookup_insert_Some;
      [done | by eapply Hst].
Qed.

(** Installing a list of fresh, distinct types one after the other. *)
Lemma install_all_spec (ts : list string) m :
  NoDup ts →
  (∀ t, t ∈ ts → ComponentManager.componentTypes_ m !! t = None) →
  ComponentManager.nextType_ m + N.of_nat (length ts) < WORD →
  Directory.wf m →
  ∃ m',
    for_each ts ComponentManager.install m = (Done tt, m')
    ∧ ComponentManager.nextType_ m'
      = ComponentManager.nextType_ m + N.of_nat (length ts)
    ∧ (∀ k t, ts !! k = Some t →
         ComponentManager.componentTypes_ m' !! t
         = Some (ComponentManager.nextType_ m + N.of_nat k))
    ∧ (∀ t, t ∉ ts →
         ComponentManager.componentTypes_ m' !! t
         = ComponentManager.componentTypes_ m !! t)
    ∧ Directory.wf m'.
Proof.
  revert m. induction ts as [| type ts IH]; intros m Hnd Hfresh Hroom Hwf.
  { exists m. split; [done |]. cbn [length]. split; [lia |].
    split; [intros k t Hk; by rewrite lookup_nil in Hk |]. done. }
  apply NoDup_cons in Hnd as [Hout Hnd]. cbn [length] in Hroom.
  destruct (directory_wf_install type m Hwf (Hfresh _ ltac:(by left)))
    as [Hrun Hwf1].
  rewrite Hrun in Hwf1. cbn [snd] in Hwf1.
  assert (incr (ComponentManager.nextType_ m)
          = ComponentManager.nextType_ m + 1) as Hincr
    by (unfold incr; apply N.mod_small; lia).
  rewrite Hincr in *.
  set (m1 := ComponentManager.mk _ _ _) in *.
  destruct (IH m1 Hnd) as (m' & Hloop & Hnext & Hids & Hrest & Hwf');
    [| | exact Hwf1 |].
  { intros t Ht. subst m1. cbn [ComponentManager.componentTypes_].
    rewrite lookup_insert_ne by (by intros ->). apply Hfresh. by right. }
  { subst m1. cbn [ComponentManager.nextType_]. lia. }
  exists m'. cbn [for_each]. rewrite (bind_done _ _ m tt m1 Hrun).
  split; [exact Hloop |].
  subst m1. cbn [ComponentManager.nextType_ ComponentManager.componentTypes_]
    in *.
  split; [rewrite Hnext; cbn [length]; lia |]. split; [| split; [| done]].
  - intros [| k] t Hk; cbn in Hk.
    + injection Hk as <-. rewrite Hrest by done.
      rewrite lookup_insert_eq. f_equal. lia.
    + rewrite (Hids _ _ Hk). f_equal. lia.
  - intros t Ht. apply not_elem_of_cons in Ht as [Hne Ht].
    rewrite Hrest by done. by apply lookup_insert_ne.
Qed.

End ManagerFacts.

(** ** ComponentManager: type ids, storage and destruction *)

Section ManagerProperties.
Context {V : Type} `{Inhabited V}.
Implicit Types m : ComponentManager.t V.

(** X9: type ids follow the order of registration.  Installing distinct
    component types on a fresh manager succeeds for each of them; the type
    installed at position [k] gets id [k], so distinct types have distinct
    ids; a type that was not installed is reported as [NotRegistered], and
    installing any of the types again fails with [DuplicateRegistration];
    neither failure changes the manager. *)
Theorem type_ids_follow_registration (ts : list string) :
  NoDup ts →
  N.of_nat (length ts) < WORD →
  ∃ m : ComponentManager.t V,
    for_each ts ComponentManager.install ComponentManager.new = (Done tt, m)
    ∧ ComponentManager.nextType_ m = N.of_nat (length ts)
    ∧ (∀ k t, ts !! k = Some t →
         ComponentManager.getType t m = (Done (N.of_nat k), m))
    ∧ (∀ t, t ∉ ts →
         ComponentManager.getType t m = (Fail NotRegistered, m))
    ∧ (∀ t, t ∈ ts →
         ComponentManager.install t m = (Fail DuplicateRegistration, m)).
Proof.
  intros Hnd Hlen.
  destruct (install_all_spec ts
              (ComponentManager.new : ComponentManager.t V) Hnd)
    as (m & Hrun & Hnext & Hids & Hrest & Hwf).
  { intros t _. apply lookup_empty. }
  { exact Hlen. }
  { apply directory_wf_new. }
  exists m. split; [exact Hrun |]. split; [exact Hnext |].
  split; [| split].
  - intros k t Hk. rewrite getType_eq, (Hids k t Hk). done.
  - intros t Ht. rewrite getType_eq, (Hrest t Ht). done.
  - intros t [k Hk]%list_elem_of_lookup.
    rewrite component_install_eq.
    rewrite (proj2 (found_true _ _)); [done |].
    rewrite (Hids k t Hk). by eexists.
Qed.

(** X10: [add] and [get] are a round trip through the manager.  For a
    registered type whose container does not map the entity and is not
    full, [add] succeeds, a following [get] returns the added value and
    changes nothing, the manager's invariant is kept, and the registered
    types and the containers of the other types are untouched. *)
Theorem add_then_get m (type : string) (e : Entity) (v : V)
    (c : ComponentContainer.t V) :
  Directory.wf m →
  found (ComponentManager.componentTypes_ m) type = true →
  ComponentManager.componentContainer_ m !! type = Some c →
  ComponentContainer.mapEntityToIndex_ c !! e = None →
  ComponentContainer.size_ c < ENTITY_MAX →
  ∃ m',
    ComponentManager.add type e v m = (Done tt, m')
    ∧ ComponentManager.get type e m' = (Done v, m')
    ∧ Directory.wf m'
    ∧ ComponentManager.componentTypes_ m'
      = ComponentManager.componentTypes_ m
    ∧ ∀ t, t ≠ type →
        ComponentManager.componentContainer_ m' !! t
        = ComponentManager.componentContainer_ m !! t.
Proof.
  intros Hwf Hreg Hc Hfresh Hroom.
  pose proof (Directory.wf_stores _ Hwf _ _ Hc) as Hwfc.
  destruct (wf_insert c e v Hwfc Hfresh Hroom) as [Hdone Hwfc'].
  destruct (ComponentContainer.insert e v c) as [o c'] eqn:Hins.
  cbn [fst snd] in *. subst o.
  assert (ComponentContainer.get e c' = (Done v, c')) as Hget.
  { revert Hins. rewrite insert_eq. cbn zeta. rewrite Hfresh.
    destruct (_ <=? _) eqn:Hin; [done |]. apply N.leb_gt in Hin.
    intros [= <-]. rewrite get_eq.
    cbn [ComponentContainer.mapEntityToIndex_ ComponentContainer.components_].
    rewrite lookup_insert_eq, list_lookup_insert_eq by lia. done. }
  eexists. split.
  { unfold ComponentManager.add. rewrite getContainer_eq, Hreg, Hc, Hins.
    reflexivity. }
  cbn [fst snd]. split.
  { unfold ComponentManager.get. rewrite getContainer_eq.
    cbn [ComponentManager.componentTypes_
         ComponentManager.componentContainer_ ComponentManager.nextType_].
    rewrite Hreg, lookup_insert_eq, Hget. cbn [fst snd].
    by rewrite insert_insert_eq. }
  split; [| split; [done |]].
  - by apply (directory_wf_update type c).
  - intros t Hne. cbn [ComponentManager.componentContainer_].
    by apply lookup_insert_ne.
Qed.

Lemma manager_destroyed_loop (e : Entity)
    (l : list (string * ComponentContainer.t V)) m :
  NoDup l.*1 →
  (∀ p, p ∈ l → Store.wf p.2) →
  ∃ m',
    for_each l (λ pair,
      zoom (λ _, pair.2)
           (λ c m, ComponentManager.mk
                     (ComponentManager.componentTypes_ m)
                     (<[pair.1 := c]> (ComponentManager.componentContainer_ m))
                     (ComponentManager.nextType_ m))
           (ComponentContainer.destroyed e)) m
    = (Done tt, m')
    ∧ ComponentManager.componentTypes_ m'
      = ComponentManager.componentTypes_ m
    ∧ ComponentManager.nextType_ m' = ComponentManager.nextType_ m
    ∧ ∀ t, ComponentManager.componentContainer_ m' !! t =
           match (list_to_map l : gmap string _) !! t with
           | Some c => Some (ComponentContainer.destroyed e c).2
           | None => ComponentManager.componentContainer_ m !! t
           end.
Proof.
  revert m. induction l as [| [k c] l IH]; intros m Hnd Hwf.
  { exists m. split_and!; try done; intros t; cbn [list_to_map foldr];
      by rewrite lookup_empty. }
  cbn [fmap list_fmap fst] in Hnd. apply NoDup_cons in Hnd as [Hfresh Hnd].
  destruct (destroyed_wf c e (Hwf (k, c) ltac:(by left))) as (Hdone & _).
  set (m1 := ComponentManager.mk
               (ComponentManager.componentTypes_ m)
               (<[k := (ComponentContainer.destroyed e c).2]>
                  (ComponentManager.componentContainer_ m))
               (ComponentManager.nextType_ m)).
  destruct (IH m1 Hnd) as (m' & Hloop & Hty & Hnx & Hct).
  { intros p Hp. apply Hwf. by right. }
  exists m'. cbn [for_each]. rewrite (bind_done _ _ m tt m1).
  2:{ rewrite zoom_eq. cbn [fst snd]. by rewrite Hdone. }
  split; [exact Hloop |]. split; [exact Hty |]. split; [exact Hnx |].
  intros t. rewrite Hct. subst m1.
  cbn [list_to_map foldr fst snd ComponentManager.componentContainer_].
  destruct (decide (t = k)) as [-> | Hne].
  - rewrite (not_elem_of_list_to_map_1 _ _ Hfresh).
    by rewrite !lookup_insert_eq.
  - by rewrite !lookup_insert_ne.
Qed.

Lemma manager_destroyed_spec (e : Entity) m :
  Directory.wf m →
  ∃ m',
    ComponentManager.destroyed e m = (Done tt, m')
    ∧ ComponentManager.componentTypes_ m'
      = ComponentManager.componentTypes_ m
    ∧ ComponentManager.nextType_ m' = ComponentManager.nextType_ m
    ∧ ∀ t, ComponentManager.componentContainer_ m' !! t
           = (λ c, (ComponentContainer.destroyed e c).2)
             <$> ComponentManager.componentContainer_ m !! t.
Proof.
  intros [Hal Hst].
  destruct (manager_destroyed_loop e
              (map_to_list (ComponentManager.componentContainer_ m)) m
              (NoDup_fst_map_to_list _))
    as (m' & Hrun & Hty & Hnx & Hct).
  { intros [k c] Hp%elem_of_map_to_list. by eapply Hst. }
  exists m'. split; [exact Hrun |]. split; [exact Hty |].
  split; [exact Hnx |]. intros t.
  rewrite Hct, list_to_map_to_list.
  by destruct (ComponentManager.componentContainer_ m !! t).
Qed.

(** X11: [destroyed] drops the entity from every container.  On a manager
    that satisfies its invariant it succeeds and keeps the invariant and the
    registered types; afterwards [get] finds no component of the destroyed
    entity under any type, and returns for every other entity what it
    returned before. *)
Theorem manager_destroyed_drops_entity m (e : Entity) :
  Directory.wf m →
  ∃ m',
    ComponentManager.destroyed e m = (Done tt, m')
    ∧ Directory.wf m'
    ∧ ComponentManager.componentTypes_ m'
      = ComponentManager.componentTypes_ m
    ∧ (∀ t, result (ComponentManager.get t e m') = None)
    ∧ ∀ t e', e' ≠ e →
        result (ComponentManager.get t e' m')
        = result (ComponentManager.get t e' m).
Proof.
  intros Hwf.
  destruct (manager_destroyed_spec e m Hwf) as (m' & Hrun & Hty & Hnx & Hct).
  destruct Hwf as [Hal Hst].
  exists m'. split; [exact Hrun |]. split; [| split; [exact Hty |]; split].
  - split.
    + intros t. rewrite Hty, Hct, Hal.
      destruct (ComponentManager.componentContainer_ m !! t);
        cbn [fmap option_fmap option_map]; split; intros [? ?];
        by (eexists || done).
    + intros t c'. rewrite Hct.
      destruct (ComponentManager.componentContainer_ m !! t) as [c |] eqn:Hc;
        cbn [fmap option_fmap option_map]; [| done].
      intros [= <-]. by apply destroyed_wf, (Hst t).
  - intros t. rewrite manager_get_result, Hty, Hct.
    destruct (found _ t); [| done].
    destruct (ComponentManager.componentContainer_ m !! t) as [c |] eqn:Hc;
      cbn [fmap option_fmap option_map]; [| done].
    destruct (destroyed_wf c e (Hst t c Hc)) as (_ & _ & Hgone & _).
    by rewrite get_eq, Hgone.
  - intros t e' Hne. rewrite !manager_get_result, Hty, Hct.
    destruct (found _ t); [| done].
    destruct (ComponentManager.componentContainer_ m !! t) as [c |] eqn:Hc;
      cbn [fmap option_fmap option_map]; [| done].
    destruct (destroyed_wf c e (Hst t c Hc)) as (_ & _ & _ & _ & Hkeep).
    by apply Hkeep.
Qed.

End ManagerProperties.

Lemma type_ids_follow_registration_witness :
  NoDup ["Position"; "Velocity"]
  ∧ N.of_nat (length ["Position"; "Velocity"]) < WORD
  ∧ ∃ m : ComponentManager.t nat,
      for_each ["Position"; "Velocity"] ComponentManager.install
               ComponentManager.new = (Done tt, m)
      ∧ ComponentManager.nextType_ m
        = N.of_nat (length ["Position"; "Velocity"])
      ∧ (∀ k t, ["Position"; "Velocity"] !! k = Some t →
           ComponentManager.getType t m = (Done (N.of_nat k), m))
      ∧ (∀ t, t ∉ ["Position"; "Velocity"] →
           ComponentManager.getType t m = (Fail NotRegistered, m))
      ∧ (∀ t, t ∈ ["Position"; "Velocity"] →
           ComponentManager.install t m = (Fail DuplicateRegistration, m)).
Proof.
  assert (NoDup ["Position"; "Velocity"]) as Hnd
    by (apply (bool_decide_unpack (NoDup ["Position"; "Velocity"]));
        vm_compute; exact I).
  split; [exact Hnd |].
  split; [reflexivity |].
  apply (type_ids_follow_registration ["Position"; "Velocity"] Hnd).
  reflexivity.
Defined.

Lemma add_then_get_witness :
  Directory.wf
    (ComponentManager.install "Position"
       (ComponentManager.new : ComponentManager.t nat)).2
  ∧ found (ComponentManager.componentTypes_
             (ComponentManager.install "Position"
                (ComponentManager.new : ComponentManager.t nat)).2)
          "Position" = true
  ∧ ComponentManager.componentContainer_
      (ComponentManager.install "Position"
         (ComponentManager.new : ComponentManager.t nat)).2 !! "Position"
    = Some ComponentContainer.new
  ∧ ComponentContainer.mapEntityToIndex_
      (ComponentContainer.new : ComponentContainer.t nat) !! 7 = None
  ∧ ComponentContainer.size_
      (ComponentContainer.new : ComponentContainer.t nat) < ENTITY_MAX
  ∧ ∃ m',
      ComponentManager.add "Position" 7 10%nat
        (ComponentManager.install "Position"
           (ComponentManager.new : ComponentManager.t nat)).2
      = (Done tt, m')
      ∧ ComponentManager.get "Position" 7 m' = (Done 10%nat, m')
      ∧ Directory.wf m'
      ∧ ComponentManager.componentTypes_ m'
        = ComponentManager.componentTypes_
            (ComponentManager.install "Position"
               (ComponentManager.new : ComponentManager.t nat)).2
      ∧ ∀ t, t ≠ "Position" →
          ComponentManager.componentContainer_ m' !! t
          = ComponentManager.componentContainer_
              (ComponentManager.install "Position"
                 (ComponentManager.new : ComponentManager.t nat)).2 !! t.
Proof.
  assert (Directory.wf
            (ComponentManager.install "Position"
               (ComponentManager.new : ComponentManager.t nat)).2) as Hwf
    by (apply directory_wf_install; [apply directory_wf_new | reflexivity]).
  split; [exact Hwf |].
  split; [vm_compute; reflexivity |].
  split; [vm_compute; reflexivity |].
  split; [reflexivity |].
  split; [reflexivity |].
  apply (add_then_get _ "Position" 7 10%nat ComponentContainer.new Hwf);
    [vm_compute; reflexivity | vm_compute; reflexivity | reflexivity
    | reflexivity].
Defined.

Lemma manager_destroyed_drops_entity_witness :
  Directory.wf
    (ComponentManager.add "Position" 7 10%nat
       (ComponentManager.install "Position"
          (ComponentManager.new : ComponentManager.t nat)).2).2
  ∧ ∃ m',
      ComponentManager.destroyed 7
        (ComponentManager.add "Position" 7 10%nat
           (ComponentManager.install "Position"
              (ComponentManager.new : ComponentManager.t nat)).2).2
      = (Done tt, m')
      ∧ Directory.wf m'
      ∧ ComponentManager.componentTypes_ m'
        = ComponentManager.componentTypes_
            (ComponentManager.add "Position" 7 10%nat
               (ComponentManager.install "Position"
                  (ComponentManager.new : ComponentManager.t nat)).2).2
      ∧ (∀ t, result (ComponentManager.get t 7 m') = None)
      ∧ ∀ t e', e' ≠ 7 →
          result (ComponentManager.get t e' m')
          = result (ComponentManager.get t e'
                      (ComponentManager.add "Position" 7 10%nat
                         (ComponentManager.install "Position"
                            (ComponentManager.new
                             : ComponentManager.t nat)).2).2).
Proof.
  assert (Directory.wf
            (ComponentManager.add "Position" 7 10%nat
               (ComponentManager.install "Position"
                  (ComponentManager.new : ComponentManager.t nat)).2).2)
    as Hwf.
  { unfold ComponentManager.add. rewrite getContainer_eq.
    assert (Directory.wf
              (ComponentManager.install "Position"
                 (ComponentManager.new : ComponentManager.t nat)).2) as Hwf0
      by (apply directory_wf_install; [apply directory_wf_new | reflexivity]).
    change (found _ "Position") with true. cbn iota.
    change (ComponentManager.componentContainer_ _ !! "Position")
      with (Some (ComponentContainer.new : ComponentContainer.t nat)).
    cbn [snd].
    apply (directory_wf_update "Position" ComponentContainer.new _ _ Hwf0).
    - vm_compute. reflexivity.
    - apply wf_insert; [apply wf_new | reflexivity | reflexivity]. }
  split; [exact Hwf |].
  exact (manager_destroyed_drops_entity _ 7 Hwf).
Defined.

(** ** SystemManager: masks, notifications and destruction *)

(** X12: a notification fixes the masks.  [signatureChanged] reads the mask
    of every installed system through [signatures_[type]], which stores the
    empty mask for a system that has none; since [signature] keeps a stored
    mask, setting the mask of any installed system after a notification
    succeeds and changes nothing. *)
Theorem notification_fixes_masks (m : SystemManager.t) (e : Entity)
    (sg mask : Signature) (t : string) :
  found (SystemManager.systems_ m) t = true →
  SystemManager.signatures_ (SystemManager.signatureChanged e sg m).2 !! t
  = Some (default Bitset.zero (SystemManager.signatures_ m !! t))
  ∧ SystemManager.signature t mask (SystemManager.signatureChanged e sg m).2
    = (Done tt, (SystemManager.signatureChanged e sg m).2).
Proof.
  intros Hfound.
  destruct (signatureChanged_spec e sg m) as (m' & -> & Hsys & Hsig).
  cbn [snd]. pose proof (Hsig t) as Hmask. rewrite Hfound in Hmask.
  split; [exact Hmask |].
  eapply system_signature_keeps_mask; [| exact Hmask].
  apply found_true. rewrite Hsys.
  apply found_true in Hfound as [s ->]. by eexists.
Qed.

Lemma notification_fixes_masks_witness :
  found (SystemManager.systems_
           (SystemManager.install "S" SystemManager.new).2) "S" = true
  ∧ SystemManager.signatures_
      (SystemManager.signatureChanged 7 1
         (SystemManager.install "S" SystemManager.new).2).2 !! "S"
    = Some (default Bitset.zero
              (SystemManager.signatures_
                 (SystemManager.install "S" SystemManager.new).2 !! "S"))
  ∧ SystemManager.signature "S" 1
      (SystemManager.signatureChanged 7 1
         (SystemManager.install "S" SystemManager.new).2).2
    = (Done tt,
       (SystemManager.signatureChanged 7 1
          (SystemManager.install "S" SystemManager.new).2).2).
Proof.
  split; [vm_compute; reflexivity |].
  apply (notification_fixes_masks
           (SystemManager.install "S" SystemManager.new).2 7 1 1 "S").
  vm_compute. reflexivity.
Defined.

(** X13: [entityDestroyed] removes the entity from every system and does
    nothing else.  It never fails; every installed system keeps its other
    members and loses exactly the destroyed entity, no system appears or
    disappears, the masks are untouched, and a second call changes
    nothing. *)
Theorem entityDestroyed_erases_everywhere (m : SystemManager.t)
    (e : Entity) :
  ∃ m',
    SystemManager.entityDestroyed e m = (Done tt, m')
    ∧ SystemManager.signatures_ m' = SystemManager.signatures_ m
    ∧ (∀ t, System.entities <$> SystemManager.systems_ m' !! t
            = (λ s, System.entities s ∖ {[e]})
              <$> SystemManager.systems_ m !! t)
    ∧ SystemManager.entityDestroyed e m' = (Done tt, m').
Proof.
  destruct (entityDestroyed_spec e m) as (m' & Hrun & Hsig & Hsys).
  exists m'. split; [exact Hrun |]. split; [exact Hsig |]. split.
  - intros t. rewrite Hsys. by destruct (SystemManager.systems_ m !! t).
  - destruct (entityDestroyed_spec e m') as (m'' & Hrun' & Hsig' & Hsys').
    rewrite Hrun'. f_equal.
    destruct m' as [sigs' syss'], m'' as [sigs'' syss''].
    cbn [SystemManager.signatures_ SystemManager.systems_] in *.
    subst sigs''. f_equal. apply map_eq. intros t.
    rewrite Hsys', Hsys.
    destruct (SystemManager.systems_ m !! t) as [[members] |];
      cbn [fmap option_fmap option_map]; [| done].
    unfold System.erase. cbn [System.entities]. do 2 f_equal.
    apply set_eq. intros x. rewrite !elem_of_difference. tauto.
Qed.

(** X14: [install] and the first [signature].  Installing a system that is
    not yet installed and has no stored mask succeeds and creates it with an
    empty entity set; a following [signature] stores the given mask; the
    other systems and masks are untouched; and installing the system a
    second time fails with [DuplicateRegistration] and changes nothing. *)
Theorem install_then_signature (m : SystemManager.t) (type : string)
    (sg : Signature) :
  SystemManager.systems_ m !! type = None →
  SystemManager.signatures_ m !! type = None →
  ∃ m1 m2,
    SystemManager.install type m = (Done type, m1)
    ∧ SystemManager.signature type sg m1 = (Done tt, m2)
    ∧ SystemManager.systems_ m2 !! type = Some System.new
    ∧ SystemManager.signatures_ m2 !! type = Some sg
    ∧ (∀ t, t ≠ type →
         SystemManager.systems_ m2 !! t = SystemManager.systems_ m !! t
         ∧ SystemManager.signatures_ m2 !! t
           = SystemManager.signatures_ m !! t)
    ∧ SystemManager.install type m1 = (Fail DuplicateRegistration, m1)
    ∧ SystemManager.install type m2 = (Fail DuplicateRegistration, m2).
Proof.
  intros Hsys Hsig. eexists. eexists.
  rewrite !system_install_eq, (proj2 (found_false _ _) Hsys).
  split; [reflexivity |].
  rewrite system_signature_eq.
  cbn [SystemManager.systems_ SystemManager.signatures_].
  assert (found (<[type := System.new]> (SystemManager.systems_ m)) type
          = true) as Hfound
    by (apply found_true; rewrite lookup_insert_eq; by eexists).
  rewrite Hfound, Hsig. split; [reflexivity |].
  cbn [SystemManager.systems_ SystemManager.signatures_].
  rewrite !lookup_insert_eq, Hfound. split_and!; try done.
  intros t Hne. by rewrite !lookup_insert_ne.
Qed.

Lemma install_then_signature_witness :
  SystemManager.systems_ SystemManager.new !! "S" = None
  ∧ SystemManager.signatures_ SystemManager.new !! "S" = None
  ∧ ∃ m1 m2,
      SystemManager.install "S" SystemManager.new = (Done "S", m1)
      ∧ SystemManager.signature "S" 3 m1 = (Done tt, m2)
      ∧ SystemManager.systems_ m2 !! "S" = Some System.new
      ∧ SystemManager.signatures_ m2 !! "S" = Some 3
      ∧ (∀ t, t ≠ "S" →
           SystemManager.systems_ m2 !! t
           = SystemManager.systems_ SystemManager.new !! t
           ∧ SystemManager.signatures_ m2 !! t
             = SystemManager.signatures_ SystemManager.new !! t)
      ∧ SystemManager.install "S" m1 = (Fail DuplicateRegistration, m1)
      ∧ SystemManager.install "S" m2 = (Fail DuplicateRegistration, m2).
Proof.
  split; [reflexivity |].
  split; [reflexivity |].
  apply (install_then_signature SystemManager.new "S" 3); reflexivity.
Defined.

(** X15: a notification is idempotent and touches one entity.  It never
    fails and keeps the installed systems; repeating it with the same
    entity and signature changes nothing; and it changes the membership of
    no other entity. *)
Theorem signatureChanged_idempotent (m : SystemManager.t) (e : Entity)
    (sg : Signature) :
  ∃ m',
    SystemManager.signatureChanged e sg m = (Done tt, m')
    ∧ SystemManager.signatureChanged e sg m' = (Done tt, m')
    ∧ (∀ t, is_Some (SystemManager.systems_ m' !! t)
            ↔ is_Some (SystemManager.systems_ m !! t))
    ∧ ∀ t s s' x,
        SystemManager.systems_ m !! t = Some s →
        SystemManager.systems_ m' !! t = Some s' →
        x ≠ e →
        x ∈ System.entities s' ↔ x ∈ System.entities s.
Proof.
  destruct (signatureChanged_spec e sg m) as (m' & Hrun & Hsys & Hsig).
  exists m'. split; [exact Hrun |]. split; [| split].
  - destruct (signatureChanged_spec e sg m') as (m'' & Hrun' & Hsys' & Hsig').
    rewrite Hrun'. f_equal.
    destruct m' as [sigs' syss'], m'' as [sigs'' syss''].
    cbn [SystemManager.signatures_ SystemManager.systems_] in *.
    f_equal; apply map_eq; intros t.
    + rewrite Hsig'.
      destruct (found syss' t) eqn:Hfound; [| done].
      apply found_true in Hfound. rewrite Hsys in Hfound.
      rewrite Hsig.
      destruct (found (SystemManager.systems_ m) t) eqn:Hfound0.
      * done.
      * apply found_false in Hfound0. rewrite Hfound0 in Hfound.
        by destruct Hfound.
    + rewrite Hsys', Hsys, Hsig.
      destruct (SystemManager.systems_ m !! t) as [[members] |] eqn:Hs;
        cbn [fmap option_fmap option_map]; [| done].
      rewrite (proj2 (found_true _ _)) by (by eexists).
      cbn [from_option id].
      destruct (SystemManager.matches _ _);
        unfold System.insert, System.erase; cbn [System.entities];
        do 2 f_equal; apply set_eq; intros x.
      * rewrite !elem_of_union. tauto.
      * rewrite !elem_of_difference. tauto.
  - intros t. rewrite Hsys. split; intros [s Hs].
    + destruct (SystemManager.systems_ m !! t); [by eexists | done].
    + rewrite Hs. by eexists.
  - intros t s s' x Hs Hs' Hne. rewrite Hsys, Hs in Hs'.
    cbn [fmap option_fmap option_map] in Hs'. injection Hs' as <-.
    destruct (SystemManager.matches _ _);
      cbn [System.insert System.erase System.entities].
    + rewrite elem_of_union, elem_of_singleton. split; [| auto].
      intros [? | ?]; done.
    + rewrite elem_of_difference, elem_of_singleton. split; [by intros [? _] |].
      intros Hx. by split.
Qed.

(** ** Registry: the invariants of the facade *)

Section FacadeInvariants.
Context {V : Type} `{Inhabited V}.
Implicit Types r : Registry.t V.

Lemma entityDestroy_done_full e r r' :
  Registry.entityDestroy e r = (Done tt, r') →
  e < ENTITY_MAX
  ∧ Registry.entityManager_ r'
    = (EntityManager.destroy e (Registry.entityManager_ r)).2
  ∧ ComponentManager.destroyed e (Registry.componentManager_ r)
    = (Done tt, Registry.componentManager_ r')
  ∧ SystemManager.entityDestroyed e (Registry.systemManager_ r)
    = (Done tt, Registry.systemManager_ r').
Proof.
  unfold Registry.entityDestroy, Registry.components, Registry.entities,
    Registry.systems.
  intros Hrun.
  apply bind_inv in Hrun as ([] & r1 & Hdestroy & Hrun).
  apply zoom_inv in Hdestroy as (em1 & Hdestroy & ->).
  pose proof Hdestroy as Hd. rewrite destroy_eq in Hd.
  destruct (e <? ENTITY_MAX) eqn:He; [| done]. apply N.ltb_lt in He.
  apply bind_inv in Hrun as ([] & r2 & Hstores & Hrun).
  apply zoom_inv in Hstores as (cm2 & Hstores & ->).
  apply zoom_inv in Hrun as (sm3 & Hrun & ->).
  cbn [Registry.componentManager_ Registry.entityManager_
       Registry.systemManager_] in *.
  by rewrite Hdestroy.
Qed.

Lemma entityCreate_done_full e r r' :
  Registry.entityCreate r = (Done e, r') →
  EntityManager.create (Registry.entityManager_ r)
  = (Done e, Registry.entityManager_ r')
  ∧ Registry.componentManager_ r' = Registry.componentManager_ r
  ∧ Registry.systemManager_ r' = Registry.systemManager_ r.
Proof.
  unfold Registry.entityCreate, Registry.entities. intros Hrun.
  by apply zoom_inv in Hrun as (em1 & Hcreate & ->).
Qed.

Lemma stores_untouched_new :
  Facade.stores_untouched (Registry.new : Registry.t V).
Proof.
  split; unfold Registry.new, ComponentManager.new;
    cbn [Registry.componentManager_ ComponentManager.componentTypes_
         ComponentManager.componentContainer_].
  - intros t. by rewrite !lookup_empty.
  - intros t c. by rewrite lookup_empty.
Qed.

Lemma stores_untouched_wf r :
  Facade.stores_untouched r → Directory.wf (Registry.componentManager_ r).
Proof.
  intros [Hal Hnew]. split; [exact Hal |].
  intros t c ->%Hnew. apply wf_new.
Qed.

Lemma stores_untouched_install type r (cm : ComponentManager.t V) :
  Facade.stores_untouched r →
  ComponentManager.install type (Registry.componentManager_ r)
  = (Done tt, cm) →
  Facade.stores_untouched
    (Registry.mk cm (Registry.entityManager_ r) (Registry.systemManager_ r)).
Proof.
  intros Hinv Hrun. pose proof (stores_untouched_wf r Hinv) as Hwf.
  destruct Hinv as [Hal Hnew].
  pose proof Hrun as Hrun'. rewrite component_install_eq in Hrun'.
  destruct (found _ type) eqn:Hfound; [done |]. clear Hrun'.
  apply found_false in Hfound.
  destruct (directory_wf_install type _ Hwf Hfound) as [Heq _].
  rewrite Heq in Hrun. injection Hrun as <-.
  split; cbn [Registry.componentManager_ ComponentManager.componentTypes_
              ComponentManager.componentContainer_].
  - intros t. rewrite !lookup_insert_is_Some. by rewrite Hal.
  - intros t c [[_ <-] | [_ Hc]]%lookup_insert_Some; [done | by eapply Hnew].
Qed.

(** In a registry whose containers are untouched, [remove] and [get] of
    the component manager fail for every type and entity. *)
Lemma stores_untouched_no_component {A : Type} type r
    (op : M (ComponentContainer.t V) A) :
  Facade.stores_untouched r →
  (op ComponentContainer.new).1 = Fail MissingComponent →
  (ComponentManager.getContainer_ type op (Registry.componentManager_ r)).1
  = Fail (if found (ComponentManager.componentTypes_
                      (Registry.componentManager_ r)) type
          then MissingComponent else NotRegistered).
Proof.
  intros [Hal Hnew] Hop. rewrite getContainer_eq.
  destruct (found _ type) eqn:Hfound; [| done].
  apply found_true, Hal in Hfound as [c Hc].
  rewrite Hc. cbn [fst]. by rewrite (Hnew _ _ Hc).
Qed.

Lemma stores_untouched_step (c : Facade.Call V) r r' :
  Facade.stores_untouched r →
  Facade.call c r = (Done tt, r') →
  Facade.stores_untouched r'.
Proof.
  intros Hinv Hcall.
  destruct c as [| e | type e v | type e | type | type | type sg];
    cbn [Facade.call] in Hcall.
  - apply bind_inv in Hcall as (e & r1 & Hcreate & [= <-]).
    apply entityCreate_done_full in Hcreate as (_ & Hcm & _).
    unfold Facade.stores_untouched. by rewrite Hcm.
  - apply entityDestroy_done_full in Hcall as (_ & _ & Hcm & _).
    destruct (manager_destroyed_spec e _ (stores_untouched_wf r Hinv))
      as (cm' & Hrun & Hty & _ & Hct).
    rewrite Hcm in Hrun. injection Hrun as <-.
    destruct Hinv as [Hal Hnew]. split.
    + intros t. rewrite Hty, Hct, Hal.
      destruct (ComponentManager.componentContainer_ _ !! t);
        cbn [fmap option_fmap option_map]; split; intros [? ?];
        by (eexists || done).
    + intros t c'. rewrite Hct.
      destruct (ComponentManager.componentContainer_ _ !! t) as [c |] eqn:Hc;
        cbn [fmap option_fmap option_map]; [| done].
      intros [= <-]. rewrite (Hnew _ _ Hc). by rewrite destroyed_eq.
  - apply componentAdd_done in Hcall as (sig & Hfresh & _ & _ & _ & Hcm & _).
    assert (ComponentManager.install type (Registry.componentManager_ r)
            = (Done tt, Registry.componentManager_ r')) as Hinstall
      by (by rewrite Hcm, component_install_eq, Hfresh).
    exact (stores_untouched_install type r _ Hinv Hinstall).
  - exfalso. unfold Registry.componentRemove, Registry.components in Hcall.
    apply bind_inv in Hcall as ([] & r1 & Hremove & _).
    apply zoom_inv in Hremove as (cm1 & Hremove & _).
    pose proof (stores_untouched_no_component type r
                  (ComponentContainer.remove e) Hinv eq_refl) as Hfail.
    unfold ComponentManager.remove in Hremove.
    by rewrite Hremove in Hfail.
  - unfold Registry.componentInstall, Registry.components in Hcall.
    apply zoom_inv in Hcall as (cm1 & Hinstall & ->).
    by apply (stores_untouched_install type).
  - apply bind_inv in Hcall as (k & r1 & Hinstall & [= <-]).
    unfold Registry.systemInstall, Registry.systems in Hinstall.
    by apply zoom_inv in Hinstall as (sm1 & _ & ->).
  - unfold Registry.systemSignature, Registry.systems in Hcall.
    by apply zoom_inv in Hcall as (sm1 & _ & ->).
Qed.

Lemma allocator_inv_step (c : Facade.Call V) r r' :
  Facade.stores_untouched r →
  AllocatorInv.inv (Registry.entityManager_ r) →
  Facade.admissible c r = true →
  Facade.call c r = (Done tt, r') →
  AllocatorInv.inv (Registry.entityManager_ r').
Proof.
  intros Hst Hinv Hadm Hcall.
  destruct c as [| e | type e v | type e | type | type | type sg];
    cbn [Facade.call Facade.admissible] in *.
  - apply bind_inv in Hcall as (e & r1 & Hcreate & [= <-]).
    apply entityCreate_done_full in Hcreate as (Hcreate & _).
    by eapply inv_create.
  - apply entityDestroy_done_full in Hcall as (_ & -> & _).
    by apply inv_destroy.
  - apply componentAdd_done in Hcall
      as (sig & _ & _ & He & _ & _ & Hem & _).
    pose proof (inv_signature_set _ e
                  (N.setbit sig (ComponentManager.nextType_
                                   (Registry.componentManager_ r)))
                  Hinv Hadm) as [Hinv' _].
    rewrite signature_set_eq in Hinv'. apply N.ltb_lt in He.
    rewrite He in Hinv'. by rewrite Hem.
  - exfalso. unfold Registry.componentRemove, Registry.components in Hcall.
    apply bind_inv in Hcall as ([] & r1 & Hremove & _).
    apply zoom_inv in Hremove as (cm1 & Hremove & _).
    pose proof (stores_untouched_no_component type r
                  (ComponentContainer.remove e) Hst eq_refl) as Hfail.
    unfold ComponentManager.remove in Hremove.
    by rewrite Hremove in Hfail.
  - unfold Registry.componentInstall, Registry.components in Hcall.
    by apply zoom_inv in Hcall as (cm1 & _ & ->).
  - apply bind_inv in Hcall as (k & r1 & Hinstall & [= <-]).
    unfold Registry.systemInstall, Registry.systems in Hinstall.
    by apply zoom_inv in Hinstall as (sm1 & _ & ->).
  - unfold Registry.systemSignature, Registry.systems in Hcall.
    by apply zoom_inv in Hcall as (sm1 & _ & ->).
Qed.

Lemma facade_run_inv (cs : list (Facade.Call V)) r r' :
  Facade.stores_untouched r →
  AllocatorInv.inv (Registry.entityManager_ r) →
  Facade.run cs r = Some r' →
  Facade.stores_untouched r'
  ∧ AllocatorInv.inv (Registry.entityManager_ r').
Proof.
  revert r. induction cs as [| c cs IH]; intros r Hst Hinv;
    cbn [Facade.run].
  { by intros [= <-]. }
  destruct (Facade.admissible c r) eqn:Hadm; [| done].
  destruct (Facade.call c r) as [[[] | err] r1] eqn:Hcall; [| done].
  apply IH.
  - by eapply stores_untouched_step.
  - by eapply allocator_inv_step.
Qed.

End FacadeInvariants.

(** ** Registry: what the facade does and never does *)

Section FacadeProperties.
Context {V : Type} `{Inhabited V}.
Implicit Types r : Registry.t V.

(** X16: no component is ever stored through the facade.  After any
    sequence of admissible facade calls on a fresh registry every container
    is as its constructor left it, so [componentGet] and [componentRemove]
    fail for every type and every entity: with [MissingComponent] when the
    type is registered, with [NotRegistered] when it is not. *)
Theorem facade_never_stores (cs : list (Facade.Call V)) r :
  Facade.run cs Registry.new = Some r →
  (∀ t c,
     ComponentManager.componentContainer_ (Registry.componentManager_ r) !! t
     = Some c →
     c = ComponentContainer.new)
  ∧ (∀ t e,
       failure (Registry.componentGet t e r)
       = Some (if found (ComponentManager.componentTypes_
                           (Registry.componentManager_ r)) t
               then MissingComponent else NotRegistered))
  ∧ (∀ t e,
       failure (Registry.componentRemove t e r)
       = Some (if found (ComponentManager.componentTypes_
                           (Registry.componentManager_ r)) t
               then MissingComponent else NotRegistered)).
Proof.
  intros Hrun.
  destruct (facade_run_inv cs _ _ stores_untouched_new inv_new Hrun)
    as [Hst _].
  split; [exact (proj2 Hst) |]. split; intros t e.
  - pose proof (stores_untouched_no_component t r
                  (ComponentContainer.get e) Hst eq_refl) as Hfail.
    unfold failure, Registry.componentGet, Registry.components,
      ComponentManager.get.
    rewrite zoom_eq. cbn [fst]. by rewrite Hfail.
  - pose proof (stores_untouched_no_component t r
                  (ComponentContainer.remove e) Hst eq_refl) as Hfail.
    unfold failure, Registry.componentRemove, Registry.components,
      ComponentManager.remove.
    destruct (ComponentManager.getContainer_ t (ComponentContainer.remove e)
                (Registry.componentManager_ r)) as [o cm1] eqn:Hrem.
    cbn [fst] in Hfail. subst o.
    erewrite bind_fail; [done |]. rewrite zoom_eq, Hrem. reflexivity.
Qed.

(** X17: when [componentAdd] succeeds and what it does to signatures.  In
    a registry reached by admissible facade calls, [componentAdd] of a type
    that is not registered, while fewer than [COMPONENT_MAX] types are, on a
    handle in range succeeds; the type gets the next free id as its bit,
    that bit is set in the entity's signature and no other bit of it
    changes, and the signature of every other entity is unchanged. *)
Theorem componentAdd_sets_one_bit (cs : list (Facade.Call V)) r
    (type : string) (e : Entity) (v : V) :
  Facade.run cs Registry.new = Some r →
  found (ComponentManager.componentTypes_ (Registry.componentManager_ r))
        type = false →
  ComponentManager.nextType_ (Registry.componentManager_ r) < COMPONENT_MAX →
  e < ENTITY_MAX →
  ∃ r',
    Registry.componentAdd type e v r = (Done tt, r')
    ∧ result (Registry.componentType type r')
      = Some (ComponentManager.nextType_ (Registry.componentManager_ r))
    ∧ (∀ i, N.testbit (Facade.signature_of r' e) i
            = if i =? ComponentManager.nextType_
                        (Registry.componentManager_ r)
              then true else N.testbit (Facade.signature_of r e) i)
    ∧ ∀ x, x ≠ e → Facade.signature_of r' x = Facade.signature_of r x.
Proof.
  intros Hrun Hfresh Hbit He.
  destruct (facade_run_inv cs _ _ stores_untouched_new inv_new Hrun)
    as [_ [_ _ _ Har _]].
  destruct (lookup_lt_is_Some_2
              (EntityManager.signatures_ (Registry.entityManager_ r))
              (N.to_nat e) ltac:(lia)) as [sig Hsig].
  set (bit := ComponentManager.nextType_ (Registry.componentManager_ r))
    in *.
  destruct (signatureChanged_spec e (N.setbit sig bit)
              (Registry.systemManager_ r)) as (sm' & Hsc & _).
  apply N.ltb_lt in He as He'. apply N.ltb_lt in Hbit as Hbit'.
  eexists. split.
  { unfold Registry.componentAdd, Registry.components, Registry.entities,
      Registry.systems.
    erewrite bind_done;
      [| rewrite zoom_eq, component_install_eq, Hfresh; reflexivity].
    cbn [fst snd].
    erewrite bind_done;
      [| rewrite zoom_eq; cbn [Registry.entityManager_];
         rewrite signature_eq, He', Hsig; reflexivity].
    cbn [fst snd].
    erewrite bind_done;
      [| rewrite zoom_eq; cbn [Registry.componentManager_];
         rewrite getType_eq; cbn [ComponentManager.componentTypes_];
         rewrite lookup_insert_eq; reflexivity].
    cbn [fst snd].
    erewrite bind_done;
      [| unfold Bitset.set; fold bit; rewrite Hbit'; reflexivity].
    erewrite bind_done;
      [| rewrite zoom_eq; cbn [Registry.entityManager_];
         rewrite signature_set_eq, He'; reflexivity].
    cbn [fst snd]. rewrite zoom_eq. cbn [Registry.systemManager_].
    fold bit. rewrite Hsc. reflexivity. }
  cbn [fst snd Registry.componentManager_ Registry.entityManager_
       Registry.systemManager_].
  split; [| split].
  - unfold result, Registry.componentType, Registry.components.
    rewrite zoom_eq. cbn [fst Registry.componentManager_].
    rewrite getType_eq. cbn [ComponentManager.componentTypes_].
    by rewrite lookup_insert_eq.
  - intros i. unfold Facade.signature_of.
    cbn [Registry.entityManager_ EntityManager.signatures_].
    rewrite list_lookup_insert_eq by lia. rewrite Hsig.
    cbn [from_option id]. rewrite N.setbit_eqb, (N.eqb_sym bit i).
    by destruct (i =? bit).
  - intros x Hx. unfold Facade.signature_of.
    cbn [Registry.entityManager_ EntityManager.signatures_].
    rewrite list_lookup_insert_ne by lia. done.
Qed.

(** X18: a type beyond the width of the signature.  [install] does not
    compare the type id with [COMPONENT_MAX]; when [COMPONENT_MAX] types are
    registered already, [componentAdd] of a further type registers it and
    then fails with the [std::out_of_range] of [bitset::set]: the type stays
    registered, with an id no signature has a bit for, and the entities and
    the systems are untouched. *)
Theorem componentAdd_beyond_bitset r (type : string) (e : Entity) (v : V) :
  found (ComponentManager.componentTypes_ (Registry.componentManager_ r))
        type = false →
  COMPONENT_MAX <= ComponentManager.nextType_ (Registry.componentManager_ r) →
  e < ENTITY_MAX →
  is_Some (EntityManager.signatures_ (Registry.entityManager_ r)
             !! N.to_nat e) →
  ∃ r',
    Registry.componentAdd type e v r = (Fail BitsetOutOfRange, r')
    ∧ result (Registry.componentType type r')
      = Some (ComponentManager.nextType_ (Registry.componentManager_ r))
    ∧ Registry.entityManager_ r' = Registry.entityManager_ r
    ∧ Registry.systemManager_ r' = Registry.systemManager_ r.
Proof.
  intros Hfresh Hbit He [sig Hsig].
  apply N.ltb_lt in He as He'. apply N.ltb_ge in Hbit as Hbit'.
  eexists. split.
  { unfold Registry.componentAdd, Registry.components, Registry.entities.
    erewrite bind_done;
      [| rewrite zoom_eq, component_install_eq, Hfresh; reflexivity].
    cbn [fst snd].
    erewrite bind_done;
      [| rewrite zoom_eq; cbn [Registry.entityManager_];
         rewrite signature_eq, He', Hsig; reflexivity].
    cbn [fst snd].
    erewrite bind_done;
      [| rewrite zoom_eq; cbn [Registry.componentManager_];
         rewrite getType_eq; cbn [ComponentManager.componentTypes_];
         rewrite lookup_insert_eq; reflexivity].
    cbn [fst snd].
    erewrite bind_fail;
      [reflexivity | unfold Bitset.set; rewrite Hbit'; reflexivity]. }
  cbn [Registry.componentManager_ Registry.entityManager_
       Registry.systemManager_].
  split; [| done].
  unfold result, Registry.componentType, Registry.components.
  rewrite zoom_eq. cbn [fst Registry.componentManager_].
  rewrite getType_eq. cbn [ComponentManager.componentTypes_].
  by rewrite lookup_insert_eq.
Qed.

(** X19: a created entity starts clean, when the facade was called on live
    entities only.  In a registry reached by admissible facade calls, that
    is calls in which [entityDestroy], [componentAdd] and [componentRemove]
    work on live entities, the handle [entityCreate] returns was not live,
    is live afterwards, carries the empty signature and is a member of no
    system, whatever an earlier owner of the handle had.  The condition is
    needed: [componentAdd] checks the range of the handle only, see
    [entityCreate_after_stale_componentAdd] below. *)
Theorem entityCreate_starts_clean (cs : list (Facade.Call V)) r r'
    (e : Entity) :
  Facade.run cs Registry.new = Some r →
  Registry.entityCreate r = (Done e, r') →
  live (Registry.entityManager_ r) e = false
  ∧ live (Registry.entityManager_ r') e = true
  ∧ Facade.signature_of r' e = Bitset.zero
  ∧ ∀ t, e ∉ Facade.members r' t.
Proof.
  intros Hrun Hcreate.
  destruct (facade_run_inv cs _ _ stores_untouched_new inv_new Hrun)
    as [_ Hinv].
  pose proof (members_live_run cs _ _ members_live_new Hrun) as Hlive.
  apply entityCreate_done_full in Hcreate as (Hcreate & _ & Hsm).
  destruct (inv_create _ _ _ Hinv Hcreate) as (_ & Hq & _ & Hsg).
  destruct Hinv as [Hnd Hrg _ _ Hrs].
  assert (e ∈ EntityManager.entitiesAvailable_ (Registry.entityManager_ r))
    as Hin by (rewrite Hq; by left).
  assert (live (Registry.entityManager_ r) e = false) as Hdead
    by (apply live_false; by right).
  rewrite Hq in Hnd. apply NoDup_cons in Hnd as [Hout _].
  split_and!.
  - done.
  - apply live_spec. split; [by apply Hrg | done].
  - unfold Facade.signature_of. by rewrite Hsg, (Hrs e Hin).
  - intros t. unfold Facade.members. rewrite Hsm.
    destruct (SystemManager.systems_ _ !! t) as [s |] eqn:Hs;
      [| by apply not_elem_of_empty].
    intros Hx. pose proof (Hlive t s e Hs Hx) as Htrue.
    by rewrite Hdead in Htrue.
Qed.

(** X20: [entityDestroy] succeeds on every live entity and clears it.  In
    a registry reached by admissible facade calls, destroying a live entity
    succeeds; afterwards the entity is not live and its signature is empty,
    and every other entity keeps its liveness and its signature. *)
Theorem entityDestroy_clears (cs : list (Facade.Call V)) r (e : Entity) :
  Facade.run cs Registry.new = Some r →
  live (Registry.entityManager_ r) e = true →
  ∃ r',
    Registry.entityDestroy e r = (Done tt, r')
    ∧ live (Registry.entityManager_ r') e = false
    ∧ Facade.signature_of r' e = Bitset.zero
    ∧ ∀ x, x ≠ e →
        live (Registry.entityManager_ r') x
        = live (Registry.entityManager_ r) x
        ∧ Facade.signature_of r' x = Facade.signature_of r x.
Proof.
  intros Hrun Hlive.
  destruct (facade_run_inv cs _ _ stores_untouched_new inv_new Hrun)
    as [Hst [_ _ _ Har _]].
  pose proof Hlive as [He Hout]%live_spec. apply N.ltb_lt in He as He'.
  destruct (manager_destroyed_spec e _ (stores_untouched_wf r Hst))
    as (cm' & Hcm & _).
  destruct (entityDestroyed_spec e (Registry.systemManager_ r))
    as (sm' & Hsm & _).
  eexists. split.
  { unfold Registry.entityDestroy, Registry.components, Registry.entities,
      Registry.systems.
    erewrite bind_done;
      [| rewrite zoom_eq, destroy_eq, He'; reflexivity].
    cbn [fst snd].
    erewrite bind_done;
      [| rewrite zoom_eq; cbn [Registry.componentManager_];
         rewrite Hcm; reflexivity].
    cbn [fst snd]. rewrite zoom_eq. cbn [Registry.systemManager_].
    rewrite Hsm. reflexivity. }
  cbn [fst snd Registry.entityManager_].
  unfold Facade.signature_of.
  cbn [Registry.entityManager_ EntityManager.signatures_].
  split_and!.
  - apply live_false. right. cbn [EntityManager.entitiesAvailable_].
    apply elem_of_app. right. by apply list_elem_of_singleton.
  - by rewrite list_lookup_insert_eq by lia.
  - intros x Hx. split.
    + unfold live. cbn [EntityManager.entitiesAvailable_]. f_equal.
      apply bool_decide_ext. rewrite not_elem_of_app, list_elem_of_singleton.
      split; [by intros [? _] | intros ?; by split].
    + by rewrite list_lookup_insert_ne by lia.
Qed.

End FacadeProperties.

Lemma facade_never_stores_witness :
  ∃ r : Registry.t nat,
    Facade.run [Facade.EntityCreate; Facade.ComponentAdd "Position" 0 7%nat;
                Facade.SystemInstall "S"] Registry.new = Some r
    ∧ (∀ t c,
         ComponentManager.componentContainer_ (Registry.componentManager_ r)
           !! t = Some c →
         c = ComponentContainer.new)
    ∧ (∀ t e,
         failure (Registry.componentGet t e r)
         = Some (if found (ComponentManager.componentTypes_
                             (Registry.componentManager_ r)) t
                 then MissingComponent else NotRegistered))
    ∧ (∀ t e,
         failure (Registry.componentRemove t e r)
         = Some (if found (ComponentManager.componentTypes_
                             (Registry.componentManager_ r)) t
                 then MissingComponent else NotRegistered)).
Proof.
  eexists. split; [vm_compute; reflexivity |].
  apply (facade_never_stores
           [Facade.EntityCreate; Facade.ComponentAdd "Position" 0 7%nat;
            Facade.SystemInstall "S"]).
  vm_compute. reflexivity.
Defined.

Lemma componentAdd_sets_one_bit_witness :
  ∃ r : Registry.t nat,
    Facade.run [Facade.EntityCreate; Facade.EntityCreate;
                Facade.ComponentAdd "A" 0 7%nat] Registry.new = Some r
    ∧ found (ComponentManager.componentTypes_
               (Registry.componentManager_ r)) "B" = false
    ∧ ComponentManager.nextType_ (Registry.componentManager_ r)
      < COMPONENT_MAX
    ∧ 1 < ENTITY_MAX
    ∧ ∃ r',
        Registry.componentAdd "B" 1 8%nat r = (Done tt, r')
        ∧ result (Registry.componentType "B" r')
          = Some (ComponentManager.nextType_ (Registry.componentManager_ r))
        ∧ (∀ i, N.testbit (Facade.signature_of r' 1) i
                = if i =? ComponentManager.nextType_
                            (Registry.componentManager_ r)
                  then true else N.testbit (Facade.signature_of r 1) i)
        ∧ ∀ x, x ≠ 1 → Facade.signature_of r' x = Facade.signature_of r x.
Proof.
  eexists. split; [vm_compute; reflexivity |].
  split; [vm_compute; reflexivity |].
  split; [vm_compute; reflexivity |].
  split; [reflexivity |].
  apply (componentAdd_sets_one_bit
           [Facade.EntityCreate; Facade.EntityCreate;
            Facade.ComponentAdd "A" 0 7%nat] _ "B" 1 8%nat).
  - vm_compute. reflexivity.
  - vm_compute. reflexivity.
  - vm_compute. reflexivity.
  - reflexivity.
Defined.

Lemma componentAdd_beyond_bitset_witness :
  ∃ r : Registry.t nat,
    Facade.run
      (((λ k, Facade.ComponentInstall
                (String (Ascii.ascii_of_nat (65 + k)) EmptyString))
        <$> seq 0 32) ++ [Facade.EntityCreate]) Registry.new = Some r
    ∧ found (ComponentManager.componentTypes_
               (Registry.componentManager_ r)) "Position" = false
    ∧ COMPONENT_MAX
      <= ComponentManager.nextType_ (Registry.componentManager_ r)
    ∧ 0 < ENTITY_MAX
    ∧ is_Some (EntityManager.signatures_ (Registry.entityManager_ r)
                 !! N.to_nat 0)
    ∧ ∃ r',
        Registry.componentAdd "Position" 0 7%nat r
        = (Fail BitsetOutOfRange, r')
        ∧ result (Registry.componentType "Position" r')
          = Some (ComponentManager.nextType_ (Registry.componentManager_ r))
        ∧ Registry.entityManager_ r' = Registry.entityManager_ r
        ∧ Registry.systemManager_ r' = Registry.systemManager_ r.
Proof.
  exists (default Registry.new
            (Facade.run
               (((λ k, Facade.ComponentInstall
                         (String (Ascii.ascii_of_nat (65 + k)) EmptyString))
                 <$> seq 0 32) ++ [Facade.EntityCreate]) Registry.new)).
  split; [vm_compute; reflexivity |].
  split; [vm_compute; reflexivity |].
  split; [vm_compute; discriminate |].
  split; [reflexivity |].
  split; [exists 0; vm_compute; reflexivity |].
  apply (componentAdd_beyond_bitset _ "Position" 0 7%nat).
  - vm_compute. reflexivity.
  - vm_compute. discriminate.
  - reflexivity.
  - exists 0. vm_compute. reflexivity.
Defined.

Lemma entityCreate_starts_clean_witness :
  ∃ (r r' : Registry.t nat) e,
    Facade.run [Facade.EntityCreate; Facade.SystemInstall "S";
                Facade.ComponentAdd "A" 0 7%nat; Facade.EntityDestroy 0]
               Registry.new = Some r
    ∧ Registry.entityCreate r = (Done e, r')
    ∧ live (Registry.entityManager_ r) e = false
    ∧ live (Registry.entityManager_ r') e = true
    ∧ Facade.signature_of r' e = Bitset.zero
    ∧ ∀ t, e ∉ Facade.members r' t.
Proof.
  eexists. eexists. eexists.
  split; [vm_compute; reflexivity |].
  lazymatch goal with
  | |- ?call = ?res ∧ _ =>
      assert (call = res) as Hcreate by (vm_compute; reflexivity)
  end.
  split; [exact Hcreate |].
  refine (entityCreate_starts_clean
            [Facade.EntityCreate; Facade.SystemInstall "S";
             Facade.ComponentAdd "A" 0 7%nat; Facade.EntityDestroy 0]
            _ _ _ _ Hcreate).
  vm_compute. reflexivity.
Defined.

(** Without that condition the property fails: [componentAdd] accepts the
    handle 3 while it is not live, sets bit 0 in its signature and makes it
    a member of "S"; the fourth [entityCreate] then returns handle 3 with
    that signature and that membership. *)
Example entityCreate_after_stale_componentAdd :
  let rS : Registry.t nat := (Registry.systemInstall "S" Registry.new).2 in
  let r0 := (Registry.componentAdd "A" 3 7%nat rS).2 in
  let r3 :=
    (Registry.entityCreate
       (Registry.entityCreate (Registry.entityCreate r0).2).2).2 in
  live (Registry.entityManager_ rS) 3 = false
  ∧ failure (Registry.componentAdd "A" 3 7%nat rS) = None
  ∧ result (Registry.entityCreate r3) = Some 3
  ∧ Facade.signature_of (Registry.entityCreate r3).2 3 = 1
  ∧ elements (Facade.members (Registry.entityCreate r3).2 "S") = [3]
  ∧ Facade.run [Facade.SystemInstall "S"; Facade.ComponentAdd "A" 3 7%nat]
               (Registry.new : Registry.t nat) = None.
Proof. vm_compute. repeat split; reflexivity. Qed.

Lemma entityDestroy_clears_witness :
  ∃ r : Registry.t nat,
    Facade.run [Facade.EntityCreate; Facade.SystemInstall "S";
                Facade.ComponentAdd "A" 0 7%nat] Registry.new = Some r
    ∧ live (Registry.entityManager_ r) 0 = true
    ∧ ∃ r',
        Registry.entityDestroy 0 r = (Done tt, r')
        ∧ live (Registry.entityManager_ r') 0 = false
        ∧ Facade.signature_of r' 0 = Bitset.zero
        ∧ ∀ x, x ≠ 0 →
            live (Registry.entityManager_ r') x
            = live (Registry.entityManager_ r) x
            ∧ Facade.signature_of r' x = Facade.signature_of r x.
Proof.
  eexists. split; [vm_compute; reflexivity |].
  split; [vm_compute; reflexivity |].
  apply (entityDestroy_clears
           [Facade.EntityCreate; Facade.SystemInstall "S";
            Facade.ComponentAdd "A" 0 7%nat]).
  - vm_compute. reflexivity.
  - vm_compute. reflexivity.
Defined.
